(** * stress-test: the request-dispatch engine of [internal/runner/runner.go]

    The three entry operations [RunWithOptions], [RunForDuration] and
    [RunForDurationWithRate] start goroutines that share one [Report] behind
    a mutex.  Each operation is embedded as a transition system: a state
    holding the function's local variables and the position of every
    goroutine, and an executable [step] function that performs one scheduling
    or environment event.  The environment chooses when the context is
    cancelled, when timers fire and how every HTTP exchange ends. *)

From Stdlib Require Import ZArith Floats.
From stdpp Require Import gmap list strings pretty.

Open Scope Z_scope.

(** ** Machine integers *)

(** Go's [int] on 64-bit targets: [x++] wraps around. *)
Definition wrap (z : Z) : Z := (z + 2 ^ 63) mod 2 ^ 64 - 2 ^ 63.

Definition incr (z : Z) : Z := wrap (z + 1).

Definition in_int (z : Z) : Prop := - 2 ^ 63 <= z < 2 ^ 63.

(** ** The report *)

Module Report.

(** [type Report struct]; [Duration] is a [time.Duration], a count of
    nanoseconds. *)
Record t := Make {
  Duration : Z;
  TotalRequests : Z;
  Succeeded200 : Z;
  StatusCounts : gmap Z Z;
  Errors : Z
}.

(** [Report{StatusCounts: make(map[int]int)}] *)
Definition empty : t := Make 0 0 0 ∅ 0.

(** [Report{TotalRequests: total, StatusCounts: make(map[int]int)}] *)
Definition sized (total : Z) : t := Make 0 total 0 ∅ 0.

Definition set_Duration (d : Z) (r : t) : t :=
  Make d (TotalRequests r) (Succeeded200 r) (StatusCounts r) (Errors r).

End Report.

Import Report.
Abbreviation Report := Report.t.

(** Reading a Go map at a missing key gives the zero value. *)
Definition at_code (m : gmap Z Z) (code : Z) : Z := default 0 (m !! code).

(** Sum of the histogram's values, as an unbounded integer. *)
Definition sum_counts (m : gmap Z Z) : Z := map_fold (λ _ v acc, v + acc) 0 m.

(** ** Requests per second *)

(** [float64(n)] for an integer [n]: rounding to the nearest binary64. *)
Definition float64 (n : Z) : float := SF2Prim (binary_normalize 53 1024 n 0 false).

(** [time.Second] in nanoseconds. *)
Definition Second : Z := 1000000000.

(** [Duration.Seconds] of Go's [time] package:
    [sec := d / Second; nsec := d % Second;
     return float64(sec) + float64(nsec)/1e9]. *)
Definition Seconds (d : Z) : float :=
  (float64 (Z.quot d Second) + float64 (Z.rem d Second) / float64 1000000000)%float.

(** [func (r Report) RPS() float64] *)
Definition RPS (r : Report) : float :=
  if Duration r <=? 0 then 0%float
  else (float64 (TotalRequests r) / Seconds (Duration r))%float.

(** ** One request attempt *)

(** How one pass through a worker's loop body ends: [http.NewRequestWithContext]
    fails, [client.Do] fails, or a response with some status code arrives. *)
Inductive Outcome :=
| BuildFailed
| DoFailed
| Response (code : Z).

Definition is_failure (o : Outcome) : bool :=
  match o with Response _ => false | _ => true end.

(** [http.StatusOK] *)
Definition StatusOK : Z := 200.

(** [rep.Errors++] *)
Definition count_error (r : Report) : Report :=
  Make (Duration r) (TotalRequests r) (Succeeded200 r) (StatusCounts r)
       (incr (Errors r)).

(** [rep.StatusCounts[resp.StatusCode]++;
     if resp.StatusCode == http.StatusOK { rep.Succeeded200++ }] *)
Definition count_status (code : Z) (r : Report) : Report :=
  Make (Duration r) (TotalRequests r)
       (if code =? StatusOK then incr (Succeeded200 r) else Succeeded200 r)
       (<[code := incr (at_code (StatusCounts r) code)]> (StatusCounts r))
       (Errors r).

(** [rep.TotalRequests++] *)
Definition count_total (r : Report) : Report :=
  Make (Duration r) (incr (TotalRequests r)) (Succeeded200 r) (StatusCounts r)
       (Errors r).

(** The critical section of [RunWithOptions]'s worker (between [mu.Lock]
    and [mu.Unlock]) for each way the attempt ended. *)
Definition tally_counted (o : Outcome) (r : Report) : Report :=
  match o with
  | BuildFailed | DoFailed => count_error r
  | Response code => count_status code r
  end.

(** The critical section of the workers of [RunForDuration] and
    [RunForDurationWithRate]: a response also bumps [TotalRequests]. *)
Definition tally_timed (o : Outcome) (r : Report) : Report :=
  match o with
  | BuildFailed | DoFailed => count_error r
  | Response code => count_status code (count_total r)
  end.

(** ** Request options *)

(** [type Options struct]; [http.Header] maps a name to its values. *)
Record Options := {
  Method : string;
  Headers : list (string * list string);
  Body : list Byte.byte
}.

(** ** The pool of workers *)

(** Where a worker goroutine stands in its loop. *)
Inductive Worker :=
| LoopHead                (* blocked in [for range jobs], or at the [select] *)
| GotJob                  (* holds a job, before [ctx.Err() != nil] *)
| Issuing                 (* building the request and calling [client.Do] *)
| Recording (o : Outcome) (* the attempt ended, waiting for [mu.Lock] *)
| Done.                   (* returned; [wg.Done] ran *)

Global Instance Outcome_eq_dec : EqDecision Outcome.
Proof. solve_decision. Defined.

Global Instance Worker_eq_dec : EqDecision Worker.
Proof. solve_decision. Defined.

(** What every entry operation shares: the report, the state of [ctx] and
    the worker goroutines. *)
Record Pool := MkPool {
  rep : Report;
  cancelled : bool;
  workers : list Worker
}.

(** [if concurrency < 1 { concurrency = 1 }; wg.Add(concurrency);
     for i := 0; i < concurrency; i++ { go worker() }] *)
Definition spawn (concurrency : Z) : list Worker :=
  replicate (Z.to_nat (if concurrency <? 1 then 1 else concurrency)) LoopHead.

Definition set_worker (w : nat) (x : Worker) (p : Pool) : Pool :=
  MkPool (rep p) (cancelled p) (<[w := x]> (workers p)).

(** The context is cancelled or its deadline passes. *)
Definition pool_cancel (p : Pool) : Pool := MkPool (rep p) true (workers p).

(** Worker [w] leaves position [from] for position [to]. *)
Definition pool_move (w : nat) (from to : Worker) (p : Pool) : option Pool :=
  match workers p !! w with
  | Some x => if decide (x = from) then Some (set_worker w to p) else None
  | None => None
  end.

(** [if ctx.Err() != nil { return }] *)
Definition pool_check (w : nat) (p : Pool) : option Pool :=
  pool_move w GotJob (if cancelled p then Done else Issuing) p.

(** The attempt of worker [w] ends with outcome [o]. *)
Definition pool_reply (w : nat) (o : Outcome) (p : Pool) : option Pool :=
  pool_move w Issuing (Recording o) p.

(** Worker [w] takes [mu], updates the report and goes round its loop
    ([continue], or the end of the body). *)
Definition pool_commit (tally : Outcome → Report → Report) (w : nat) (p : Pool)
  : option Pool :=
  match workers p !! w with
  | Some (Recording o) =>
      Some (MkPool (tally o (rep p)) (cancelled p) (<[w := LoopHead]> (workers p)))
  | _ => None
  end.

(** [wg.Wait()] returns once every worker has returned. *)
Definition all_done (p : Pool) : bool :=
  forallb (λ x, bool_decide (x = Done)) (workers p).

(** ** Scheduling and environment events *)

Inductive Event :=
| Cancel                      (* [ctx] is cancelled *)
| Fire                        (* the timer of [time.After(d)] fires *)
| Tick                        (* the ticker delivers on [ticker.C] *)
| Feed (w : nat)              (* [jobs <- struct{}{}] meets worker [w] *)
| FeederStop                  (* the feeder leaves its loop and closes [jobs] *)
| GenTick                     (* the generator takes [<-ticker.C] *)
| GenSend                     (* the generator's [jobs <- struct{}{}] *)
| GenCtx                      (* the generator takes [<-ctx.Done()] *)
| GenEnd                      (* the generator takes [<-end] *)
| Recv (w : nat)              (* worker [w]'s [range jobs] makes progress *)
| PollCtx (w : nat)           (* worker [w]'s select takes [<-ctx.Done()] *)
| PollEnd (w : nat)           (* worker [w]'s select takes [<-end] *)
| PollDefault (w : nat)       (* worker [w]'s select takes [default] *)
| CtxErr (w : nat)            (* worker [w] tests [ctx.Err()] *)
| Reply (w : nat) (o : Outcome) (* worker [w]'s attempt ends *)
| Commit (w : nat).           (* worker [w] records the outcome under [mu] *)

(** Running a list of events from a state. *)
Fixpoint exec {S : Type} (step : S → Event → option S) (s : S) (es : list Event)
  : option S :=
  match es with
  | [] => Some s
  | e :: es' =>
      match step s e with
      | Some s' => exec step s' es'
      | None => None
      end
  end.

(** What an entry operation returns: [(Report, error)]; no operation ever
    builds a non-nil error, so the error carries no data. *)
Inductive error := SomeError.

Definition Returned : Type := Report * option error.

(** ** [RunWithOptions]: a fixed number of requests *)

Module RunWithOptions.

(** The locals of one call: the pool, the feeder's loop counter [i],
    whether [jobs] (unbuffered) is closed, and [total]. *)
Record State := Mk {
  pool : Pool;
  total : Z;
  next : Z;
  closed : bool
}.

(** The state once the workers and the feeder are started.  [ctx_done]
    tells whether [ctx] is already cancelled at the call. *)
Definition start (ctx_done : bool) (targetURL : string) (total concurrency : Z)
    (opts : Options) : State :=
  Mk (MkPool (Report.sized total) ctx_done (spawn concurrency)) total 0 false.

Definition on_pool (f : Pool → option Pool) (s : State) : option State :=
  match f (pool s) with
  | Some p => Some (Mk p (total s) (next s) (closed s))
  | None => None
  end.

Definition step (s : State) (e : Event) : option State :=
  match e with
  | Cancel => on_pool (λ p, Some (pool_cancel p)) s
  | Feed w =>
      (* [for i := 0; i < total; i++ { select { case jobs <- struct{}{}: } }]
         with worker [w] receiving *)
      if closed s then None
      else if next s <? total s then
        match pool_move w LoopHead GotJob (pool s) with
        | Some p => Some (Mk p (total s) (next s + 1) false)
        | None => None
        end
      else None
  | FeederStop =>
      (* [case <-ctx.Done(): return], or the loop ends; [defer close(jobs)] *)
      if closed s then None
      else if cancelled (pool s) || negb (next s <? total s)
      then Some (Mk (pool s) (total s) (next s) true)
      else None
  | Recv w =>
      (* [for range jobs] ends when the channel is closed *)
      if closed s then on_pool (pool_move w LoopHead Done) s else None
  | CtxErr w => on_pool (pool_check w) s
  | Reply w o => on_pool (pool_reply w o) s
  | Commit w => on_pool (pool_commit tally_counted w) s
  | _ => None
  end.

(** [wg.Wait(); rep.Duration = time.Since(start); return rep, nil] *)
Definition result (s : State) (elapsed : Z) : option Returned :=
  if all_done (pool s)
  then Some (Report.set_Duration elapsed (rep (pool s)), None)
  else None.

(** The pair a call returns after the events [es], if it returns then. *)
Definition run (ctx_done : bool) (targetURL : string) (total concurrency : Z)
    (opts : Options) (es : list Event) (elapsed : Z) : option Returned :=
  match exec step (start ctx_done targetURL total concurrency opts) es with
  | Some s => result s elapsed
  | None => None
  end.

End RunWithOptions.

(** ** [RunForDuration]: as many requests as fit before a deadline *)

Module RunForDuration.

(** [end := time.After(d)] is a channel of capacity one that receives a
    single value when the timer fires: [fired] tells whether the timer
    has fired, [end_ready] whether the value still sits in the channel. *)
Record State := Mk {
  pool : Pool;
  fired : bool;
  end_ready : bool
}.

Definition start (ctx_done : bool) (targetURL : string) (d concurrency : Z)
    (opts : Options) : State :=
  Mk (MkPool Report.empty ctx_done (spawn concurrency)) false false.

Definition on_pool (f : Pool → option Pool) (s : State) : option State :=
  match f (pool s) with
  | Some p => Some (Mk p (fired s) (end_ready s))
  | None => None
  end.

Definition step (s : State) (e : Event) : option State :=
  match e with
  | Cancel => on_pool (λ p, Some (pool_cancel p)) s
  | Fire => if fired s then None else Some (Mk (pool s) true true)
  | PollCtx w =>
      (* [case <-ctx.Done(): return] *)
      if cancelled (pool s) then on_pool (pool_move w LoopHead Done) s else None
  | PollEnd w =>
      (* [case <-end: return] takes the value out of the channel *)
      if end_ready s then
        match pool_move w LoopHead Done (pool s) with
        | Some p => Some (Mk p (fired s) false)
        | None => None
        end
      else None
  | PollDefault w =>
      (* [default:] is taken only when no other case is ready *)
      if cancelled (pool s) || end_ready s then None
      else on_pool (pool_move w LoopHead Issuing) s
  | Reply w o => on_pool (pool_reply w o) s
  | Commit w => on_pool (pool_commit tally_timed w) s
  | _ => None
  end.

(** [wg.Wait(); rep.Duration = time.Since(start); return rep, nil] *)
Definition result (s : State) (elapsed : Z) : option Returned :=
  if all_done (pool s)
  then Some (Report.set_Duration elapsed (rep (pool s)), None)
  else None.

(** The pair a call returns after the events [es], if it returns then. *)
Definition run (ctx_done : bool) (targetURL : string) (d concurrency : Z)
    (opts : Options) (es : list Event) (elapsed : Z) : option Returned :=
  match exec step (start ctx_done targetURL d concurrency opts) es with
  | Some s => result s elapsed
  | None => None
  end.

End RunForDuration.

(** ** [RunForDurationWithRate]: requests paced by a ticker until a deadline *)

Module RunForDurationWithRate.

(** Where the generator goroutine stands. *)
Inductive Gen :=
| Outer     (* at the outer [select] *)
| Inner     (* took a tick, at the inner [select] *)
| Stopped.  (* returned: [jobs] and [genDone] are closed *)

(** [jobs := make(chan struct{}, 1024)] *)
Definition jobs_cap : nat := 1024.

(** [queued] is [len(jobs)]; [tick_ready] tells whether a tick sits in
    [ticker.C] (capacity one, further ticks are dropped). *)
Record State := Mk {
  pool : Pool;
  fired : bool;
  end_ready : bool;
  tick_ready : bool;
  gen : Gen;
  queued : nat
}.

(** A call either returns at once or starts its goroutines. *)
Inductive Launch :=
| Immediately (r : Returned)
| Running (s : State).

(** [if rps <= 0 { return rep, nil }], then the ticker, the generator and
    the workers are started.  The ticker's period only decides when the
    environment delivers [Tick]. *)
Definition start (ctx_done : bool) (targetURL : string) (d concurrency : Z)
    (opts : Options) (rps : float) : Launch :=
  if (rps <=? 0)%float then Immediately (Report.empty, None)
  else Running (Mk (MkPool Report.empty ctx_done (spawn concurrency))
                   false false false Outer 0).

Definition on_pool (f : Pool → option Pool) (s : State) : option State :=
  match f (pool s) with
  | Some p => Some (Mk p (fired s) (end_ready s) (tick_ready s) (gen s) (queued s))
  | None => None
  end.

Definition stopped (s : State) : bool :=
  match gen s with Stopped => true | _ => false end.

Definition step (s : State) (e : Event) : option State :=
  match e with
  | Cancel => on_pool (λ p, Some (pool_cancel p)) s
  | Fire =>
      if fired s then None
      else Some (Mk (pool s) true true (tick_ready s) (gen s) (queued s))
  | Tick => Some (Mk (pool s) (fired s) (end_ready s) true (gen s) (queued s))
  | GenCtx =>
      (* [case <-ctx.Done(): return] in either select *)
      if stopped s then None
      else if cancelled (pool s)
      then Some (Mk (pool s) (fired s) (end_ready s) (tick_ready s) Stopped (queued s))
      else None
  | GenEnd =>
      (* [case <-end: return] in either select *)
      if stopped s then None
      else if end_ready s
      then Some (Mk (pool s) (fired s) false (tick_ready s) Stopped (queued s))
      else None
  | GenTick =>
      match gen s with
      | Outer =>
          if tick_ready s
          then Some (Mk (pool s) (fired s) (end_ready s) false Inner (queued s))
          else None
      | _ => None
      end
  | GenSend =>
      (* [case jobs <- struct{}{}:] needs room in the buffer *)
      match gen s with
      | Inner =>
          if decide (queued s < jobs_cap)%nat
          then Some (Mk (pool s) (fired s) (end_ready s) (tick_ready s) Outer
                        (S (queued s)))
          else None
      | _ => None
      end
  | Recv w =>
      (* [for range jobs]: take a buffered job, or leave once the channel
         is closed and drained *)
      match queued s with
      | S n =>
          match pool_move w LoopHead GotJob (pool s) with
          | Some p => Some (Mk p (fired s) (end_ready s) (tick_ready s) (gen s) n)
          | None => None
          end
      | O => if stopped s then on_pool (pool_move w LoopHead Done) s else None
      end
  | CtxErr w => on_pool (pool_check w) s
  | Reply w o => on_pool (pool_reply w o) s
  | Commit w => on_pool (pool_commit tally_timed w) s
  | _ => None
  end.

(** [<-genDone; wg.Wait(); ticker.Stop();
     rep.Duration = time.Since(start); return rep, nil] *)
Definition result (s : State) (elapsed : Z) : option Returned :=
  if stopped s && all_done (pool s)
  then Some (Report.set_Duration elapsed (rep (pool s)), None)
  else None.

(** The pair a call returns after the events [es], if it returns then. *)
Definition run (l : Launch) (es : list Event) (elapsed : Z) : option Returned :=
  match l with
  | Immediately r => match es with [] => Some r | _ => None end
  | Running s =>
      match exec step s es with
      | Some s' => result s' elapsed
      | None => None
      end
  end.

End RunForDurationWithRate.

(** ** Vocabulary of the properties *)

(** [Succeeded200] mirrors the histogram's entry for 200. *)
Definition ok_mirrors (r : Report) : Prop :=
  Succeeded200 r = at_code (StatusCounts r) StatusOK.

(** [TotalRequests] is the histogram's sum, in machine arithmetic. *)
Definition total_is_sum (r : Report) : Prop :=
  TotalRequests r = wrap (sum_counts (StatusCounts r)).

(** The accounting identity [TotalRequests == Σ(StatusCounts) + Errors]. *)
Definition accounted (r : Report) : Prop :=
  TotalRequests r = wrap (sum_counts (StatusCounts r) + Errors r).

(** A failed attempt touches nothing but [Errors]. *)
Definition only_error_counted (r r' : Report) : Prop :=
  Errors r' = incr (Errors r) ∧ TotalRequests r' = TotalRequests r ∧
  Succeeded200 r' = Succeeded200 r ∧ StatusCounts r' = StatusCounts r ∧
  Duration r' = Duration r.

(** A response with status [code] goes to the histogram and leaves [Errors]
    alone. *)
Definition status_counted (code : Z) (r r' : Report) : Prop :=
  Errors r' = Errors r ∧
  at_code (StatusCounts r') code = incr (at_code (StatusCounts r) code) ∧
  ∀ c, c ≠ code → at_code (StatusCounts r') c = at_code (StatusCounts r) c.

Definition recorded (o : Outcome) (r r' : Report) : Prop :=
  match o with
  | Response code => status_counted code r r'
  | BuildFailed | DoFailed => only_error_counted r r'
  end.

(** What a step does to the report.  [Reply w o] ends the attempt of
    worker [w] with outcome [o] and leaves the report alone; [Commit w]
    records that outcome, a failure in [Errors] only and a response in the
    histogram only, and sends [w] back to its loop head, where nothing is
    attempted without a new job, permit or pass; no other step changes
    the report. *)
Definition attempt_recorded_once {S : Type} (step : S → Event → option S)
    (pool : S → Pool) : Prop :=
  ∀ s e s', step s e = Some s' →
    match e with
    | Reply w o =>
        workers (pool s) !! w = Some Issuing ∧
        workers (pool s') !! w = Some (Recording o) ∧
        rep (pool s') = rep (pool s)
    | Commit w =>
        ∃ o, workers (pool s) !! w = Some (Recording o) ∧
             recorded o (rep (pool s)) (rep (pool s')) ∧
             workers (pool s') !! w = Some LoopHead
    | _ => rep (pool s') = rep (pool s)
    end.

(** Counting events and workers. *)
Fixpoint count_ev (f : Event → bool) (es : list Event) : nat :=
  match es with
  | [] => 0
  | e :: es' => (if f e then 1 else 0) + count_ev f es'
  end.

Definition weight (f : Worker → bool) (x : Worker) : nat := if f x then 1 else 0.

Fixpoint count_w (f : Worker → bool) (ws : list Worker) : nat :=
  match ws with
  | [] => 0
  | x :: ws' => weight f x + count_w f ws'
  end.

(** The request attempts that ended in a run. *)
Definition is_reply (e : Event) : bool :=
  match e with Reply _ _ => true | _ => false end.

Definition attempts (es : list Event) : nat := count_ev is_reply es.

(** The units of work handed out: jobs fed ([RunWithOptions]), passes of the
    stop check ([RunForDuration]), permits sent ([RunForDurationWithRate]). *)
Definition is_feed (e : Event) : bool :=
  match e with Feed _ => true | _ => false end.

Definition is_pass (e : Event) : bool :=
  match e with PollDefault _ => true | _ => false end.

Definition is_permit (e : Event) : bool :=
  match e with GenSend => true | _ => false end.

(** Workers that hold a unit of work and have not finished the attempt. *)
Definition is_busy (x : Worker) : bool :=
  match x with GotJob | Issuing => true | _ => false end.

Definition is_head (x : Worker) : bool :=
  match x with LoopHead => true | _ => false end.

(** Workers that wait or have returned: none holds a job. *)
Definition idle (x : Worker) : Prop := x = LoopHead ∨ x = Done.

(** [RunWithOptions]: the report's [TotalRequests] is set once, to [total]. *)
Definition total_fixed (s : RunWithOptions.State) : Prop :=
  TotalRequests (rep (RunWithOptions.pool s)) = RunWithOptions.total s.

(** [RunWithOptions]: no more attempts than jobs fed, no more jobs than
    [total]. *)
Definition fed_bounds (n : Z) (es : list Event) (s : RunWithOptions.State) : Prop :=
  RunWithOptions.total s = n ∧
  (attempts es + count_w is_busy (workers (RunWithOptions.pool s))
   ≤ count_ev is_feed es)%nat ∧
  Z.of_nat (count_ev is_feed es) = RunWithOptions.next s ∧
  RunWithOptions.next s <= Z.max 0 n.

(** [RunWithOptions] with nothing to do: nobody holds a job and the report
    stays as it was made. *)
Definition untouched (s : RunWithOptions.State) : Prop :=
  RunWithOptions.total s = 0 ∧ RunWithOptions.next s = 0 ∧
  Forall idle (workers (RunWithOptions.pool s)) ∧
  rep (RunWithOptions.pool s) = Report.sized 0.

(** [RunForDuration]: no more attempts than passes of the stop check. *)
Definition passed_bounds (es : list Event) (s : RunForDuration.State) : Prop :=
  (attempts es + count_w is_busy (workers (RunForDuration.pool s))
   ≤ count_ev is_pass es)%nat.

(** [RunForDurationWithRate]: [jobs] never holds more than its capacity,
    and attempts, held jobs and buffered jobs together never exceed the
    permits sent. *)
Definition permit_bounds (es : list Event) (s : RunForDurationWithRate.State)
  : Prop :=
  (RunForDurationWithRate.queued s ≤ RunForDurationWithRate.jobs_cap)%nat ∧
  (attempts es + count_w is_busy (workers (RunForDurationWithRate.pool s))
   + RunForDurationWithRate.queued s ≤ count_ev is_permit es)%nat.

(** [RunForDurationWithRate], as the paced mode is described: never more
    than one job waiting in [jobs] ... *)
Definition at_most_one_buffered (s0 : RunForDurationWithRate.State) : Prop :=
  ∀ es s, exec RunForDurationWithRate.step s0 es = Some s →
          (RunForDurationWithRate.queued s ≤ 1)%nat.

(** ... and no job sent once the deadline's timer has fired or the context
    is cancelled. *)
Definition silent_after_deadline (s0 : RunForDurationWithRate.State) : Prop :=
  ∀ es s, exec RunForDurationWithRate.step s0 es = Some s →
          RunForDurationWithRate.fired s = true ∨
          cancelled (RunForDurationWithRate.pool s) = true →
          RunForDurationWithRate.step s GenSend = None.

(** Sample arguments for the examples. *)
Definition sample_url : string := "http://localhost:8080/ping".

Definition sample_opts : Options := Build_Options "GET" [] [].

(** ** Vocabulary of the further properties of the runner *)

(** What a step of any of the three operations does to the pool: [Reply]
    and [Commit] as the worker code does them, every other step leaves the
    report alone and moves at most one worker between positions that hold
    no finished attempt. *)
Definition plain (x : Worker) : bool :=
  match x with Recording _ => false | _ => true end.

Definition pool_step (tally : Outcome → Report → Report) (e : Event)
    (p p' : Pool) : Prop :=
  match e with
  | Reply w o =>
      workers p !! w = Some Issuing ∧
      p' = MkPool (rep p) (cancelled p) (<[w := Recording o]> (workers p))
  | Commit w =>
      ∃ o, workers p !! w = Some (Recording o) ∧
           p' = MkPool (tally o (rep p)) (cancelled p)
                       (<[w := LoopHead]> (workers p))
  | _ =>
      rep p' = rep p ∧
      (workers p' = workers p ∨
       ∃ w a b, workers p !! w = Some a ∧ plain a = true ∧ plain b = true ∧
                workers p' = <[w := b]> (workers p))
  end.

(** Attempts by the way they ended, and workers by the outcome they still
    have to record. *)
Definition is_response (c : Z) (e : Event) : bool :=
  match e with Reply _ (Response c') => c' =? c | _ => false end.

Definition is_any_response (e : Event) : bool :=
  match e with Reply _ (Response _) => true | _ => false end.

Definition is_failed_reply (e : Event) : bool :=
  match e with Reply _ o => is_failure o | _ => false end.

Definition holds_response (c : Z) (x : Worker) : bool :=
  match x with Recording (Response c') => c' =? c | _ => false end.

Definition holds_any_response (x : Worker) : bool :=
  match x with Recording (Response _) => true | _ => false end.

Definition holds_failure (x : Worker) : bool :=
  match x with Recording o => is_failure o | _ => false end.

Definition is_done (x : Worker) : bool :=
  match x with Done => true | _ => false end.

Definition is_cancel (e : Event) : bool :=
  match e with Cancel => true | _ => false end.

Definition is_tick (e : Event) : bool :=
  match e with Tick => true | _ => false end.

Definition is_poll_end (e : Event) : bool :=
  match e with PollEnd _ => true | _ => false end.

(** The number of attempts in [es] that ended the way [f] selects and are
    no longer waiting in [ws] to be recorded. *)
Definition settled (f : Event → bool) (g : Worker → bool) (es : list Event)
    (ws : list Worker) : Z :=
  Z.of_nat (count_ev f es) - Z.of_nat (count_w g ws).

(** An entry of the histogram that counts [n] responses: absent for none. *)
Definition entry (n : Z) : option Z := if n =? 0 then None else Some (wrap n).

(** The report tells what was recorded so far: failures in [Errors],
    responses with status [c] under [c], all responses in the histogram's
    sum and, in the duration modes ([timed]), in [TotalRequests]. *)
Definition tallied (timed : bool) (c : Z) (es : list Event) (p : Pool) : Prop :=
  0 <= settled is_failed_reply holds_failure es (workers p) ∧
  0 <= settled (is_response c) (holds_response c) es (workers p) ∧
  0 <= settled is_any_response holds_any_response es (workers p) ∧
  Errors (rep p) = wrap (settled is_failed_reply holds_failure es (workers p)) ∧
  StatusCounts (rep p) !! c
    = entry (settled (is_response c) (holds_response c) es (workers p)) ∧
  wrap (sum_counts (StatusCounts (rep p)))
    = wrap (settled is_any_response holds_any_response es (workers p)) ∧
  (timed = true →
   TotalRequests (rep p)
     = wrap (settled is_any_response holds_any_response es (workers p))).

(** The tally that goes with each kind of operation. *)
Definition tally_of (timed : bool) : Outcome → Report → Report :=
  if timed then tally_timed else tally_counted.

(** The report of a finished run tells exactly how its attempts ended:
    [Errors] the failed ones, the histogram the responses by status (no
    entry for a status never seen), [Succeeded200] the 200s and, in the
    duration modes ([timed]), [TotalRequests] all responses; each count as
    a Go [int]. *)
Definition reports_outcomes (timed : bool) (es : list Event) (r : Report) : Prop :=
  Errors r = wrap (Z.of_nat (count_ev is_failed_reply es)) ∧
  (∀ code, StatusCounts r !! code
           = entry (Z.of_nat (count_ev (is_response code) es))) ∧
  Succeeded200 r = wrap (Z.of_nat (count_ev (is_response StatusOK) es)) ∧
  wrap (sum_counts (StatusCounts r))
    = wrap (Z.of_nat (count_ev is_any_response es)) ∧
  (timed = true →
   TotalRequests r = wrap (Z.of_nat (count_ev is_any_response es))).

(** Whether a flag counts as one. *)
Definition b2n (b : bool) : nat := if b then 1 else 0.

(** The context of a run is never cancelled: it is live at the call and no
    [Cancel] happens. *)
Definition never_cancelled (ctx_done : bool) (es : list Event) : Prop :=
  ctx_done = false ∧ count_ev is_cancel es = 0%nat.

(** [RunWithOptions] while the context is live: every job fed is attempted
    or held, the feeder closes [jobs] only after [total] jobs, and a worker
    returns only after [jobs] is closed. *)
Definition live_count_run (ctx_done : bool) (es : list Event)
    (s : RunWithOptions.State) : Prop :=
  (cancelled (RunWithOptions.pool s) = true →
   ctx_done = true ∨ (0 < count_ev is_cancel es)%nat) ∧
  (cancelled (RunWithOptions.pool s) = false →
   count_ev is_feed es
   = (attempts es + count_w is_busy (workers (RunWithOptions.pool s)))%nat ∧
   (RunWithOptions.closed s = true →
    RunWithOptions.total s <= RunWithOptions.next s) ∧
   ((0 < count_w is_done (workers (RunWithOptions.pool s)))%nat →
    RunWithOptions.closed s = true)).

(** [RunForDuration]: the single value of [end] is either still to come,
    waiting in the channel, or taken by the one worker that left through
    it; while the context is live nobody leaves another way. *)
Definition one_deadline_value (ctx_done : bool) (es : list Event)
    (s : RunForDuration.State) : Prop :=
  (count_ev is_poll_end es + b2n (RunForDuration.end_ready s)
   = b2n (RunForDuration.fired s))%nat ∧
  (cancelled (RunForDuration.pool s) = true →
   ctx_done = true ∨ (0 < count_ev is_cancel es)%nat) ∧
  (cancelled (RunForDuration.pool s) = false →
   count_w is_done (workers (RunForDuration.pool s)) = count_ev is_poll_end es).

(** The generator holds a tick it has not yet turned into a job. *)
Definition holds_tick (s : RunForDurationWithRate.State) : bool :=
  match RunForDurationWithRate.gen s with
  | RunForDurationWithRate.Inner => true
  | _ => false
  end.

(** [RunForDurationWithRate]: every permit sent took a tick out of
    [ticker.C]. *)
Definition paced_by_ticks (es : list Event) (s : RunForDurationWithRate.State)
  : Prop :=
  (count_ev is_permit es
   + b2n (holds_tick s)
   + b2n (RunForDurationWithRate.tick_ready s)
   ≤ count_ev is_tick es)%nat.

(** [RunForDurationWithRate] while the context is live: every permit sent
    is attempted, held or still buffered, and a worker returns only after
    the generator has returned and [jobs] is drained. *)
Definition live_paced_run (ctx_done : bool) (es : list Event)
    (s : RunForDurationWithRate.State) : Prop :=
  (cancelled (RunForDurationWithRate.pool s) = true →
   ctx_done = true ∨ (0 < count_ev is_cancel es)%nat) ∧
  (cancelled (RunForDurationWithRate.pool s) = false →
   count_ev is_permit es
   = (attempts es + count_w is_busy (workers (RunForDurationWithRate.pool s))
      + RunForDurationWithRate.queued s)%nat ∧
   ((0 < count_w is_done (workers (RunForDurationWithRate.pool s)))%nat →
    RunForDurationWithRate.stopped s = true ∧
    RunForDurationWithRate.queued s = 0%nat)).

(** ** The [ramp] command: phases and their aggregation *)

(** [a += b] on Go's [int]. *)
Definition add_int (a b : Z) : Z := wrap (a + b).

(** [for code, count := range rep.StatusCounts
       { overall.StatusCounts[code] += count }] *)
Definition add_counts (overall src : gmap Z Z) : gmap Z Z :=
  map_fold (λ code count acc, <[code := add_int (at_code acc code) count]> acc)
           overall src.

(** The aggregation of one phase into the running summary:
    [overall.TotalRequests += rep.TotalRequests], likewise [Succeeded200]
    and [Errors], and the histograms entry by entry. *)
Definition aggregate (overall r : Report) : Report :=
  Report.Make (Duration overall)
    (add_int (TotalRequests overall) (TotalRequests r))
    (add_int (Succeeded200 overall) (Succeeded200 r))
    (add_counts (StatusCounts overall) (StatusCounts r))
    (add_int (Errors overall) (Errors r)).

(** [overall := runner.Report{StatusCounts: map[int]int{}}], one
    aggregation per phase, then [overall.Duration = time.Since(overallStart)]. *)
Definition ramp_overall (phases : list Report) (elapsed : Z) : Report :=
  Report.set_Duration elapsed (foldl aggregate Report.empty phases).

(** What the running summary keeps true, phase after phase. *)
Definition summary_ok (r : Report) : Prop :=
  ok_mirrors r ∧ in_int (Succeeded200 r) ∧
  ∀ code, in_int (at_code (StatusCounts r) code).

(** The runner call a phase makes. *)
Inductive PhaseCall :=
| CallWithOptions (total concurrency : Z)
| CallForDurationWithRate (d concurrency : Z) (rps : float)
| CallForDuration (d concurrency : Z).

(** [i*step] and [start + i*step] on Go's [int]. *)
Definition mul_int (a b : Z) : Z := wrap (a * b).

(** Phase [i] of the loop [for i := 0; i < steps; i++]:
    [concurrency := startConcurrency + i*stepConcurrency], then the runner
    is chosen by [requestsPerStep > 0] and
    [rpsPhase := rps + float64(i)*stepRps; rpsPhase > 0]. *)
Definition phase_call (startConcurrency stepConcurrency requestsPerStep
    perStepDuration : Z) (rps stepRps : float) (i : Z) : PhaseCall :=
  let concurrency := add_int startConcurrency (mul_int i stepConcurrency) in
  if 0 <? requestsPerStep then CallWithOptions requestsPerStep concurrency
  else
    let rpsPhase := (rps + float64 i * stepRps)%float in
    if (0 <? rpsPhase)%float
    then CallForDurationWithRate perStepDuration concurrency rpsPhase
    else CallForDuration perStepDuration concurrency.

(** Sum of a field over the phases. *)
Definition sum_with (f : Report → Z) (l : list Report) : Z :=
  foldr (λ r acc, f r + acc) 0 l.

(** ** JSON output: the keys of [status_counts] *)

(** [fmt.Sprintf("%d", k)]: decimal digits, with a leading [-] for a
    negative number. *)
Definition Sprintf_d (k : Z) : string := pretty k.

(** [sc := make(map[string]int, len(rep.StatusCounts));
     for k, v := range rep.StatusCounts { sc[fmt.Sprintf("%d", k)] = v }] *)
Definition status_counts_json (m : gmap Z Z) : gmap string Z :=
  map_fold (λ k v sc, <[Sprintf_d k := v]> sc) ∅ m.

(** ** Command-line handling shared by [run], [ramp] and [curl] *)

(** The outcome of a step that may fail with an error. *)
Inductive Result (E A : Type) :=
| Ok (a : A)
| Err (e : E).

Arguments Ok {E A} a.
Arguments Err {E A} e.

(** The byte [':']. *)
Definition colon : Ascii.ascii := Ascii.ascii_of_nat 58.

(** [strings.SplitN(h, ":", 2)]: [None] stands for the one-element result
    (no colon), [Some (k, v)] for the two parts around the first colon. *)
Fixpoint SplitN_colon (h : string) : option (string * string) :=
  match h with
  | EmptyString => None
  | String a rest =>
      if Ascii.eqb a colon then Some (EmptyString, rest)
      else match SplitN_colon rest with
           | Some (k, v) => Some (String a k, v)
           | None => None
           end
  end.

(** Whether a string has a colon. *)
Fixpoint has_colon (s : string) : bool :=
  match s with
  | EmptyString => false
  | String a rest => Ascii.eqb a colon || has_colon rest
  end.

(** The errors of the header loop:
    [invalid --header format (use 'Key: Value'): %q] and
    [invalid --header key in: %q]. *)
Inductive HeaderError :=
| InvalidHeaderFormat (h : string)
| InvalidHeaderKey (h : string).

(** [http.Header]: the values of each key, in the order they were added. *)
Abbreviation Header := (gmap string (list string)).

(** [http.MethodGet] and the other methods the commands accept. *)
Definition MethodGet : string := "GET".
Definition MethodPost : string := "POST".
Definition MethodHead : string := "HEAD".

Definition supported_methods : list string :=
  ["GET"; "POST"; "PUT"; "PATCH"; "DELETE"; "HEAD"; "OPTIONS"].

Section Library.

(** Functions of Go's standard library that the commands call:
    [strings.TrimSpace], [strings.ToUpper],
    [textproto.CanonicalMIMEHeaderKey] (applied by [Header.Add] and
    [Header.Set]) and whether [url.ParseRequestURI] accepts a string. *)
Variable TrimSpace : string → string.
Variable ToUpper : string → string.
Variable CanonicalMIMEHeaderKey : string → string.
Variable ParseRequestURI_ok : string → bool.

(** [parts := strings.SplitN(h, ":", 2); if len(parts) != 2 {error};
     key := strings.TrimSpace(parts[0]); val := strings.TrimSpace(parts[1]);
     if key == "" {error}] *)
Definition parse_header (h : string) : Result HeaderError (string * string) :=
  match SplitN_colon h with
  | None => Err (InvalidHeaderFormat h)
  | Some (k, v) =>
      let key := TrimSpace k in
      let val := TrimSpace v in
      if decide (key = "") then Err (InvalidHeaderKey h) else Ok (key, val)
  end.

(** [h.Add(key, value)]: append under the canonical key. *)
Definition Header_Add (key value : string) (h : Header) : Header :=
  <[CanonicalMIMEHeaderKey key :=
      default [] (h !! CanonicalMIMEHeaderKey key) ++ [value]]> h.

(** [h.Set(key, value)]: replace the values of the canonical key. *)
Definition Header_Set (key value : string) (h : Header) : Header :=
  <[CanonicalMIMEHeaderKey key := [value]]> h.

(** [hdr := make(http.Header); for _, h := range headers { ...;
     hdr.Add(key, val) }]: the first malformed header ends the command. *)
Fixpoint parse_headers_from (hdr : Header) (headers : list string)
  : Result HeaderError Header :=
  match headers with
  | [] => Ok hdr
  | h :: rest =>
      match parse_header h with
      | Ok (key, val) => parse_headers_from (Header_Add key val hdr) rest
      | Err e => Err e
      end
  end.

Definition parse_headers (headers : list string) : Result HeaderError Header :=
  parse_headers_from ∅ headers.

(** [method = strings.ToUpper(strings.TrimSpace(method));
     if method == "" { method = http.MethodGet };
     switch method { case GET, POST, PUT, PATCH, DELETE, HEAD, OPTIONS:
     default: error }]; [None] is the error [unsupported --method]. *)
Definition normalize_method (method : string) : option string :=
  let m := ToUpper (TrimSpace method) in
  let m := if decide (m = "") then MethodGet else m in
  if bool_decide (m ∈ supported_methods) then Some m else None.

(** *** [run] *)

Inductive RunError :=
| UrlRequired
| InvalidUrl
| RequestsNotPositive
| ConcurrencyNotPositive
| UnsupportedMethod
| BadHeader (e : HeaderError).

(** The call of [runner.RunWithOptions] that [run] makes. *)
Record RunCall := {
  rc_url : string;
  rc_total : Z;
  rc_concurrency : Z;
  rc_method : string;
  rc_headers : Header;
  rc_body : string
}.

(** The body of [run]'s [RunE] up to the call of the runner. *)
Definition run_plan (targetURL : string) (total concurrency : Z)
    (method : string) (headers : list string) (body : string)
  : Result RunError RunCall :=
  if decide (targetURL = "") then Err UrlRequired
  else if negb (ParseRequestURI_ok targetURL) then Err InvalidUrl
  else if total <=? 0 then Err RequestsNotPositive
  else if concurrency <=? 0 then Err ConcurrencyNotPositive
  else match normalize_method method with
       | None => Err UnsupportedMethod
       | Some m =>
           match parse_headers headers with
           | Err e => Err (BadHeader e)
           | Ok hdr => Ok (Build_RunCall targetURL total concurrency m hdr body)
           end
       end.

(** *** [ramp] *)

Inductive RampError :=
| RampUrlRequired
| RampInvalidUrl
| StepsNotPositive
| StartConcurrencyNotPositive
| RequestsModeConflict
| NoModeSet.

(** The validations at the head of [ramp]'s [RunE], before the method and
    the headers are read; [None] when all pass. *)
Definition ramp_validate (targetURL : string) (steps startConcurrency
    requestsPerStep perStepDuration : Z) (rps : float) : option RampError :=
  if decide (targetURL = "") then Some RampUrlRequired
  else if negb (ParseRequestURI_ok targetURL) then Some RampInvalidUrl
  else if steps <=? 0 then Some StepsNotPositive
  else if startConcurrency <=? 0 then Some StartConcurrencyNotPositive
  else if 0 <? requestsPerStep then
    if (0 <? perStepDuration) || (0 <? rps)%float
    then Some RequestsModeConflict else None
  else if 0 <? perStepDuration then None
  else Some NoModeSet.

End Library.

(** The default of [ramp]'s flag [--requests-per-step]. *)
Definition default_requestsPerStep : Z := 100.

(** The parts of a header line around its first colon, as a specification:
    the values recorded under a canonical key are those of the pairs with
    that key, in order. *)
Definition header_values (canonical : string → string) (ck : string)
    (pairs : list (string * string)) : list string :=
  (filter (λ p, canonical p.1 = ck) pairs).*2.

(** ASCII white space as [strings.TrimSpace] sees it: tab, line feed,
    vertical tab, form feed, carriage return and space. *)
Definition ascii_space (a : Ascii.ascii) : bool :=
  let n := Ascii.nat_of_ascii a in
  (Nat.leb 9 n && Nat.leb n 13) || Nat.eqb n 32.

Fixpoint trim_left (s : string) : string :=
  match s with
  | String a rest => if ascii_space a then trim_left rest else s
  | EmptyString => EmptyString
  end.

Fixpoint trim_right (s : string) : string :=
  match s with
  | String a rest =>
      match trim_right rest with
      | EmptyString => if ascii_space a then EmptyString else String a EmptyString
      | r => String a r
      end
  | EmptyString => EmptyString
  end.

(** What [strings.TrimSpace] gives on a string of ASCII bytes; used in the
    examples. *)
Definition trim_ascii (s : string) : string := trim_right (trim_left s).

(** ** The [curl] command: [parseCurlArgs] *)

Inductive CurlError :=
| RequestNeedsValue        (* [-X/--request requires a value] *)
| HeaderNeedsValue         (* [-H/--header requires a value] *)
| CurlHeaderFormat (kv : string)  (* [invalid header format: %q] *)
| CurlHeaderKey (kv : string)     (* [invalid header key in: %q] *)
| DataNeedsValue           (* [-d/--data* requires a value] *)
| UserAgentNeedsValue      (* [-A/--user-agent requires a value] *)
| UrlNeedsValue.           (* [--url requires a value] *)

(** The variables of [parseCurlArgs] while it walks its arguments. *)
Record CurlState := MkCurl {
  cs_method : string;
  cs_target : string;
  cs_headers : Header;
  cs_bodies : list string;
  cs_include : bool
}.

(** [headers = make(http.Header); method = http.MethodGet] *)
Definition curl_init : CurlState := MkCurl MethodGet "" ∅ [] false.

Definition request_flags : list string := ["-X"; "--request"].
Definition header_flags : list string := ["-H"; "--header"].
Definition data_flags : list string :=
  ["-d"; "--data"; "--data-raw"; "--data-binary"; "--data-ascii"].
Definition agent_flags : list string := ["-A"; "--user-agent"].
Definition head_flags : list string := ["-I"; "--head"].

(** The flags that take the next argument as their value. *)
Definition value_flags : list string :=
  request_flags ++ header_flags ++ data_flags ++ agent_flags ++ ["--url"].

Definition needs_value (a : string) : CurlError :=
  if bool_decide (a ∈ request_flags) then RequestNeedsValue
  else if bool_decide (a ∈ header_flags) then HeaderNeedsValue
  else if bool_decide (a ∈ data_flags) then DataNeedsValue
  else if bool_decide (a ∈ agent_flags) then UserAgentNeedsValue
  else UrlNeedsValue.

Section Curl.

Variable TrimSpace : string → string.
Variable ToUpper : string → string.
Variable CanonicalMIMEHeaderKey : string → string.

(** One flag with its value. *)
Definition curl_value (st : CurlState) (a v : string)
  : Result CurlError CurlState :=
  if bool_decide (a ∈ request_flags) then
    Ok (MkCurl (ToUpper v) (cs_target st) (cs_headers st) (cs_bodies st)
               (cs_include st))
  else if bool_decide (a ∈ header_flags) then
    match SplitN_colon v with
    | None => Err (CurlHeaderFormat v)
    | Some (k0, v0) =>
        if decide (TrimSpace k0 = "") then Err (CurlHeaderKey v)
        else Ok (MkCurl (cs_method st) (cs_target st)
                   (Header_Add CanonicalMIMEHeaderKey (TrimSpace k0)
                      (TrimSpace v0) (cs_headers st))
                   (cs_bodies st) (cs_include st))
    end
  else if bool_decide (a ∈ data_flags) then
    (* curl commonly defaults to POST when -d is used *)
    Ok (MkCurl (if decide (cs_method st = MethodGet) then MethodPost
                else cs_method st)
               (cs_target st) (cs_headers st) (cs_bodies st ++ [v])
               (cs_include st))
  else if bool_decide (a ∈ agent_flags) then
    Ok (MkCurl (cs_method st) (cs_target st)
               (Header_Set CanonicalMIMEHeaderKey "User-Agent" v (cs_headers st))
               (cs_bodies st) (cs_include st))
  else
    Ok (MkCurl (cs_method st) v (cs_headers st) (cs_bodies st) (cs_include st)).

(** One argument that stands alone. *)
Definition curl_single (st : CurlState) (a : string) : CurlState :=
  if bool_decide (a ∈ head_flags) then
    MkCurl MethodHead (cs_target st) (cs_headers st) (cs_bodies st)
           (cs_include st)
  else if decide (a = "-i") then
    MkCurl (cs_method st) (cs_target st) (cs_headers st) (cs_bodies st) true
  else if (String.prefix "http://" a || String.prefix "https://" a)
          && bool_decide (cs_target st = "") then
    MkCurl (cs_method st) a (cs_headers st) (cs_bodies st) (cs_include st)
  else st (* unrecognized flags are ignored *).

(** [for i := 0; i < len(args); i++ { a := args[i]; switch a { ... } }] *)
Fixpoint curl_loop (st : CurlState) (args : list string)
  : Result CurlError CurlState :=
  match args with
  | [] => Ok st
  | a :: rest =>
      if bool_decide (a ∈ value_flags) then
        match rest with
        | [] => Err (needs_value a)
        | v :: rest' =>
            match curl_value st a v with
            | Ok st' => curl_loop st' rest'
            | Err e => Err e
            end
        end
      else curl_loop (curl_single st a) rest
  end.

(** What [parseCurlArgs] returns when it succeeds. *)
Record CurlRequest := {
  cr_method : string;
  cr_target : string;
  cr_headers : Header;
  cr_body : string;
  cr_include : bool
}.

(** [if len(bodies) > 0 { body = strings.Join(bodies, "&") }; return] *)
Definition parseCurlArgs (args : list string) : Result CurlError CurlRequest :=
  match curl_loop curl_init args with
  | Ok st =>
      Ok (Build_CurlRequest (cs_method st) (cs_target st) (cs_headers st)
            (String.concat "&" (cs_bodies st)) (cs_include st))
  | Err e => Err e
  end.

End Curl.

(** [strings.ToUpper] on a string of ASCII bytes; used in the examples. *)
Definition upper_byte (a : Ascii.ascii) : Ascii.ascii :=
  let n := Ascii.nat_of_ascii a in
  if Nat.leb 97 n && Nat.leb n 122 then Ascii.ascii_of_nat (n - 32) else a.

Fixpoint upper_ascii (s : string) : string :=
  match s with
  | EmptyString => EmptyString
  | String a rest => String (upper_byte a) (upper_ascii rest)
  end.

(** ** Build metadata: package [version] *)

Module version.

(** The package's three variables. *)
Record Vars := MkVars {
  Version : string;
  Commit : string;
  Date : string
}.

(** [Version = "dev"; Commit = "none"; Date = "unknown"] unless set with
    [-ldflags]. *)
Definition defaults : Vars := MkVars "dev" "none" "unknown".

(** What [init] reads of [debug.BuildInfo]: [Main.Version] and the
    key/value [Settings]. *)
Record BuildInfo := MkInfo {
  Main_Version : string;
  Settings : list (string * string)
}.

(** [for _, s := range info.Settings { switch s.Key {
     case "vcs.revision": vcsRev = s.Value
     case "vcs.time": vcsTime = s.Value } }] *)
Definition scan (settings : list (string * string)) : string * string :=
  foldl (λ acc s,
           if decide (s.1 = "vcs.revision") then (s.2, acc.2)
           else if decide (s.1 = "vcs.time") then (acc.1, s.2)
           else acc)
        (EmptyString, EmptyString) settings.

(** [if len(vcsRev) > 12 { Commit = vcsRev[:12] } else { Commit = vcsRev }] *)
Definition short (vcsRev : string) : string :=
  if Nat.ltb 12 (String.length vcsRev) then String.substring 0 12 vcsRev
  else vcsRev.

(** [func init()], with the result of [debug.ReadBuildInfo()] ([None] when
    it reports no build information). *)
Definition init (info : option BuildInfo) (v : Vars) : Vars :=
  match info with
  | None => v
  | Some info =>
      let version :=
        if bool_decide (Version v = "dev") &&
           negb (bool_decide (Main_Version info = "")) &&
           negb (bool_decide (Main_Version info = "(devel)"))
        then Main_Version info else Version v in
      if bool_decide (Commit v = "none") || bool_decide (Date v = "unknown")
      then
        let (vcsRev, vcsTime) := scan (Settings info) in
        MkVars version
          (if bool_decide (Commit v = "none") && negb (bool_decide (vcsRev = ""))
           then short vcsRev else Commit v)
          (if bool_decide (Date v = "unknown") && negb (bool_decide (vcsTime = ""))
           then vcsTime else Date v)
      else MkVars version (Commit v) (Date v)
  end.

End version.

(** ** Vocabulary of returning after a cancellation *)

Definition is_issuing (x : Worker) : bool :=
  match x with Issuing => true | _ => false end.

(** How many steps a worker is at most away from returning once the
    context is cancelled. *)
Definition steps_to_return (x : Worker) : nat :=
  match x with
  | Done => 0
  | GotJob => 1
  | LoopHead => 2
  | Recording _ => 3
  | Issuing => 4
  end.

Fixpoint total_w (m : Worker → nat) (ws : list Worker) : nat :=
  match ws with
  | [] => 0
  | x :: ws' => m x + total_w m ws'
  end.

(** Events that hand out a new unit of work. *)
Definition is_grant (e : Event) : bool := is_feed e || is_pass e || is_permit e.

(** From [s] the call can return: some schedule makes every goroutine the
    call waits for return, handing out no new unit of work on the way and
    ending only the attempts that were in flight; [returned] tells that
    the call's waits are over. *)
Definition can_return {S : Type} (step : S → Event → option S)
    (pool : S → Pool) (returned : S → bool) (s : S) : Prop :=
  ∃ es s', exec step s es = Some s' ∧ returned s' = true ∧
           count_ev is_grant es = 0%nat ∧
           attempts es = count_w is_issuing (workers (pool s)).

(** No worker of [RunForDuration] ever holds a job: there is no [jobs]
    channel. *)
Definition jobless (x : Worker) : Prop := x ≠ GotJob.

(** ** Vocabulary of the outcome-by-outcome properties *)

(** The report of a finished run against the attempts made in it: the
    failed ones are in [Errors], the responses in the histogram under
    their status, and nowhere else. *)
Definition outcomes_counted (es : list Event) (r : Report) : Prop :=
  Errors r = wrap (Z.of_nat (count_ev is_failed_reply es)) ∧
  ∀ code, StatusCounts r !! code
          = entry (Z.of_nat (count_ev (is_response code) es)).

(** A count-bounded call in which every job the feeder hands out gets its
    attempt before the call returns. *)
Definition every_job_attempted (ctx_done : bool) (targetURL : string)
    (total concurrency : Z) (opts : Options) : Prop :=
  ∀ es elapsed r err,
    RunWithOptions.run ctx_done targetURL total concurrency opts es elapsed
      = Some (r, err) →
    attempts es = count_ev is_feed es.

(** [resp.StatusCode == http.StatusOK] for the outcome of an attempt. *)
Definition is_ok (o : Outcome) : bool :=
  match o with Response code => code =? StatusOK | _ => false end.

(** The step [e] is a worker recording a response with status 200. *)
Definition records_ok (p : Pool) (e : Event) : bool :=
  match e with
  | Commit w =>
      match workers p !! w with
      | Some (Recording o) => is_ok o
      | _ => false
      end
  | _ => false
  end.

(** [Succeeded200] and the histogram's entry for 200 move together: the
    step that records a 200 response increments both, and no other step
    changes either. *)
Definition ok_counted_together {S : Type} (step : S → Event → option S)
    (pool : S → Pool) : Prop :=
  ∀ s e s', step s e = Some s' →
    if records_ok (pool s) e
    then Succeeded200 (rep (pool s')) = incr (Succeeded200 (rep (pool s))) ∧
         at_code (StatusCounts (rep (pool s'))) StatusOK
         = incr (at_code (StatusCounts (rep (pool s))) StatusOK)
    else Succeeded200 (rep (pool s')) = Succeeded200 (rep (pool s)) ∧
         at_code (StatusCounts (rep (pool s'))) StatusOK
         = at_code (StatusCounts (rep (pool s))) StatusOK.

(** The 200s of a finished run: [Succeeded200] is the histogram's entry
    for 200, both count the 200 responses of the run, and both are 0, with
    no entry in the histogram, when there was none. *)
Definition ok_count_reported (es : list Event) (r : Report) : Prop :=
  Succeeded200 r = at_code (StatusCounts r) StatusOK ∧
  Succeeded200 r = wrap (Z.of_nat (count_ev (is_response StatusOK) es)) ∧
  (count_ev (is_response StatusOK) es = 0%nat →
   Succeeded200 r = 0 ∧ StatusCounts r !! StatusOK = None).

(** * Properties *)

(** ** Arithmetic of wrapped counters *)

Lemma wrap_in_int (z : Z) : in_int (wrap z).
Proof.
  unfold in_int, wrap.
  pose proof (Z.mod_pos_bound (z + 2 ^ 63) (2 ^ 64) ltac:(lia)). lia.
Qed.

Lemma wrap_small (z : Z) : in_int z → wrap z = z.
Proof.
  unfold in_int, wrap. intros H.
  rewrite Z.mod_small by lia. lia.
Qed.

Lemma wrap_congr (a b : Z) : (a - b) mod 2 ^ 64 = 0 → wrap a = wrap b.
Proof.
  unfold wrap. intros H. f_equal.
  apply Z.mod_divide in H; [|lia]. destruct H as [k Hk].
  replace (a + 2 ^ 63) with (b + 2 ^ 63 + k * 2 ^ 64) by lia.
  apply Z.mod_add. lia.
Qed.

Lemma wrap_diff (z : Z) : (wrap z - z) mod 2 ^ 64 = 0.
Proof.
  unfold wrap.
  rewrite (Z.mod_eq (z + 2 ^ 63) (2 ^ 64)) by lia.
  replace (z + 2 ^ 63 - 2 ^ 64 * ((z + 2 ^ 63) / 2 ^ 64) - 2 ^ 63 - z)
    with (- ((z + 2 ^ 63) / 2 ^ 64) * 2 ^ 64) by lia.
  apply Z.mod_mul. lia.
Qed.

Lemma wrap_succ_wrap (z : Z) : wrap (wrap z + 1) = wrap (z + 1).
Proof.
  apply wrap_congr. replace (wrap z + 1 - (z + 1)) with (wrap z - z) by lia.
  apply wrap_diff.
Qed.

(** ** The sum of a histogram *)

Lemma sum_counts_empty : sum_counts ∅ = 0.
Proof. unfold sum_counts. apply map_fold_empty. Qed.

Lemma sum_counts_fresh (m : gmap Z Z) (k v : Z) :
  m !! k = None → sum_counts (<[k := v]> m) = v + sum_counts m.
Proof.
  intros H. unfold sum_counts.
  rewrite map_fold_insert_L; [reflexivity | intros; lia | exact H].
Qed.

Lemma sum_counts_insert (m : gmap Z Z) (k v : Z) :
  sum_counts (<[k := v]> m) = sum_counts m - at_code m k + v.
Proof.
  unfold at_code. destruct (m !! k) as [x|] eqn:Hk; simpl.
  - rewrite <- (insert_delete_eq m k v).
    rewrite sum_counts_fresh by apply lookup_delete_eq.
    rewrite <- (insert_delete_id m k x Hk) at 2.
    rewrite sum_counts_fresh by apply lookup_delete_eq. lia.
  - rewrite sum_counts_fresh by exact Hk. lia.
Qed.

(** ** What the critical sections keep true of the report *)

Lemma at_code_insert (m : gmap Z Z) (k j v : Z) :
  at_code (<[k := v]> m) j = if decide (k = j) then v else at_code m j.
Proof.
  unfold at_code. rewrite lookup_insert. destruct (decide (k = j)); reflexivity.
Qed.

Lemma count_status_ok_mirrors (code : Z) (r : Report) :
  ok_mirrors r → ok_mirrors (count_status code r).
Proof.
  unfold ok_mirrors, count_status. simpl. intros H.
  rewrite at_code_insert.
  destruct (Z.eqb_spec code StatusOK) as [->|Hne].
  - rewrite decide_True by reflexivity. congruence.
  - rewrite decide_False by exact Hne. exact H.
Qed.

Lemma tally_counted_ok_mirrors (o : Outcome) (r : Report) :
  ok_mirrors r → ok_mirrors (tally_counted o r).
Proof. destruct o; simpl; auto using count_status_ok_mirrors. Qed.

Lemma tally_timed_ok_mirrors (o : Outcome) (r : Report) :
  ok_mirrors r → ok_mirrors (tally_timed o r).
Proof.
  destruct o; simpl; auto.
  intros H. apply count_status_ok_mirrors. exact H.
Qed.

Lemma tally_timed_total_is_sum (o : Outcome) (r : Report) :
  total_is_sum r → total_is_sum (tally_timed o r).
Proof.
  unfold total_is_sum. destruct o; simpl; auto.
  intros ->. rewrite sum_counts_insert. unfold incr.
  rewrite wrap_succ_wrap. apply wrap_congr.
  set (s := sum_counts (StatusCounts r)).
  set (a := at_code (StatusCounts r) code).
  replace (s + 1 - (s - a + wrap (a + 1))) with (- (wrap (a + 1) - (a + 1))) by lia.
  pose proof (wrap_diff (a + 1)) as H.
  apply Z.mod_divide in H; [|lia]. apply Z.mod_divide; [lia|].
  destruct H as [k Hk]. exists (- k). lia.
Qed.

Lemma set_Duration_ok_mirrors (d : Z) (r : Report) :
  ok_mirrors r → ok_mirrors (Report.set_Duration d r).
Proof. auto. Qed.

Lemma set_Duration_total_is_sum (d : Z) (r : Report) :
  total_is_sum r → total_is_sum (Report.set_Duration d r).
Proof. auto. Qed.

(** ** Runs *)

Section Exec.
Context {S : Type} (step : S → Event → option S).

Lemma exec_app (s : S) (es1 es2 : list Event) :
  exec step s (es1 ++ es2) =
  match exec step s es1 with
  | Some s' => exec step s' es2
  | None => None
  end.
Proof.
  revert s. induction es1 as [|e es1 IH]; intros s; simpl; [reflexivity|].
  destruct (step s e); [apply IH | reflexivity].
Qed.

(** A property kept by every step holds after every run. *)
Lemma exec_invariant (P : S → Prop) :
  (∀ s e s', P s → step s e = Some s' → P s') →
  ∀ es s s', P s → exec step s es = Some s' → P s'.
Proof.
  intros Hstep es. induction es as [|e es IH]; intros s s' HP Hrun; simpl in Hrun.
  - congruence.
  - destruct (step s e) as [s1|] eqn:He; [|discriminate]. eauto.
Qed.

(** The same for a property that also looks at the events so far. *)
Lemma exec_trace_invariant (P : list Event → S → Prop) (s0 : S) :
  P [] s0 →
  (∀ es s e s', P es s → step s e = Some s' → P (es ++ [e]) s') →
  ∀ es s', exec step s0 es = Some s' → P es s'.
Proof.
  intros H0 Hstep es. induction es as [|e es IH] using rev_ind; intros s' Hrun.
  - simpl in Hrun. congruence.
  - rewrite exec_app in Hrun.
    destruct (exec step s0 es) as [s1|] eqn:H1; [|discriminate].
    simpl in Hrun. destruct (step s1 e) as [s2|] eqn:H2; [|discriminate].
    injection Hrun as <-. eauto.
Qed.

End Exec.

(** ** Counting *)

Lemma count_ev_app (f : Event → bool) (es1 es2 : list Event) :
  count_ev f (es1 ++ es2) = (count_ev f es1 + count_ev f es2)%nat.
Proof. induction es1 as [|e es1 IH]; simpl; [reflexivity | rewrite IH; lia]. Qed.

Lemma count_ev_snoc (f : Event → bool) (es : list Event) (e : Event) :
  count_ev f (es ++ [e]) = (count_ev f es + if f e then 1 else 0)%nat.
Proof. rewrite count_ev_app. simpl. lia. Qed.

Lemma count_w_insert (f : Worker → bool) (ws : list Worker) (w : nat) (x y : Worker) :
  ws !! w = Some x →
  (count_w f (<[w := y]> ws) + weight f x = count_w f ws + weight f y)%nat.
Proof.
  revert w. induction ws as [|z ws IH]; intros [|w] H; simpl in *; try discriminate.
  - injection H as ->. lia.
  - specialize (IH w H). lia.
Qed.

Lemma count_w_replicate (f : Worker → bool) (n : nat) (x : Worker) :
  count_w f (replicate n x) = (n * weight f x)%nat.
Proof. induction n as [|n IH]; simpl; [reflexivity | rewrite IH; lia]. Qed.

Lemma count_head_zero (ws : list Worker) :
  Forall idle ws → count_w is_head ws = 0%nat →
  forallb (λ x, bool_decide (x = Done)) ws = true.
Proof.
  induction 1 as [|x ws Hx _ IH]; simpl; [reflexivity|].
  destruct Hx as [-> | ->]; simpl; [discriminate|]. exact IH.
Qed.

Lemma count_head_pos (ws : list Worker) :
  (0 < count_w is_head ws)%nat → ∃ w, ws !! w = Some LoopHead.
Proof.
  induction ws as [|x ws IH]; simpl; [lia|].
  destruct x; simpl; try (intros H; destruct (IH H) as [w Hw]; exists (S w); exact Hw).
  intros _. exists 0%nat. reflexivity.
Qed.

Lemma Forall_idle_insert (ws : list Worker) (w : nat) (x : Worker) :
  Forall idle ws → idle x → Forall idle (<[w := x]> ws).
Proof. intros. apply Forall_insert; assumption. Qed.

(** ** Steps of the pool *)

Lemma pool_move_inv (w : nat) (a b : Worker) (p p' : Pool) :
  pool_move w a b p = Some p' →
  workers p !! w = Some a ∧ p' = MkPool (rep p) (cancelled p) (<[w := b]> (workers p)).
Proof.
  unfold pool_move, set_worker. destruct (workers p !! w) as [x|]; [|discriminate].
  destruct (decide (x = a)) as [->|]; [|discriminate].
  intros [= <-]. auto.
Qed.

Lemma pool_commit_inv (tally : Outcome → Report → Report) (w : nat) (p p' : Pool) :
  pool_commit tally w p = Some p' →
  ∃ o, workers p !! w = Some (Recording o) ∧
       p' = MkPool (tally o (rep p)) (cancelled p) (<[w := LoopHead]> (workers p)).
Proof.
  unfold pool_commit. destruct (workers p !! w) as [[| | |o|]|]; try discriminate.
  intros [= <-]. eauto.
Qed.

Lemma lookup_insert_here (ws : list Worker) (w : nat) (x y : Worker) :
  ws !! w = Some x → <[w := y]> ws !! w = Some y.
Proof.
  intros H. apply list_lookup_insert_eq. eapply lookup_lt_Some. exact H.
Qed.

(** ** What the critical sections do to the report *)

Lemma count_error_recorded (r : Report) : only_error_counted r (count_error r).
Proof. unfold only_error_counted. simpl. auto. Qed.

Lemma tally_counted_recorded (o : Outcome) (r : Report) :
  recorded o r (tally_counted o r).
Proof.
  destruct o; simpl; try apply count_error_recorded.
  unfold status_counted. simpl. split; [reflexivity|]. split.
  - rewrite at_code_insert, decide_True; reflexivity.
  - intros c Hc. rewrite at_code_insert, decide_False; congruence.
Qed.

Lemma tally_timed_recorded (o : Outcome) (r : Report) :
  recorded o r (tally_timed o r).
Proof.
  destruct o; simpl; try apply count_error_recorded.
  unfold status_counted. simpl. split; [reflexivity|]. split.
  - rewrite at_code_insert, decide_True; reflexivity.
  - intros c Hc. rewrite at_code_insert, decide_False; congruence.
Qed.

Lemma tally_counted_total (o : Outcome) (r : Report) :
  TotalRequests (tally_counted o r) = TotalRequests r.
Proof. destruct o; reflexivity. Qed.

(** Taking a step function apart: every event that is enabled, with what
    the pool's steps say about it. *)
Ltac pool_inv :=
  repeat match goal with
  | H : pool_move _ _ _ _ = Some _ |- _ =>
      apply pool_move_inv in H; destruct H as [? ?]; subst
  | H : pool_commit _ _ _ = Some _ |- _ =>
      apply pool_commit_inv in H; destruct H as (? & ? & ?); subst
  | H : Some _ = Some _ |- _ => injection H as ?; subst
  | H : None = Some _ |- _ => discriminate H
  | H : context [match ?x with _ => _ end] |- _ =>
      let E := fresh "E" in destruct x eqn:E
  end.

(** ** [RunWithOptions] *)

Module CountedFacts.
Import RunWithOptions.

Ltac step_inv H :=
  unfold step, on_pool, pool_check, pool_reply, pool_cancel in H; simpl in H;
  pool_inv; simpl in *.

Lemma counted_step_recorded : attempt_recorded_once step pool.
Proof.
  intros s e s' H. destruct e; step_inv H; auto.
  - repeat split; [assumption | eapply lookup_insert_here; eassumption].
  - eexists. split; [eassumption|].
    split; [apply tally_counted_recorded | eapply lookup_insert_here; eassumption].
Qed.

Lemma counted_step_rep (s s' : State) (e : Event) :
  step s e = Some s' →
  rep (pool s') = rep (pool s) ∨ ∃ o, rep (pool s') = tally_counted o (rep (pool s)).
Proof. intros H. destruct e; step_inv H; eauto. Qed.

Lemma counted_step_total (s s' : State) (e : Event) :
  step s e = Some s' → total s' = total s.
Proof. intros H. destruct e; step_inv H; auto. Qed.

Lemma counted_total_fixed_inv (ctx_done : bool) (url : string) (n c : Z) (opts : Options)
    (es : list Event) (s : State) :
  exec step (start ctx_done url n c opts) es = Some s →
  total s = n ∧ total_fixed s ∧ ok_mirrors (rep (pool s)).
Proof.
  apply (exec_invariant step
           (λ s, total s = n ∧ total_fixed s ∧ ok_mirrors (rep (pool s)))).
  - intros s1 e s2 (Ht & Hf & Hm) Hstep. unfold total_fixed in *.
    rewrite (counted_step_total _ _ _ Hstep).
    destruct (counted_step_rep _ _ _ Hstep) as [-> | [o ->]]; [auto|].
    rewrite tally_counted_total. auto using tally_counted_ok_mirrors.
  - repeat split.
Qed.

Lemma counted_fed_bounds (ctx_done : bool) (url : string) (n c : Z) (opts : Options)
    (es : list Event) (s : State) :
  exec step (start ctx_done url n c opts) es = Some s → fed_bounds n es s.
Proof.
  apply (exec_trace_invariant step (fed_bounds n)).
  - unfold fed_bounds, start. cbn [pool workers total next]. unfold spawn.
    rewrite count_w_replicate. unfold weight. simpl. repeat split; lia.
  - clear es s. intros es s e s' (Ht & Hb & Hn & Hmax) Hstep.
    unfold fed_bounds, attempts in *. rewrite !count_ev_snoc.
    destruct e; step_inv Hstep;
      repeat match goal with
      | H : workers _ !! _ = Some ?x |- context [<[_ := ?y]> _] =>
          pose proof (count_w_insert is_busy _ _ x y H); clear H
      end; unfold weight in *; simpl in *;
      repeat match goal with
      | H : (_ <? _) = true |- _ => apply Z.ltb_lt in H
      | |- context [if cancelled ?p then _ else _] => destruct (cancelled p)
      | H : context [if cancelled ?p then _ else _] |- _ => destruct (cancelled p)
      end; simpl in *; repeat split; try lia.
Qed.

Lemma idle_lookup (ws : list Worker) (w : nat) (x : Worker) :
  Forall idle ws → ws !! w = Some x → idle x.
Proof. intros H Hw. eapply Forall_lookup_1; eassumption. Qed.

Lemma step_untouched (s : State) (e : Event) (s' : State) :
  untouched s → step s e = Some s' → untouched s'.
Proof.
  intros (Ht & Hn & Hi & Hr) Hstep. unfold untouched.
  destruct e; step_inv Hstep; try (repeat split; assumption);
    try match goal with
    | H : workers _ !! _ = Some _ |- _ =>
        pose proof (idle_lookup _ _ _ Hi H) as [?|?]; try discriminate
    end;
    try (repeat split; try assumption;
         apply Forall_idle_insert; [assumption | unfold idle; auto]).
  lia.
Qed.

Lemma spawn_idle (c : Z) : Forall idle (spawn c).
Proof. unfold spawn. apply Forall_replicate. left. reflexivity. Qed.

Lemma run_untouched (ctx_done : bool) (url : string) (c : Z) (opts : Options)
    (es : list Event) (s : State) :
  exec step (start ctx_done url 0 c opts) es = Some s → untouched s.
Proof.
  apply (exec_invariant step untouched); [exact step_untouched|].
  unfold untouched. simpl. auto using spawn_idle.
Qed.

(** Once [jobs] is closed, idle workers leave one after the other. *)
Lemma drain (n : nat) (s : State) :
  closed s = true → Forall idle (workers (pool s)) →
  count_w is_head (workers (pool s)) = n →
  ∃ es s', length es = n ∧ attempts es = 0%nat ∧ exec step s es = Some s' ∧
           all_done (pool s') = true ∧ rep (pool s') = rep (pool s).
Proof.
  revert s. induction n as [|n IH]; intros s Hc Hi Hn.
  - exists [], s. repeat split. unfold all_done. apply count_head_zero; assumption.
  - destruct (count_head_pos (workers (pool s))) as [w Hw]; [lia|].
    pose (s1 := Mk (set_worker w Done (pool s)) (total s) (next s) (closed s)).
    assert (Hstep : step s (Recv w) = Some s1).
    { unfold step. rewrite Hc. unfold on_pool, pool_move. rewrite Hw.
      rewrite decide_True by reflexivity. reflexivity. }
    destruct (IH s1) as (es & s' & Hlen & Hatt & Hrun & Hdone & Hrep).
    + exact Hc.
    + simpl. apply Forall_idle_insert; [exact Hi | right; reflexivity].
    + simpl. pose proof (count_w_insert is_head _ _ _ Done Hw) as H.
      unfold weight in H. simpl in H. lia.
    + exists (Recv w :: es), s'.
      split; [simpl; lia|]. split; [exact Hatt|].
      split; [cbn [exec]; rewrite Hstep; exact Hrun|].
      split; [exact Hdone | rewrite Hrep; reflexivity].
Qed.

End CountedFacts.

(** ** [RunForDuration] *)

Module TimedFacts.
Import RunForDuration.

Ltac step_inv H :=
  unfold step, on_pool, pool_check, pool_reply, pool_cancel in H; simpl in H;
  pool_inv; simpl in *.

Lemma timed_step_recorded : attempt_recorded_once step pool.
Proof.
  intros s e s' H. destruct e; step_inv H; auto.
  - repeat split; [assumption | eapply lookup_insert_here; eassumption].
  - eexists. split; [eassumption|].
    split; [apply tally_timed_recorded | eapply lookup_insert_here; eassumption].
Qed.

Lemma timed_step_rep (s s' : State) (e : Event) :
  step s e = Some s' →
  rep (pool s') = rep (pool s) ∨ ∃ o, rep (pool s') = tally_timed o (rep (pool s)).
Proof. intros H. destruct e; step_inv H; eauto. Qed.

Lemma timed_report_inv (ctx_done : bool) (url : string) (d c : Z) (opts : Options)
    (es : list Event) (s : State) :
  exec step (start ctx_done url d c opts) es = Some s →
  ok_mirrors (rep (pool s)) ∧ total_is_sum (rep (pool s)).
Proof.
  apply (exec_invariant step
           (λ s, ok_mirrors (rep (pool s)) ∧ total_is_sum (rep (pool s)))).
  - intros s1 e s2 (Hm & Hs) Hstep.
    destruct (timed_step_rep _ _ _ Hstep) as [-> | [o ->]]; [auto|].
    auto using tally_timed_ok_mirrors, tally_timed_total_is_sum.
  - split; [reflexivity|]. unfold total_is_sum. simpl.
    rewrite sum_counts_empty. reflexivity.
Qed.

Lemma run_pass_bounds (ctx_done : bool) (url : string) (d c : Z) (opts : Options)
    (es : list Event) (s : State) :
  exec step (start ctx_done url d c opts) es = Some s → passed_bounds es s.
Proof.
  apply (exec_trace_invariant step passed_bounds).
  - unfold passed_bounds, start. cbn [pool workers]. unfold spawn.
    rewrite count_w_replicate. unfold weight. simpl. lia.
  - clear es s. intros es s e s' Hb Hstep.
    unfold passed_bounds, attempts in *. rewrite !count_ev_snoc.
    destruct e; step_inv Hstep;
      repeat match goal with
      | H : workers _ !! _ = Some ?x |- context [<[_ := ?y]> _] =>
          pose proof (count_w_insert is_busy _ _ x y H); clear H
      end; unfold weight in *; simpl in *; lia.
Qed.

End TimedFacts.

(** ** [RunForDurationWithRate] *)

Module PacedFacts.
Import RunForDurationWithRate.

Ltac step_inv H :=
  unfold step, on_pool, pool_check, pool_reply, pool_cancel, stopped in H;
  simpl in H; pool_inv; simpl in *.

Lemma paced_step_recorded : attempt_recorded_once step pool.
Proof.
  intros s e s' H. destruct e; step_inv H; auto.
  - repeat split; [assumption | eapply lookup_insert_here; eassumption].
  - eexists. split; [eassumption|].
    split; [apply tally_timed_recorded | eapply lookup_insert_here; eassumption].
Qed.

Lemma paced_step_rep (s s' : State) (e : Event) :
  step s e = Some s' →
  rep (pool s') = rep (pool s) ∨ ∃ o, rep (pool s') = tally_timed o (rep (pool s)).
Proof. intros H. destruct e; step_inv H; eauto. Qed.

Lemma exec_report (s0 s : State) (es : list Event) :
  ok_mirrors (rep (pool s0)) ∧ total_is_sum (rep (pool s0)) →
  exec step s0 es = Some s →
  ok_mirrors (rep (pool s)) ∧ total_is_sum (rep (pool s)).
Proof.
  apply (exec_invariant step
           (λ s, ok_mirrors (rep (pool s)) ∧ total_is_sum (rep (pool s)))).
  intros s1 e s2 (Hm & Hs) Hstep.
  destruct (paced_step_rep _ _ _ Hstep) as [-> | [o ->]]; [auto|].
  auto using tally_timed_ok_mirrors, tally_timed_total_is_sum.
Qed.

Lemma empty_report_facts : ok_mirrors Report.empty ∧ total_is_sum Report.empty.
Proof.
  split; [reflexivity|]. unfold total_is_sum. simpl.
  rewrite sum_counts_empty. reflexivity.
Qed.

(** Every report the call returns. *)
Lemma paced_report_inv (ctx_done : bool) (url : string) (d c : Z) (opts : Options)
    (rps : float) (es : list Event) (elapsed : Z) (r : Report) (err : option error) :
  run (start ctx_done url d c opts rps) es elapsed = Some (r, err) →
  ok_mirrors r ∧ total_is_sum r ∧ err = None.
Proof.
  unfold start, run. destruct (rps <=? 0)%float.
  - destruct es; [|discriminate]. intros [= <- <-].
    pose proof empty_report_facts as [? ?]. auto.
  - destruct (exec step _ es) as [s|] eqn:Hrun; [|discriminate].
    apply exec_report in Hrun; [|exact empty_report_facts].
    unfold result. destruct (stopped s && all_done (pool s)); [|discriminate].
    intros [= <- <-]. destruct Hrun. auto.
Qed.

Lemma step_permit_bounds (es : list Event) (s : State) (e : Event) (s' : State) :
  permit_bounds es s → step s e = Some s' → permit_bounds (es ++ [e]) s'.
Proof.
  intros (Hq & Hb) Hstep.
  unfold permit_bounds, attempts, jobs_cap in *. rewrite !count_ev_snoc.
  destruct e; step_inv Hstep;
    repeat match goal with
    | H : workers _ !! _ = Some ?x |- context [<[_ := ?y]> _] =>
        pose proof (count_w_insert is_busy _ _ x y H); clear H
    end; unfold weight in *; simpl in *;
    repeat match goal with
    | |- context [if cancelled ?p then _ else _] => destruct (cancelled p)
    | H : context [if cancelled ?p then _ else _] |- _ => destruct (cancelled p)
    end; simpl in *; unfold jobs_cap in *; split; lia.
Qed.

Lemma exec_permit_bounds (s0 s : State) (es : list Event) :
  permit_bounds [] s0 → exec step s0 es = Some s → permit_bounds es s.
Proof.
  intros H0. apply (exec_trace_invariant step permit_bounds); [exact H0|].
  exact step_permit_bounds.
Qed.

Lemma start_permit_bounds (ctx_done : bool) (c : Z) :
  permit_bounds []
    (Mk (MkPool Report.empty ctx_done (spawn c)) false false false Outer 0).
Proof.
  unfold permit_bounds, jobs_cap. cbn [pool workers queued]. unfold spawn.
  rewrite count_w_replicate. unfold weight. simpl. lia.
Qed.

(** Once the generator has returned it stays so, and [jobs] only shrinks. *)
Lemma step_after_stop (s : State) (e : Event) (s' : State) :
  stopped s = true → step s e = Some s' →
  stopped s' = true ∧ (queued s' ≤ queued s)%nat ∧
  e ≠ GenSend ∧ e ≠ GenTick.
Proof.
  intros Hs Hstep. unfold stopped in Hs.
  destruct e; step_inv Hstep; try discriminate;
    repeat split; try assumption; try lia; try discriminate.
Qed.

(** The generator is never stuck behind a full buffer: with the context
    cancelled or the deadline's value in [end], its return is enabled. *)
Lemma generator_can_stop (s : State) :
  stopped s = false →
  (cancelled (pool s) = true →
   ∃ s', step s GenCtx = Some s' ∧ stopped s' = true ∧ queued s' = queued s) ∧
  (end_ready s = true →
   ∃ s', step s GenEnd = Some s' ∧ stopped s' = true ∧ queued s' = queued s).
Proof.
  intros Hs. split; intros H; unfold step; rewrite Hs, H; eexists;
    repeat split.
Qed.

End PacedFacts.

(** ** Requests per second *)

(** C3: [RPS] is 0 when [Duration] is zero or negative, and otherwise
    [TotalRequests] divided by the duration in seconds. *)
Theorem RPS_zero_or_quotient (r : Report) :
  (Duration r <= 0 → RPS r = 0%float) ∧
  (0 < Duration r →
   RPS r = (float64 (TotalRequests r) / Seconds (Duration r))%float).
Proof.
  unfold RPS. split; intros H.
  - destruct (Z.leb_spec (Duration r) 0) as [_|Hlt]; [reflexivity | lia].
  - destruct (Z.leb_spec (Duration r) 0) as [Hle|_]; [lia | reflexivity].
Qed.

(** Ten requests in two seconds are five per second; a report without a
    duration has rate zero. *)
Example RPS_ten_in_two_seconds :
  RPS (Report.Make (2 * Second) 10 10 {[200 := 10]} 0) = 5%float ∧
  RPS (Report.Make 0 10 10 {[200 := 10]} 0) = 0%float ∧
  RPS (Report.Make 1500000000 3 3 {[200 := 3]} 0) = 2%float.
Proof. repeat split; reflexivity. Qed.

(** ** The early return of the paced mode *)

(** C4: with [rps <= 0], [RunForDurationWithRate] returns at once the empty
    report and a nil error; no goroutine is started and no event can
    follow, so no request is attempted. *)
Theorem nonpositive_rate_returns_empty
    (ctx_done : bool) (targetURL : string) (d concurrency : Z) (opts : Options)
    (rps : float) :
  (rps <=? 0)%float = true →
  RunForDurationWithRate.start ctx_done targetURL d concurrency opts rps
    = RunForDurationWithRate.Immediately (Report.empty, None) ∧
  (∀ elapsed,
     RunForDurationWithRate.run
       (RunForDurationWithRate.start ctx_done targetURL d concurrency opts rps)
       [] elapsed = Some (Report.empty, None)) ∧
  (∀ es elapsed r,
     RunForDurationWithRate.run
       (RunForDurationWithRate.start ctx_done targetURL d concurrency opts rps)
       es elapsed = Some r →
     es = [] ∧ r = (Report.empty, None)) ∧
  TotalRequests Report.empty = 0 ∧ Succeeded200 Report.empty = 0 ∧
  Errors Report.empty = 0 ∧ StatusCounts Report.empty = ∅.
Proof.
  intros Hrps. unfold RunForDurationWithRate.start. rewrite Hrps.
  repeat split; intros; simpl in *; destruct es; congruence.
Qed.

Lemma nonpositive_rate_returns_empty_witness :
  RunForDurationWithRate.start false "http://localhost:8080" (5 * Second) 4
    (Build_Options "GET" [] []) (-2.5)%float
    = RunForDurationWithRate.Immediately (Report.empty, None).
Proof.
  apply (nonpositive_rate_returns_empty false "http://localhost:8080"
           (5 * Second) 4 (Build_Options "GET" [] []) (-2.5)%float).
  reflexivity.
Defined.

(** ** Returned pairs *)

Lemma counted_run_inv (ctx_done : bool) (url : string) (n c : Z) (opts : Options)
    (es : list Event) (elapsed : Z) (r : Report) (err : option error) :
  RunWithOptions.run ctx_done url n c opts es elapsed = Some (r, err) →
  ∃ s, exec RunWithOptions.step (RunWithOptions.start ctx_done url n c opts) es
         = Some s ∧
       r = Report.set_Duration elapsed (rep (RunWithOptions.pool s)) ∧ err = None.
Proof.
  unfold RunWithOptions.run, RunWithOptions.result.
  destruct (exec _ _ es) as [s|]; [|discriminate].
  destruct (all_done _); [|discriminate]. intros [= <- <-]. eauto.
Qed.

Lemma timed_run_inv (ctx_done : bool) (url : string) (d c : Z) (opts : Options)
    (es : list Event) (elapsed : Z) (r : Report) (err : option error) :
  RunForDuration.run ctx_done url d c opts es elapsed = Some (r, err) →
  ∃ s, exec RunForDuration.step (RunForDuration.start ctx_done url d c opts) es
         = Some s ∧
       r = Report.set_Duration elapsed (rep (RunForDuration.pool s)) ∧ err = None.
Proof.
  unfold RunForDuration.run, RunForDuration.result.
  destruct (exec _ _ es) as [s|]; [|discriminate].
  destruct (all_done _); [|discriminate]. intros [= <- <-]. eauto.
Qed.

(** Whatever happens, [RunWithOptions] reports the [total] it was given. *)
Lemma counted_reports_configured_total (ctx_done : bool) (url : string) (n c : Z)
    (opts : Options) (es : list Event) (elapsed : Z) (r : Report)
    (err : option error) :
  RunWithOptions.run ctx_done url n c opts es elapsed = Some (r, err) →
  TotalRequests r = n.
Proof.
  intros H. apply counted_run_inv in H as (s & Hrun & -> & _).
  apply CountedFacts.counted_total_fixed_inv in Hrun as (Ht & Hf & _).
  unfold total_fixed in Hf. simpl. congruence.
Qed.

(** ** The accounting identity *)

(** C1: the identity [TotalRequests == Σ(StatusCounts) + Errors] fails in the
    two duration modes as soon as one attempt fails: the failure is counted
    in [Errors] and not in [TotalRequests].  One worker, one failed
    [client.Do], then the deadline. *)
Theorem duration_modes_leave_errors_out_of_total :
  RunForDuration.run false sample_url (5 * Second) 1 sample_opts
    [PollDefault 0; Reply 0 DoFailed; Commit 0; Fire; PollEnd 0] (5 * Second)
    = Some (Report.Make (5 * Second) 0 0 ∅ 1, None) ∧
  RunForDurationWithRate.run
    (RunForDurationWithRate.start false sample_url (5 * Second) 1 sample_opts
       10%float)
    [Tick; GenTick; GenSend; Recv 0; CtxErr 0; Reply 0 DoFailed; Commit 0;
     Fire; GenEnd; Recv 0] (5 * Second)
    = Some (Report.Make (5 * Second) 0 0 ∅ 1, None) ∧
  sum_counts (StatusCounts (Report.Make (5 * Second) 0 0 ∅ 1)) = 0 ∧
  ¬ accounted (Report.Make (5 * Second) 0 0 ∅ 1).
Proof.
  repeat split; try (vm_compute; reflexivity). vm_compute. discriminate.
Qed.

(** C2: a count-bounded run of three requests whose context is cancelled
    after the first response still reports [TotalRequests = 3]: not less
    than the configured total, and not the sum of the one response and no
    error that were recorded. *)
Theorem cancelled_count_run_reports_configured_total :
  RunWithOptions.run false sample_url 3 1 sample_opts
    [Feed 0; CtxErr 0; Reply 0 (Response 200); Commit 0; Cancel; FeederStop;
     Recv 0] (2 * Second)
    = Some (Report.Make (2 * Second) 3 1 {[200 := 1]} 0, None) ∧
  ¬ TotalRequests (Report.Make (2 * Second) 3 1 {[200 := 1]} 0) < 3 ∧
  sum_counts (StatusCounts (Report.Make (2 * Second) 3 1 {[200 := 1]} 0)) = 1 ∧
  ¬ accounted (Report.Make (2 * Second) 3 1 {[200 := 1]} 0).
Proof.
  repeat split; try (vm_compute; reflexivity).
  - simpl. lia.
  - vm_compute. discriminate.
Qed.

(** ** Nothing to do *)

(** C6: [RunWithOptions] with [total = 0] attempts no request in any run,
    every report it returns has [TotalRequests = 0], an empty histogram and
    no error, and it does return: the feeder closes [jobs] and each worker
    leaves its loop, one step each. *)
Theorem zero_total_returns_empty_report
    (ctx_done : bool) (url : string) (c : Z) (opts : Options) :
  (∀ es s,
     exec RunWithOptions.step (RunWithOptions.start ctx_done url 0 c opts) es
       = Some s →
     attempts es = 0%nat ∧ rep (RunWithOptions.pool s) = Report.sized 0 ∧
     Forall idle (workers (RunWithOptions.pool s))) ∧
  (∀ es elapsed r err,
     RunWithOptions.run ctx_done url 0 c opts es elapsed = Some (r, err) →
     TotalRequests r = 0 ∧ StatusCounts r = ∅ ∧ Errors r = 0 ∧
     Succeeded200 r = 0 ∧ err = None) ∧
  (∃ es, length es = S (length (spawn c)) ∧ attempts es = 0%nat ∧
         ∀ elapsed,
           RunWithOptions.run ctx_done url 0 c opts es elapsed
           = Some (Report.set_Duration elapsed Report.empty, None)).
Proof.
  split; [|split].
  - intros es s Hrun.
    pose proof (CountedFacts.counted_fed_bounds _ _ _ _ _ _ _ Hrun) as (_ & Hb & Hn & Hmax).
    pose proof (CountedFacts.run_untouched _ _ _ _ _ _ Hrun) as (_ & _ & Hi & Hr).
    repeat split; try assumption. lia.
  - intros es elapsed r err H. apply counted_run_inv in H as (s & Hrun & -> & ->).
    apply CountedFacts.run_untouched in Hrun as (_ & _ & _ & Hr).
    rewrite Hr. repeat split.
  - set (s0 := RunWithOptions.start ctx_done url 0 c opts).
    pose (s1 := RunWithOptions.Mk (RunWithOptions.pool s0) 0 0 true).
    assert (Hstop : RunWithOptions.step s0 FeederStop = Some s1).
    { unfold RunWithOptions.step. simpl. rewrite orb_true_r. reflexivity. }
    destruct (CountedFacts.drain (length (spawn c)) s1)
      as (es & s' & Hlen & Hatt & Hrun & Hdone & Hrep).
    + reflexivity.
    + apply CountedFacts.spawn_idle.
    + simpl. unfold spawn. rewrite count_w_replicate, length_replicate.
      unfold weight. simpl. lia.
    + exists (FeederStop :: es). split; [simpl; lia|]. split; [exact Hatt|].
      intros elapsed. unfold RunWithOptions.run. fold s0. cbn [exec].
      rewrite Hstop, Hrun. unfold RunWithOptions.result. rewrite Hdone, Hrep.
      reflexivity.
Qed.

(** ** Concurrency below one *)

(** C7: with [concurrency < 1] each entry operation starts exactly as with
    [concurrency = 1], one worker, and so runs and returns as it does
    there, with a nil error. *)
Theorem low_concurrency_runs_one_worker
    (ctx_done : bool) (url : string) (n d c : Z) (opts : Options) (rps : float) :
  c < 1 →
  spawn c = [LoopHead] ∧
  RunWithOptions.start ctx_done url n c opts
    = RunWithOptions.start ctx_done url n 1 opts ∧
  RunForDuration.start ctx_done url d c opts
    = RunForDuration.start ctx_done url d 1 opts ∧
  RunForDurationWithRate.start ctx_done url d c opts rps
    = RunForDurationWithRate.start ctx_done url d 1 opts rps ∧
  (∀ es elapsed,
     RunWithOptions.run ctx_done url n c opts es elapsed
     = RunWithOptions.run ctx_done url n 1 opts es elapsed) ∧
  (∀ es elapsed,
     RunForDuration.run ctx_done url d c opts es elapsed
     = RunForDuration.run ctx_done url d 1 opts es elapsed) ∧
  (∀ es elapsed r err,
     RunWithOptions.run ctx_done url n c opts es elapsed = Some (r, err) ∨
     RunForDuration.run ctx_done url d c opts es elapsed = Some (r, err) ∨
     RunForDurationWithRate.run
       (RunForDurationWithRate.start ctx_done url d c opts rps) es elapsed
       = Some (r, err) →
     err = None).
Proof.
  intros Hc.
  assert (Hs : spawn c = [LoopHead]).
  { unfold spawn. destruct (Z.ltb_spec c 1); [reflexivity | lia]. }
  assert (H1 : spawn 1 = [LoopHead]) by reflexivity.
  split; [exact Hs|].
  assert (Hw : RunWithOptions.start ctx_done url n c opts
               = RunWithOptions.start ctx_done url n 1 opts).
  { unfold RunWithOptions.start. rewrite Hs, H1. reflexivity. }
  assert (Hd : RunForDuration.start ctx_done url d c opts
               = RunForDuration.start ctx_done url d 1 opts).
  { unfold RunForDuration.start. rewrite Hs, H1. reflexivity. }
  repeat split.
  - exact Hw.
  - exact Hd.
  - unfold RunForDurationWithRate.start. rewrite Hs, H1. reflexivity.
  - intros. unfold RunWithOptions.run. rewrite Hw. reflexivity.
  - intros. unfold RunForDuration.run. rewrite Hd. reflexivity.
  - intros es elapsed r err [H | [H | H]].
    + apply counted_run_inv in H as (_ & _ & _ & ->). reflexivity.
    + apply timed_run_inv in H as (_ & _ & _ & ->). reflexivity.
    + apply PacedFacts.paced_report_inv in H as (_ & _ & ->). reflexivity.
Qed.

(** With [concurrency = 0] and [concurrency = -3] there is one worker, and
    it serves both jobs of a count-bounded run. *)
Lemma low_concurrency_runs_one_worker_witness :
  spawn (-3) = [LoopHead] ∧
  RunWithOptions.run false sample_url 2 (-3) sample_opts
    [Feed 0; CtxErr 0; Reply 0 (Response 200); Commit 0;
     Feed 0; CtxErr 0; Reply 0 (Response 200); Commit 0; FeederStop; Recv 0]
    Second
  = Some (Report.Make Second 2 2 {[200 := 2]} 0, None).
Proof.
  destruct (low_concurrency_runs_one_worker false sample_url 2 Second (-3)
              sample_opts 10%float ltac:(lia)) as (Hs & _ & _ & _ & Hrun & _).
  split; [exact Hs|]. rewrite Hrun. vm_compute. reflexivity.
Defined.

(** Two workers and nothing to do: the feeder closes [jobs], both workers
    leave, and the report is empty. *)
Lemma zero_total_returns_empty_report_witness :
  RunWithOptions.run false sample_url 0 2 sample_opts
    [FeederStop; Recv 0; Recv 1] 1000
    = Some (Report.Make 1000 0 0 ∅ 0, None) ∧
  TotalRequests (Report.Make 1000 0 0 ∅ 0) = 0 ∧
  StatusCounts (Report.Make 1000 0 0 ∅ 0) = ∅ ∧
  Errors (Report.Make 1000 0 0 ∅ 0) = 0.
Proof.
  assert (Hrun : RunWithOptions.run false sample_url 0 2 sample_opts
                   [FeederStop; Recv 0; Recv 1] 1000
                 = Some (Report.Make 1000 0 0 ∅ 0, None))
    by (vm_compute; reflexivity).
  split; [exact Hrun|].
  destruct (zero_total_returns_empty_report false sample_url 2 sample_opts)
    as (_ & Hret & _).
  destruct (Hret _ _ _ _ Hrun) as (Ht & Hs & He & _). auto.
Defined.

(** ** The buffer of the paced mode *)

(** C8, as stated, fails: while the only worker is inside a slow request,
    two more ticks leave two jobs in [jobs], the second one sent after the
    deadline's timer fired. *)
Lemma jobs_buffer_holds_two_after_deadline :
  RunForDurationWithRate.start false sample_url (5 * Second) 1 sample_opts
    10%float
  = RunForDurationWithRate.Running
      (RunForDurationWithRate.Mk (MkPool Report.empty false [LoopHead])
         false false false RunForDurationWithRate.Outer 0) ∧
  ¬ at_most_one_buffered
      (RunForDurationWithRate.Mk (MkPool Report.empty false [LoopHead])
         false false false RunForDurationWithRate.Outer 0) ∧
  ¬ silent_after_deadline
      (RunForDurationWithRate.Mk (MkPool Report.empty false [LoopHead])
         false false false RunForDurationWithRate.Outer 0).
Proof.
  split; [vm_compute; reflexivity|]. split.
  - intros H.
    pose proof (H [Tick; GenTick; GenSend; Recv 0; CtxErr 0;
                   Tick; GenTick; GenSend; Tick; GenTick; Fire; GenSend]) as H2.
    remember (exec _ _ _) as o eqn:Ho in H2. vm_compute in Ho. subst o.
    specialize (H2 _ eq_refl). cbn [RunForDurationWithRate.queued] in H2. lia.
  - intros H.
    pose proof (H [Tick; GenTick; GenSend; Recv 0; CtxErr 0;
                   Tick; GenTick; GenSend; Tick; GenTick; Fire]) as H1.
    remember (exec _ _ _) as o eqn:Ho in H1. vm_compute in Ho. subst o.
    specialize (H1 _ eq_refl (or_introl eq_refl)).
    vm_compute in H1. discriminate.
Qed.

(** C8, amended: [jobs] never holds more than its capacity of 1024 jobs;
    once the generator has taken the deadline or the cancellation it has
    returned for good, no job is sent any more and the buffer only shrinks;
    and the generator can always take them, also while blocked on a full
    buffer. *)
Theorem jobs_buffer_bounded_by_capacity
    (ctx_done : bool) (url : string) (d c : Z) (opts : Options) (rps : float)
    (s0 : RunForDurationWithRate.State) :
  RunForDurationWithRate.start ctx_done url d c opts rps
    = RunForDurationWithRate.Running s0 →
  (∀ es s, exec RunForDurationWithRate.step s0 es = Some s →
           (RunForDurationWithRate.queued s ≤ 1024)%nat) ∧
  (∀ s e s',
     RunForDurationWithRate.stopped s = true →
     RunForDurationWithRate.step s e = Some s' →
     RunForDurationWithRate.stopped s' = true ∧
     (RunForDurationWithRate.queued s' ≤ RunForDurationWithRate.queued s)%nat ∧
     e ≠ GenSend ∧ e ≠ GenTick) ∧
  (∀ s,
     RunForDurationWithRate.stopped s = false →
     (cancelled (RunForDurationWithRate.pool s) = true →
      ∃ s', RunForDurationWithRate.step s GenCtx = Some s' ∧
            RunForDurationWithRate.stopped s' = true ∧
            RunForDurationWithRate.queued s' = RunForDurationWithRate.queued s) ∧
     (RunForDurationWithRate.end_ready s = true →
      ∃ s', RunForDurationWithRate.step s GenEnd = Some s' ∧
            RunForDurationWithRate.stopped s' = true ∧
            RunForDurationWithRate.queued s' = RunForDurationWithRate.queued s)).
Proof.
  intros Hstart. unfold RunForDurationWithRate.start in Hstart.
  destruct (rps <=? 0)%float; [discriminate|]. injection Hstart as <-.
  split; [|split].
  - intros es s Hrun.
    apply PacedFacts.exec_permit_bounds in Hrun;
      [|apply PacedFacts.start_permit_bounds].
    destruct Hrun as (Hq & _). exact Hq.
  - exact PacedFacts.step_after_stop.
  - exact PacedFacts.generator_can_stop.
Qed.

(** Two jobs are buffered, the deadline fires, the generator returns: the
    bound holds and no further job is accepted. *)
Lemma jobs_buffer_bounded_by_capacity_witness :
  ∃ s, exec RunForDurationWithRate.step
         (RunForDurationWithRate.Mk (MkPool Report.empty false [LoopHead])
            false false false RunForDurationWithRate.Outer 0)
         [Tick; GenTick; GenSend; Tick; GenTick; GenSend; Fire; GenEnd]
       = Some s ∧
       (RunForDurationWithRate.queued s ≤ 1024)%nat.
Proof.
  eexists. split; [vm_compute; reflexivity|].
  destruct (jobs_buffer_bounded_by_capacity false sample_url (5 * Second) 1
              sample_opts 10%float _ eq_refl) as (Hq & _).
  apply (Hq [Tick; GenTick; GenSend; Tick; GenTick; GenSend; Fire; GenEnd]).
  vm_compute. reflexivity.
Defined.

(** ** The counters of the duration modes *)




(** * Further properties of the runner *)

(** ** More arithmetic of wrapped counters *)

Lemma wrap_eq_inv (a b : Z) : wrap a = wrap b → (a - b) mod 2 ^ 64 = 0.
Proof.
  intros H. pose proof (wrap_diff a) as Ha. pose proof (wrap_diff b) as Hb.
  apply Z.mod_divide in Ha; [|lia]. apply Z.mod_divide in Hb; [|lia].
  apply Z.mod_divide; [lia|].
  destruct Ha as [ka Ha]. destruct Hb as [kb Hb]. exists (kb - ka). lia.
Qed.

Lemma wrap_add_congr (a a' b b' : Z) :
  wrap a = wrap a' → wrap b = wrap b' → wrap (a + b) = wrap (a' + b').
Proof.
  intros Ha Hb. apply wrap_eq_inv in Ha. apply wrap_eq_inv in Hb.
  apply wrap_congr.
  apply Z.mod_divide in Ha; [|lia]. apply Z.mod_divide in Hb; [|lia].
  apply Z.mod_divide; [lia|].
  destruct Ha as [ka Ha]. destruct Hb as [kb Hb]. exists (ka + kb). lia.
Qed.

Lemma wrap_wrap (a : Z) : wrap (wrap a) = wrap a.
Proof. apply wrap_small, wrap_in_int. Qed.

Lemma wrap_add_l (a b : Z) : wrap (wrap a + b) = wrap (a + b).
Proof. apply wrap_add_congr; [apply wrap_wrap | reflexivity]. Qed.

Lemma wrap_add_r (a b : Z) : wrap (a + wrap b) = wrap (a + b).
Proof. apply wrap_add_congr; [reflexivity | apply wrap_wrap]. Qed.

Lemma at_code_entry (m : gmap Z Z) (c n : Z) :
  m !! c = entry n → at_code m c = wrap n.
Proof.
  unfold at_code, entry. intros ->.
  destruct (Z.eqb_spec n 0) as [->|]; reflexivity.
Qed.

(** ** Counting workers *)

Lemma count_w_all_done (f : Worker → bool) (ws : list Worker) :
  f Done = false → forallb (λ x, bool_decide (x = Done)) ws = true →
  count_w f ws = 0%nat.
Proof.
  intros Hf. induction ws as [|x ws IH]; simpl; [reflexivity|].
  intros H. apply andb_true_iff in H as [Hx Hws].
  apply bool_decide_eq_true in Hx. subst x.
  unfold weight. rewrite Hf. simpl. auto.
Qed.

Lemma count_done_all (ws : list Worker) :
  forallb (λ x, bool_decide (x = Done)) ws = true →
  count_w is_done ws = length ws.
Proof.
  induction ws as [|x ws IH]; simpl; [reflexivity|].
  intros H. apply andb_true_iff in H as [Hx Hws].
  apply bool_decide_eq_true in Hx. subst x. simpl. rewrite IH by exact Hws.
  reflexivity.
Qed.

Lemma spawn_length (c : Z) : length (spawn c) = Z.to_nat (Z.max 1 c).
Proof.
  unfold spawn. rewrite length_replicate.
  destruct (Z.ltb_spec c 1); f_equal; lia.
Qed.

Lemma count_replies_split (es : list Event) :
  attempts es = (count_ev is_failed_reply es + count_ev is_any_response es)%nat.
Proof.
  unfold attempts. induction es as [|e es IH]; simpl; [reflexivity|].
  rewrite IH. destruct e as [| | | | | | | | | | | | | | w [| |c] |]; simpl; lia.
Qed.

(** ** Every step of a pool keeps the report in line with the outcomes *)

Lemma settled_snoc (f : Event → bool) (g : Worker → bool) (es : list Event)
    (e : Event) (ws : list Worker) :
  settled f g (es ++ [e]) ws = settled f g es ws + (if f e then 1 else 0).
Proof. unfold settled. rewrite count_ev_snoc. destruct (f e); lia. Qed.

Lemma settled_insert (f : Event → bool) (g : Worker → bool) (es : list Event)
    (ws : list Worker) (w : nat) (x y : Worker) :
  ws !! w = Some x →
  settled f g es (<[w := y]> ws)
  = settled f g es ws + (if g x then 1 else 0) - (if g y then 1 else 0).
Proof.
  intros Hw. unfold settled.
  pose proof (count_w_insert g _ _ _ y Hw) as H. unfold weight in H.
  destruct (g x), (g y); lia.
Qed.

Lemma entry_succ (m : gmap Z Z) (c n : Z) :
  0 <= n → m !! c = entry n →
  <[c := incr (at_code m c)]> m !! c = entry (n + 1).
Proof.
  intros Hn Hm. rewrite lookup_insert_eq, (at_code_entry _ _ _ Hm).
  unfold entry, incr. destruct (Z.eqb_spec (n + 1) 0); [lia|].
  rewrite wrap_add_l. reflexivity.
Qed.

Lemma sum_counts_bump (m : gmap Z Z) (c n : Z) :
  wrap (sum_counts m) = wrap n →
  wrap (sum_counts (<[c := incr (at_code m c)]> m)) = wrap (n + 1).
Proof.
  intros H. rewrite sum_counts_insert. unfold incr.
  replace (sum_counts m - at_code m c + wrap (at_code m c + 1))
    with (sum_counts m + (- at_code m c + wrap (at_code m c + 1))) by lia.
  apply wrap_add_congr; [exact H|].
  rewrite wrap_add_r. f_equal. lia.
Qed.

Ltac settle_arith :=
  repeat match goal with
  | |- context [settled ?f ?g ?es ?ws + ?a - ?b + ?d] =>
      let v := eval compute in (a - b + d) in
      replace (settled f g es ws + a - b + d) with (settled f g es ws + v)
        by lia
  end;
  rewrite ?Z.add_0_r.

Lemma tallied_step (timed : bool) (c : Z) (es : list Event) (e : Event)
    (p p' : Pool) :
  pool_step (tally_of timed) e p p' →
  tallied timed c es p → tallied timed c (es ++ [e]) p'.
Proof.
  intros Hstep (Hf & Hr & Ha & He & Hc & Hs & Ht). unfold tallied.
  rewrite !settled_snoc.
  destruct e; simpl in Hstep;
    try (destruct Hstep as [Hrep [Hws | (w0 & a & b & Hw & Hpa & Hpb & Hws)]];
         rewrite Hrep, Hws; [| rewrite !(settled_insert _ _ _ _ _ _ _ Hw) ];
         try (destruct a; try discriminate; destruct b; try discriminate);
         simpl; settle_arith; rewrite ?Z.sub_0_r; repeat split; assumption).
  - (* the attempt ends: it is counted in [es] and held by the worker *)
    destruct Hstep as [Hw ->]. cbn [rep workers].
    rewrite !(settled_insert _ _ _ _ _ _ _ Hw). simpl.
    destruct o as [| |c']; simpl; try destruct (c' =? c);
      settle_arith; repeat split; assumption.
  - (* the outcome is recorded: the worker no longer holds it *)
    destruct Hstep as (o & Hw & ->). cbn [rep workers].
    rewrite !(settled_insert _ _ _ _ _ _ _ Hw). simpl.
    destruct o as [| |c']; simpl.
    1, 2: destruct timed; simpl; settle_arith;
      (repeat split; try assumption; try lia;
       rewrite He; unfold incr; apply wrap_add_l).
    destruct (Z.eqb_spec c' c) as [->|Hne];
      settle_arith; destruct timed; simpl;
      repeat split; try assumption; try lia;
      try (apply entry_succ; assumption);
      try (apply sum_counts_bump; assumption);
      try (rewrite lookup_insert_ne by exact Hne; assumption);
      try (intros _; rewrite Ht by reflexivity; unfold incr; apply wrap_add_l);
      try (intros; discriminate).
Qed.

(** ** The three operations step their pool as [pool_step] says *)

Ltac pool_step_cases :=
  simpl;
  repeat match goal with
  | |- context [if cancelled ?p then _ else _] => destruct (cancelled p)
  end;
  repeat split;
  try (left; reflexivity);
  try (right; eexists _, _, _; repeat split; [eassumption | reflexivity..]);
  try (eexists; split; [eassumption | reflexivity]);
  try assumption; try reflexivity.

Lemma counted_pool_step (s : RunWithOptions.State) (e : Event)
    (s' : RunWithOptions.State) :
  RunWithOptions.step s e = Some s' →
  pool_step tally_counted e (RunWithOptions.pool s) (RunWithOptions.pool s').
Proof.
  intros H. destruct e; CountedFacts.step_inv H; pool_step_cases.
Qed.

Lemma timed_pool_step (s : RunForDuration.State) (e : Event)
    (s' : RunForDuration.State) :
  RunForDuration.step s e = Some s' →
  pool_step tally_timed e (RunForDuration.pool s) (RunForDuration.pool s').
Proof.
  intros H. destruct e; TimedFacts.step_inv H; pool_step_cases.
Qed.

Lemma paced_pool_step (s : RunForDurationWithRate.State) (e : Event)
    (s' : RunForDurationWithRate.State) :
  RunForDurationWithRate.step s e = Some s' →
  pool_step tally_timed e (RunForDurationWithRate.pool s)
    (RunForDurationWithRate.pool s').
Proof.
  intros H. destruct e; PacedFacts.step_inv H; pool_step_cases.
Qed.

Lemma tallied_start (timed : bool) (c : Z) (r : Report) (ctx_done : bool)
    (conc : Z) :
  Errors r = 0 → StatusCounts r = ∅ → (timed = true → TotalRequests r = 0) →
  tallied timed c [] (MkPool r ctx_done (spawn conc)).
Proof.
  intros He Hs Ht. unfold tallied, settled. cbn [rep workers count_ev].
  unfold spawn. rewrite !count_w_replicate. unfold weight. simpl.
  rewrite !Nat.mul_0_r. simpl. rewrite He, Hs, sum_counts_empty.
  repeat split; try lia; try reflexivity. exact Ht.
Qed.

(** What [tallied] says once every worker has returned. *)
Lemma tallied_all_done (timed : bool) (c : Z) (es : list Event) (p : Pool) :
  all_done p = true → tallied timed c es p →
  Errors (rep p) = wrap (Z.of_nat (count_ev is_failed_reply es)) ∧
  StatusCounts (rep p) !! c = entry (Z.of_nat (count_ev (is_response c) es)) ∧
  wrap (sum_counts (StatusCounts (rep p)))
    = wrap (Z.of_nat (count_ev is_any_response es)) ∧
  (timed = true →
   TotalRequests (rep p) = wrap (Z.of_nat (count_ev is_any_response es))).
Proof.
  unfold all_done. intros Hd (_ & _ & _ & He & Hc & Hs & Ht).
  unfold settled in *.
  rewrite !(count_w_all_done _ _ eq_refl Hd) in *.
  rewrite !Z.sub_0_r in *. auto.
Qed.

(** ** Returned reports tell how the attempts ended *)

Lemma counted_run_done (ctx_done : bool) (url : string) (n c : Z) (opts : Options)
    (es : list Event) (elapsed : Z) (r : Report) (err : option error) :
  RunWithOptions.run ctx_done url n c opts es elapsed = Some (r, err) →
  ∃ s, exec RunWithOptions.step (RunWithOptions.start ctx_done url n c opts) es
         = Some s ∧
       all_done (RunWithOptions.pool s) = true ∧
       r = Report.set_Duration elapsed (rep (RunWithOptions.pool s)).
Proof.
  unfold RunWithOptions.run, RunWithOptions.result.
  destruct (exec _ _ es) as [s|]; [|discriminate].
  destruct (all_done _) eqn:Hd; [|discriminate]. intros [= <- <-]. eauto.
Qed.

Lemma timed_run_done (ctx_done : bool) (url : string) (d c : Z) (opts : Options)
    (es : list Event) (elapsed : Z) (r : Report) (err : option error) :
  RunForDuration.run ctx_done url d c opts es elapsed = Some (r, err) →
  ∃ s, exec RunForDuration.step (RunForDuration.start ctx_done url d c opts) es
         = Some s ∧
       all_done (RunForDuration.pool s) = true ∧
       r = Report.set_Duration elapsed (rep (RunForDuration.pool s)).
Proof.
  unfold RunForDuration.run, RunForDuration.result.
  destruct (exec _ _ es) as [s|]; [|discriminate].
  destruct (all_done _) eqn:Hd; [|discriminate]. intros [= <- <-]. eauto.
Qed.

(** A paced call returns at once, with no event, or after its generator
    and all its workers have returned. *)
Lemma paced_run_done (ctx_done : bool) (url : string) (d c : Z) (opts : Options)
    (rps : float) (es : list Event) (elapsed : Z) (r : Report)
    (err : option error) :
  RunForDurationWithRate.run
    (RunForDurationWithRate.start ctx_done url d c opts rps) es elapsed
    = Some (r, err) →
  (es = [] ∧ r = Report.empty) ∨
  ∃ s, exec RunForDurationWithRate.step
         (RunForDurationWithRate.Mk
            (MkPool Report.empty ctx_done (spawn c)) false false false
            RunForDurationWithRate.Outer 0) es = Some s ∧
       RunForDurationWithRate.stopped s = true ∧
       all_done (RunForDurationWithRate.pool s) = true ∧
       r = Report.set_Duration elapsed (rep (RunForDurationWithRate.pool s)).
Proof.
  unfold RunForDurationWithRate.start, RunForDurationWithRate.run.
  destruct (rps <=? 0)%float.
  - destruct es; [|discriminate]. intros [= <- <-]. left. auto.
  - destruct (exec _ _ es) as [s|]; [|discriminate].
    unfold RunForDurationWithRate.result.
    destruct (RunForDurationWithRate.stopped s) eqn:Hs; [|discriminate].
    destruct (all_done _) eqn:Hd; [|discriminate].
    intros [= <- <-]. right. eauto 6.
Qed.

Lemma reports_outcomes_of_tallied (timed : bool) (es : list Event) (p : Pool)
    (elapsed : Z) :
  all_done p = true → ok_mirrors (rep p) →
  (∀ c, tallied timed c es p) →
  reports_outcomes timed es (Report.set_Duration elapsed (rep p)).
Proof.
  intros Hd Hm Ht. unfold reports_outcomes. cbn.
  pose proof (tallied_all_done _ _ _ _ Hd (Ht StatusOK)) as (He & H200 & Hs & Htot).
  split; [exact He|]. split.
  { intros code. apply (tallied_all_done _ _ _ _ Hd (Ht code)). }
  split; [|split; assumption].
  rewrite Hm. apply at_code_entry. exact H200.
Qed.

Lemma counted_tallied (ctx_done : bool) (url : string) (n c : Z) (opts : Options)
    (code : Z) (es : list Event) (s : RunWithOptions.State) :
  exec RunWithOptions.step (RunWithOptions.start ctx_done url n c opts) es
    = Some s →
  tallied false code es (RunWithOptions.pool s).
Proof.
  apply (exec_trace_invariant RunWithOptions.step
           (λ es s, tallied false code es (RunWithOptions.pool s))).
  - apply tallied_start; [reflexivity | reflexivity | discriminate].
  - intros es1 s1 e s2 Ht Hstep. eapply tallied_step; [|exact Ht].
    apply counted_pool_step. exact Hstep.
Qed.

Lemma timed_tallied (ctx_done : bool) (url : string) (d c : Z) (opts : Options)
    (code : Z) (es : list Event) (s : RunForDuration.State) :
  exec RunForDuration.step (RunForDuration.start ctx_done url d c opts) es
    = Some s →
  tallied true code es (RunForDuration.pool s).
Proof.
  apply (exec_trace_invariant RunForDuration.step
           (λ es s, tallied true code es (RunForDuration.pool s))).
  - apply tallied_start; reflexivity.
  - intros es1 s1 e s2 Ht Hstep. eapply tallied_step; [|exact Ht].
    apply timed_pool_step. exact Hstep.
Qed.

Lemma paced_tallied (ctx_done : bool) (c : Z) (code : Z) (es : list Event)
    (s : RunForDurationWithRate.State) :
  exec RunForDurationWithRate.step
    (RunForDurationWithRate.Mk (MkPool Report.empty ctx_done (spawn c))
       false false false RunForDurationWithRate.Outer 0) es = Some s →
  tallied true code es (RunForDurationWithRate.pool s).
Proof.
  apply (exec_trace_invariant RunForDurationWithRate.step
           (λ es s, tallied true code es (RunForDurationWithRate.pool s))).
  - apply tallied_start; reflexivity.
  - intros es1 s1 e s2 Ht Hstep.
    eapply tallied_step; [|exact Ht].
    apply paced_pool_step. exact Hstep.
Qed.

Lemma reports_outcomes_empty (timed : bool) : reports_outcomes timed [] Report.empty.
Proof.
  unfold reports_outcomes. simpl. rewrite sum_counts_empty.
  repeat split; reflexivity.
Qed.

Lemma counted_done_outcomes (ctx_done : bool) (url : string) (n c : Z)
    (opts : Options) (es : list Event) (s : RunWithOptions.State) (elapsed : Z) :
  exec RunWithOptions.step (RunWithOptions.start ctx_done url n c opts) es
    = Some s →
  all_done (RunWithOptions.pool s) = true →
  reports_outcomes false es
    (Report.set_Duration elapsed (rep (RunWithOptions.pool s))).
Proof.
  intros Hrun Hd. apply reports_outcomes_of_tallied; [exact Hd | |].
  - apply CountedFacts.counted_total_fixed_inv in Hrun as (_ & _ & Hm). exact Hm.
  - intros code. eapply counted_tallied. exact Hrun.
Qed.

Lemma paced_done_outcomes (ctx_done : bool) (c : Z) (es : list Event)
    (s : RunForDurationWithRate.State) (elapsed : Z) :
  exec RunForDurationWithRate.step
    (RunForDurationWithRate.Mk (MkPool Report.empty ctx_done (spawn c))
       false false false RunForDurationWithRate.Outer 0) es = Some s →
  all_done (RunForDurationWithRate.pool s) = true →
  reports_outcomes true es
    (Report.set_Duration elapsed (rep (RunForDurationWithRate.pool s))).
Proof.
  intros Hrun Hd. apply reports_outcomes_of_tallied; [exact Hd | |].
  - apply PacedFacts.exec_report in Hrun as (Hm & _);
      [exact Hm | exact PacedFacts.empty_report_facts].
  - intros code. eapply paced_tallied. exact Hrun.
Qed.

(** X1: the report [RunWithOptions] returns counts the failed attempts of
    the run in [Errors] and its responses by status in the histogram (no
    entry for a status never seen), with the 200s also in [Succeeded200]:
    no outcome is lost or counted twice, whatever the interleaving. *)
Theorem counted_report_tells_outcomes
    (ctx_done : bool) (url : string) (n c : Z) (opts : Options)
    (es : list Event) (elapsed : Z) (r : Report) (err : option error) :
  RunWithOptions.run ctx_done url n c opts es elapsed = Some (r, err) →
  reports_outcomes false es r.
Proof.
  intros H. apply counted_run_done in H as (s & Hrun & Hd & ->).
  eapply counted_done_outcomes; [exact Hrun | exact Hd].
Qed.

(** Two workers, a 200 and a 404 recorded in the other order than they
    arrived, and a refused connection. *)
Lemma counted_report_tells_outcomes_witness :
  reports_outcomes false
    [Feed 0; Feed 1; CtxErr 1; CtxErr 0; Reply 0 (Response 200);
     Reply 1 (Response 404); Commit 1; Commit 0; Feed 1; CtxErr 1;
     Reply 1 DoFailed; Commit 1; FeederStop; Recv 0; Recv 1]
    (Report.Make Second 3 1 {[200 := 1; 404 := 1]} 1).
Proof.
  apply (counted_report_tells_outcomes false sample_url 3 2 sample_opts _
           Second _ None).
  vm_compute. reflexivity.
Defined.

(** X2: the report [RunForDuration] returns counts the failed attempts in
    [Errors], the responses by status in the histogram, the 200s in
    [Succeeded200] and all responses in [TotalRequests]. *)
Theorem timed_report_tells_outcomes
    (ctx_done : bool) (url : string) (d c : Z) (opts : Options)
    (es : list Event) (elapsed : Z) (r : Report) (err : option error) :
  RunForDuration.run ctx_done url d c opts es elapsed = Some (r, err) →
  reports_outcomes true es r.
Proof.
  intros H. apply timed_run_done in H as (s & Hrun & Hd & ->).
  apply reports_outcomes_of_tallied; [exact Hd | |].
  - apply TimedFacts.timed_report_inv in Hrun as (Hm & _). exact Hm.
  - intros code. eapply timed_tallied. exact Hrun.
Qed.

Lemma timed_report_tells_outcomes_witness :
  reports_outcomes true
    [PollDefault 0; Reply 0 (Response 200); Commit 0;
     PollDefault 0; Reply 0 BuildFailed; Commit 0;
     PollDefault 0; Reply 0 (Response 200); Commit 0; Cancel; PollCtx 0]
    (Report.Make Second 2 2 {[200 := 2]} 1).
Proof.
  apply (timed_report_tells_outcomes false sample_url Second 1 sample_opts _
           Second _ None).
  vm_compute. reflexivity.
Defined.

(** X3: the report [RunForDurationWithRate] returns counts the failed
    attempts in [Errors], the responses by status in the histogram, the
    200s in [Succeeded200] and all responses in [TotalRequests]. *)
Theorem paced_report_tells_outcomes
    (ctx_done : bool) (url : string) (d c : Z) (opts : Options) (rps : float)
    (es : list Event) (elapsed : Z) (r : Report) (err : option error) :
  RunForDurationWithRate.run
    (RunForDurationWithRate.start ctx_done url d c opts rps) es elapsed
    = Some (r, err) →
  reports_outcomes true es r.
Proof.
  intros H. apply paced_run_done in H as [[-> ->] | (s & Hrun & _ & Hd & ->)].
  - apply reports_outcomes_empty.
  - eapply paced_done_outcomes; [exact Hrun | exact Hd].
Qed.

Lemma paced_report_tells_outcomes_witness :
  reports_outcomes true
    [Tick; GenTick; GenSend; Recv 0; CtxErr 0; Reply 0 (Response 503);
     Tick; GenTick; GenSend; Commit 0; Recv 0; CtxErr 0; Reply 0 DoFailed;
     Commit 0; Fire; GenEnd; Recv 0]
    (Report.Make Second 1 0 {[503 := 1]} 1).
Proof.
  apply (paced_report_tells_outcomes false sample_url Second 1 sample_opts
           10%float _ Second _ None).
  vm_compute. reflexivity.
Defined.

(** ** Runs whose context stays live *)

Ltac count_moves :=
  repeat match goal with
  | H : workers _ !! _ = Some ?x |- context [<[_ := ?y]> _] =>
      pose proof (count_w_insert is_busy _ _ x y H);
      pose proof (count_w_insert is_done _ _ x y H); clear H
  end; unfold weight in *; simpl in *.

Lemma counted_live (ctx_done : bool) (url : string) (n c : Z) (opts : Options)
    (es : list Event) (s : RunWithOptions.State) :
  exec RunWithOptions.step (RunWithOptions.start ctx_done url n c opts) es
    = Some s →
  live_count_run ctx_done es s.
Proof.
  apply (exec_trace_invariant RunWithOptions.step (live_count_run ctx_done)).
  - unfold live_count_run, RunWithOptions.start.
    cbn [RunWithOptions.pool RunWithOptions.closed cancelled workers]. unfold spawn.
    rewrite !count_w_replicate. unfold weight. simpl.
    split; [auto|]. intros _. repeat split; try lia; discriminate.
  - clear es s. intros es s e s' (Hc & Hl) Hstep.
    unfold live_count_run, attempts in *. rewrite !count_ev_snoc.
    destruct e; CountedFacts.step_inv Hstep; count_moves;
      repeat match goal with
      | H : (_ <? _) = true |- _ => apply Z.ltb_lt in H
      | H : (_ <? _) = false |- _ => apply Z.ltb_ge in H
      | H : _ || _ = true |- _ => apply orb_true_iff in H
      | H : negb _ = true |- _ => apply negb_true_iff in H
      end;
      (split; [intros Hcan; try (right; lia);
               try (destruct (Hc Hcan); [left; assumption | right; lia])
              | intros Hcan; try discriminate;
                try (destruct (Hl Hcan) as (Hfeed & Hclosed & Hdone);
                     try rewrite Hcan in *; simpl in *;
                     repeat split; try lia; try congruence;
                     try (intros; try discriminate; try lia; auto; fail);
                     try (intros; apply Hdone; lia))]).
Qed.

Lemma pool_step_length (tally : Outcome → Report → Report) (e : Event)
    (p p' : Pool) :
  pool_step tally e p p' → length (workers p') = length (workers p).
Proof.
  destruct e; simpl;
    try (intros [_ [H | (w0 & a & b & _ & _ & _ & H)]]; rewrite H;
         try reflexivity; apply length_insert).
  - intros [_ ->]. apply length_insert.
  - intros (o & _ & ->). apply length_insert.
Qed.

Lemma counted_workers_length (ctx_done : bool) (url : string) (n c : Z)
    (opts : Options) (es : list Event) (s : RunWithOptions.State) :
  exec RunWithOptions.step (RunWithOptions.start ctx_done url n c opts) es
    = Some s →
  length (workers (RunWithOptions.pool s)) = Z.to_nat (Z.max 1 c).
Proof.
  apply (exec_invariant RunWithOptions.step
           (λ s, length (workers (RunWithOptions.pool s)) = Z.to_nat (Z.max 1 c))).
  - intros s1 e s2 Hlen Hstep. apply counted_pool_step in Hstep.
    rewrite (pool_step_length _ _ _ _ Hstep). exact Hlen.
  - apply spawn_length.
Qed.

Lemma timed_workers_length (ctx_done : bool) (url : string) (d c : Z)
    (opts : Options) (es : list Event) (s : RunForDuration.State) :
  exec RunForDuration.step (RunForDuration.start ctx_done url d c opts) es
    = Some s →
  length (workers (RunForDuration.pool s)) = Z.to_nat (Z.max 1 c).
Proof.
  apply (exec_invariant RunForDuration.step
           (λ s, length (workers (RunForDuration.pool s)) = Z.to_nat (Z.max 1 c))).
  - intros s1 e s2 Hlen Hstep. apply timed_pool_step in Hstep.
    rewrite (pool_step_length _ _ _ _ Hstep). exact Hlen.
  - apply spawn_length.
Qed.

Lemma paced_workers_length (ctx_done : bool) (c : Z) (es : list Event)
    (s : RunForDurationWithRate.State) :
  exec RunForDurationWithRate.step
    (RunForDurationWithRate.Mk (MkPool Report.empty ctx_done (spawn c))
       false false false RunForDurationWithRate.Outer 0) es = Some s →
  length (workers (RunForDurationWithRate.pool s)) = Z.to_nat (Z.max 1 c).
Proof.
  apply (exec_invariant RunForDurationWithRate.step
           (λ s, length (workers (RunForDurationWithRate.pool s))
                 = Z.to_nat (Z.max 1 c))).
  - intros s1 e s2 Hlen Hstep. apply paced_pool_step in Hstep.
    rewrite (pool_step_length _ _ _ _ Hstep). exact Hlen.
  - apply spawn_length.
Qed.

Lemma live_of_never_cancelled (ctx_done : bool) (es : list Event) (b : bool) :
  never_cancelled ctx_done es →
  (b = true → ctx_done = true ∨ (0 < count_ev is_cancel es)%nat) →
  b = false.
Proof.
  intros [Hctx Hnc] H. destruct b; [|reflexivity].
  destruct (H eq_refl); [congruence | lia].
Qed.

Lemma counted_live_complete (ctx_done : bool) (url : string) (n c : Z)
    (opts : Options) (es : list Event) (s : RunWithOptions.State) (elapsed : Z) :
  never_cancelled ctx_done es → 0 <= n < 2 ^ 63 →
  exec RunWithOptions.step (RunWithOptions.start ctx_done url n c opts) es
    = Some s →
  all_done (RunWithOptions.pool s) = true →
  Z.of_nat (attempts es) = n ∧
  accounted (Report.set_Duration elapsed (rep (RunWithOptions.pool s))).
Proof.
  intros Hnever Hn Hexec Hd.
  pose proof (counted_done_outcomes _ _ _ _ _ _ _ elapsed Hexec Hd)
    as (He & _ & _ & Hs & _).
  pose proof (CountedFacts.counted_total_fixed_inv _ _ _ _ _ _ _ Hexec)
    as (Ht0 & Hfix & _).
  pose proof (counted_live _ _ _ _ _ _ _ Hexec) as (Hc & Hl).
  pose proof (CountedFacts.counted_fed_bounds _ _ _ _ _ _ _ Hexec)
    as (Ht & _ & Hnext & Hmax).
  pose proof (counted_workers_length _ _ _ _ _ _ _ Hexec) as Hlen.
  destruct (Hl (live_of_never_cancelled _ _ _ Hnever Hc))
    as (Hfeed & Hclosed & Hdone).
  unfold all_done in Hd.
  rewrite (count_w_all_done is_busy _ eq_refl Hd) in Hfeed.
  rewrite (count_done_all _ Hd), Hlen in Hdone.
  assert (Hpos : (0 < Z.to_nat (Z.max 1 c))%nat) by lia.
  specialize (Hclosed (Hdone Hpos)).
  assert (Hatt : Z.of_nat (attempts es) = n) by lia.
  split; [exact Hatt|].
  unfold accounted, total_fixed in *. cbn [TotalRequests Report.set_Duration].
  rewrite Hfix, Ht0, He.
  rewrite wrap_add_r, <- (wrap_small n) by (unfold in_int; lia).
  rewrite <- Hatt at 1. rewrite count_replies_split, Nat2Z.inj_add, Z.add_comm.
  apply wrap_add_congr; [symmetry; exact Hs | reflexivity].
Qed.

(** X4: a count-bounded run with [0 <= total] whose context is never
    cancelled makes exactly [total] attempts before it returns, and its
    report then satisfies [TotalRequests == Σ(StatusCounts) + Errors]. *)
Theorem live_count_run_is_complete
    (ctx_done : bool) (url : string) (n c : Z) (opts : Options)
    (es : list Event) (elapsed : Z) (r : Report) (err : option error) :
  never_cancelled ctx_done es → 0 <= n < 2 ^ 63 →
  RunWithOptions.run ctx_done url n c opts es elapsed = Some (r, err) →
  Z.of_nat (attempts es) = n ∧ TotalRequests r = n ∧ accounted r.
Proof.
  intros Hnever Hn Hrun.
  pose proof (counted_reports_configured_total _ _ _ _ _ _ _ _ _ Hrun) as Htot.
  apply counted_run_done in Hrun as (s & Hexec & Hd & ->).
  destruct (counted_live_complete _ _ _ _ _ _ _ elapsed Hnever Hn Hexec Hd)
    as [Hatt Hacc].
  auto.
Qed.

(** Three jobs, two workers, one transport failure, no cancellation. *)
Lemma live_count_run_is_complete_witness :
  Z.of_nat (attempts
    [Feed 0; Feed 1; CtxErr 1; CtxErr 0; Reply 0 (Response 200);
     Reply 1 (Response 404); Commit 1; Commit 0; Feed 1; CtxErr 1;
     Reply 1 DoFailed; Commit 1; FeederStop; Recv 0; Recv 1]) = 3 ∧
  TotalRequests (Report.Make Second 3 1 {[200 := 1; 404 := 1]} 1) = 3 ∧
  accounted (Report.Make Second 3 1 {[200 := 1; 404 := 1]} 1).
Proof.
  apply (live_count_run_is_complete false sample_url 3 2 sample_opts _ Second
           _ None).
  - split; reflexivity.
  - lia.
  - vm_compute. reflexivity.
Defined.

(** ** The deadline of [RunForDuration] *)

Lemma timed_one_deadline_value (ctx_done : bool) (url : string) (d c : Z)
    (opts : Options) (es : list Event) (s : RunForDuration.State) :
  exec RunForDuration.step (RunForDuration.start ctx_done url d c opts) es
    = Some s →
  one_deadline_value ctx_done es s.
Proof.
  apply (exec_trace_invariant RunForDuration.step (one_deadline_value ctx_done)).
  - unfold one_deadline_value, RunForDuration.start.
    cbn [RunForDuration.pool RunForDuration.fired RunForDuration.end_ready
         cancelled workers].
    unfold spawn. rewrite count_w_replicate. unfold weight. simpl.
    repeat split; auto; lia.
  - clear es s. intros es s e s' (Hv & Hc & Hl) Hstep.
    unfold one_deadline_value in *. rewrite !count_ev_snoc.
    destruct e; TimedFacts.step_inv Hstep; count_moves;
      repeat match goal with
      | H : _ || _ = false |- _ => apply orb_false_iff in H as [? ?]
      end; unfold b2n in *;
      repeat match goal with
      | H : RunForDuration.end_ready _ = _ |- _ => rewrite H in *
      | H : RunForDuration.fired _ = _ |- _ => rewrite H in *
      | H : cancelled _ = _ |- _ => rewrite H in *
      end; simpl in *;
      (split; [lia |
       split; [intros Hcan; try (right; lia); try discriminate;
               try (destruct (Hc Hcan); [left; assumption | right; lia])
              | intros Hcan; try discriminate; try specialize (Hl Hcan);
                try lia]]).
Qed.

(** X5: in any run of [RunForDuration] at most one worker leaves through
    [<-end]: the channel of [time.After] delivers a single value. *)
Theorem deadline_releases_one_worker
    (ctx_done : bool) (url : string) (d c : Z) (opts : Options)
    (es : list Event) (s : RunForDuration.State) :
  exec RunForDuration.step (RunForDuration.start ctx_done url d c opts) es
    = Some s →
  (count_ev is_poll_end es ≤ 1)%nat ∧
  (RunForDuration.end_ready s = true → count_ev is_poll_end es = 0%nat).
Proof.
  intros Hrun. apply timed_one_deadline_value in Hrun as (Hv & _ & _).
  unfold b2n in Hv.
  destruct (RunForDuration.end_ready s), (RunForDuration.fired s);
    split; try lia; try (intros; lia); discriminate.
Qed.

(** Two workers past the deadline: one has taken the value of [end], the
    other is still in its loop. *)
Lemma deadline_releases_one_worker_witness :
  (count_ev is_poll_end
     [PollDefault 0; PollDefault 1; Fire; Reply 0 (Response 200); Commit 0;
      PollEnd 0; Reply 1 (Response 200); Commit 1; PollDefault 1] ≤ 1)%nat.
Proof.
  eapply (deadline_releases_one_worker false sample_url Second 2 sample_opts
            [PollDefault 0; PollDefault 1; Fire; Reply 0 (Response 200);
             Commit 0; PollEnd 0; Reply 1 (Response 200); Commit 1;
             PollDefault 1]
            (RunForDuration.Mk
               (MkPool (Report.Make 0 2 2 {[200 := 2]} 0) false [Done; Issuing])
               true false)).
  vm_compute. reflexivity.
Defined.

(** X6: with two or more workers and a context that is never cancelled
    [RunForDuration] does not return, however long the run: only one
    worker sees the deadline, the others keep issuing requests. *)
Theorem live_duration_run_of_many_never_returns
    (ctx_done : bool) (url : string) (d c : Z) (opts : Options)
    (es : list Event) (elapsed : Z) :
  never_cancelled ctx_done es → 2 <= c →
  RunForDuration.run ctx_done url d c opts es elapsed = None.
Proof.
  intros Hnever Hc.
  destruct (RunForDuration.run ctx_done url d c opts es elapsed)
    as [[r err]|] eqn:Hrun; [|reflexivity].
  exfalso. apply timed_run_done in Hrun as (s & Hexec & Hd & _).
  pose proof (timed_one_deadline_value _ _ _ _ _ _ _ Hexec) as (Hv & Hcan & Hl).
  pose proof (timed_workers_length _ _ _ _ _ _ _ Hexec) as Hlen.
  specialize (Hl (live_of_never_cancelled _ _ _ Hnever Hcan)).
  unfold all_done in Hd. rewrite (count_done_all _ Hd), Hlen in Hl.
  unfold b2n in Hv.
  destruct (RunForDuration.end_ready s), (RunForDuration.fired s); lia.
Qed.

(** Two workers, the deadline fired and taken by worker 0: the call has
    not returned, and cannot before a cancellation. *)
Lemma live_duration_run_of_many_never_returns_witness :
  RunForDuration.run false sample_url Second 2 sample_opts
    [PollDefault 0; PollDefault 1; Fire; Reply 0 (Response 200); Commit 0;
     PollEnd 0; Reply 1 (Response 200); Commit 1; PollDefault 1] (3 * Second)
  = None.
Proof.
  apply live_duration_run_of_many_never_returns.
  - split; reflexivity.
  - lia.
Defined.

(** ** The report of [RunWithOptions] and the configured total *)

(** X7: whatever happens during the run (failures, cancellation, a
    negative [total]), the report [RunWithOptions] returns has
    [TotalRequests] equal to the [total] it was called with. *)
Theorem counted_total_is_the_argument
    (ctx_done : bool) (url : string) (n c : Z) (opts : Options)
    (es : list Event) (elapsed : Z) (r : Report) (err : option error) :
  RunWithOptions.run ctx_done url n c opts es elapsed = Some (r, err) →
  TotalRequests r = n ∧
  (n <= 0 → attempts es = 0%nat ∧ StatusCounts r = ∅ ∧ Errors r = 0).
Proof.
  intros Hrun. split; [eapply counted_reports_configured_total; exact Hrun|].
  intros Hn.
  apply counted_run_done in Hrun as (s & Hexec & Hd & ->).
  pose proof (counted_done_outcomes _ _ _ _ _ _ _ elapsed Hexec Hd)
    as (He & Hc & _).
  pose proof (CountedFacts.counted_fed_bounds _ _ _ _ _ _ _ Hexec)
    as (_ & Hb & Hnext & Hmax).
  assert (Hatt : attempts es = 0%nat) by lia.
  split; [exact Hatt|].
  rewrite count_replies_split in Hatt.
  split.
  - apply map_eq. intros code. rewrite Hc, lookup_empty.
    assert (Hle : (count_ev (is_response code) es
                   ≤ count_ev is_any_response es)%nat).
    { clear. induction es as [|e es IH]; simpl; [lia|].
      destruct e as [| | | | | | | | | | | | | | w [| |c'] |]; simpl; try lia.
      destruct (c' =? code); lia. }
    replace (count_ev (is_response code) es) with 0%nat by lia. reflexivity.
  - rewrite He. replace (count_ev is_failed_reply es) with 0%nat by lia.
    reflexivity.
Qed.

(** Called with [total = -5] and an already cancelled context: no attempt,
    and [TotalRequests] is -5. *)
Lemma counted_total_is_the_argument_witness :
  TotalRequests (Report.Make 1000 (-5) 0 ∅ 0) = -5.
Proof.
  apply (counted_total_is_the_argument true sample_url (-5) 1 sample_opts
           [FeederStop; Recv 0] 1000 _ None).
  vm_compute. reflexivity.
Defined.

(** ** Pacing *)

Lemma paced_ticks (ctx_done : bool) (c : Z) (es : list Event)
    (s : RunForDurationWithRate.State) :
  exec RunForDurationWithRate.step
    (RunForDurationWithRate.Mk (MkPool Report.empty ctx_done (spawn c))
       false false false RunForDurationWithRate.Outer 0) es = Some s →
  paced_by_ticks es s.
Proof.
  apply (exec_trace_invariant RunForDurationWithRate.step paced_by_ticks).
  - unfold paced_by_ticks, holds_tick. simpl. lia.
  - clear es s. intros es s e s' Hp Hstep.
    unfold paced_by_ticks, holds_tick, b2n in *. rewrite !count_ev_snoc.
    destruct e; PacedFacts.step_inv Hstep;
      repeat match goal with
      | H : RunForDurationWithRate.gen _ = _ |- _ => rewrite H in *
      | H : RunForDurationWithRate.tick_ready _ = _ |- _ => rewrite H in *
      end; simpl in *;
      try destruct (RunForDurationWithRate.gen s);
      try destruct (RunForDurationWithRate.tick_ready s); simpl in *; lia.
Qed.

(** X8: a paced run never sends more permits than the ticker delivered
    ticks, and so never attempts more requests than ticks: the ticker's
    period bounds the request rate from above. *)
Theorem permits_bounded_by_ticks
    (ctx_done : bool) (url : string) (d c : Z) (opts : Options) (rps : float)
    (s0 s : RunForDurationWithRate.State) (es : list Event) :
  RunForDurationWithRate.start ctx_done url d c opts rps
    = RunForDurationWithRate.Running s0 →
  exec RunForDurationWithRate.step s0 es = Some s →
  (count_ev is_permit es ≤ count_ev is_tick es)%nat ∧
  (attempts es ≤ count_ev is_tick es)%nat.
Proof.
  intros Hstart Hrun. unfold RunForDurationWithRate.start in Hstart.
  destruct (rps <=? 0)%float; [discriminate|]. injection Hstart as <-.
  pose proof (paced_ticks _ _ _ _ Hrun) as Hp.
  apply PacedFacts.exec_permit_bounds in Hrun;
    [|apply PacedFacts.start_permit_bounds].
  destruct Hrun as (_ & Hb). unfold paced_by_ticks in Hp. lia.
Qed.

(** Three ticks while the generator is blocked or busy give two permits:
    a tick that finds [ticker.C] full is dropped. *)
Lemma permits_bounded_by_ticks_witness :
  (count_ev is_permit [Tick; Tick; GenTick; Tick; GenSend; GenTick; GenSend]
   ≤ count_ev is_tick [Tick; Tick; GenTick; Tick; GenSend; GenTick; GenSend])%nat.
Proof.
  eapply (permits_bounded_by_ticks false sample_url Second 1 sample_opts
            10%float _
            (RunForDurationWithRate.Mk (MkPool Report.empty false [LoopHead])
               false false false RunForDurationWithRate.Outer 2)
            [Tick; Tick; GenTick; Tick; GenSend; GenTick; GenSend]).
  - vm_compute. reflexivity.
  - vm_compute. reflexivity.
Defined.

Lemma paced_live (ctx_done : bool) (c : Z) (es : list Event)
    (s : RunForDurationWithRate.State) :
  exec RunForDurationWithRate.step
    (RunForDurationWithRate.Mk (MkPool Report.empty ctx_done (spawn c))
       false false false RunForDurationWithRate.Outer 0) es = Some s →
  live_paced_run ctx_done es s.
Proof.
  apply (exec_trace_invariant RunForDurationWithRate.step
           (live_paced_run ctx_done)).
  - unfold live_paced_run, RunForDurationWithRate.stopped.
    cbn [RunForDurationWithRate.pool RunForDurationWithRate.queued
         RunForDurationWithRate.gen cancelled workers].
    unfold spawn. rewrite !count_w_replicate. unfold weight. simpl.
    split; [auto|]. intros _. split; lia.
  - clear es s. intros es s e s' (Hc & Hl) Hstep.
    unfold live_paced_run, attempts, RunForDurationWithRate.stopped in *.
    rewrite !count_ev_snoc.
    destruct e; PacedFacts.step_inv Hstep; count_moves;
      (split; [intros Hcan; try (right; lia);
               try (destruct (Hc Hcan); [left; assumption | right; lia]);
               try (destruct (Hc eq_refl); [left; assumption | right; lia])
              | intros Hcan; try discriminate; try congruence;
                try (destruct (Hl Hcan) as (Hperm & Hdone);
                     try rewrite Hcan in *; simpl in *;
                     repeat match goal with
                     | H : RunForDurationWithRate.gen _ = _ |- _ =>
                         rewrite H in *
                     | H : RunForDurationWithRate.queued _ = _ |- _ =>
                         rewrite H in *
                     end;
                     split; [lia|];
                     try (intros Hpos; split; [reflexivity | lia]);
                     try (intros Hpos; destruct Hdone as [? ?];
                          [lia | split; [assumption || discriminate | lia]]);
                     try (intros Hpos; apply Hdone; lia))]).
Qed.

(** X9: when a paced run whose context is never cancelled returns, every
    permit the generator sent has been used for exactly one attempt:
    nothing is left in [jobs], and [TotalRequests + Errors] is the number
    of permits. *)
Theorem live_paced_run_uses_every_permit
    (ctx_done : bool) (url : string) (d c : Z) (opts : Options) (rps : float)
    (es : list Event) (elapsed : Z) (r : Report) (err : option error) :
  never_cancelled ctx_done es →
  RunForDurationWithRate.run
    (RunForDurationWithRate.start ctx_done url d c opts rps) es elapsed
    = Some (r, err) →
  attempts es = count_ev is_permit es ∧
  wrap (TotalRequests r + Errors r) = wrap (Z.of_nat (count_ev is_permit es)).
Proof.
  intros Hnever Hrun.
  assert (Hout : reports_outcomes true es r).
  { apply paced_run_done in Hrun as [[-> ->] | (s & Hexec & _ & Hd & ->)];
      [apply reports_outcomes_empty|].
    eapply paced_done_outcomes; [exact Hexec | exact Hd]. }
  destruct Hout as (He & _ & _ & _ & Ht).
  specialize (Ht eq_refl).
  assert (Hatt : attempts es = count_ev is_permit es).
  { apply paced_run_done in Hrun as [[-> _] | (s & Hexec & Hs & Hd & _)];
      [reflexivity|].
    pose proof (paced_live _ _ _ _ Hexec) as (Hc & Hl).
    pose proof (paced_workers_length _ _ _ _ Hexec) as Hlen.
    destruct (Hl (live_of_never_cancelled _ _ _ Hnever Hc)) as (Hperm & Hdone).
    unfold all_done in Hd.
    rewrite (count_w_all_done is_busy _ eq_refl Hd) in Hperm.
    rewrite (count_done_all _ Hd), Hlen in Hdone.
    assert (Hpos : (0 < Z.to_nat (Z.max 1 c))%nat) by lia.
    destruct (Hdone Hpos) as [_ Hq]. lia. }
  split; [exact Hatt|].
  rewrite <- Hatt, count_replies_split, Nat2Z.inj_add, Z.add_comm, Ht, He.
  rewrite wrap_add_l, wrap_add_r. reflexivity.
Qed.

(** Two permits, a 200 and a timeout, then the deadline. *)
Lemma live_paced_run_uses_every_permit_witness :
  attempts
    [Tick; GenTick; GenSend; Recv 0; CtxErr 0; Reply 0 (Response 200);
     Tick; GenTick; GenSend; Commit 0; Recv 0; CtxErr 0; Reply 0 DoFailed;
     Commit 0; Fire; GenEnd; Recv 0]
  = count_ev is_permit
      [Tick; GenTick; GenSend; Recv 0; CtxErr 0; Reply 0 (Response 200);
       Tick; GenTick; GenSend; Commit 0; Recv 0; CtxErr 0; Reply 0 DoFailed;
       Commit 0; Fire; GenEnd; Recv 0].
Proof.
  eapply (live_paced_run_uses_every_permit false sample_url Second 1
            sample_opts 10%float _ Second
            (Report.Make Second 1 1 {[200 := 1]} 1) None).
  - split; reflexivity.
  - vm_compute. reflexivity.
Defined.

(** * The commands that call the runner *)

(** ** Aggregation of phases *)

Lemma add_counts_lookup (overall src : gmap Z Z) (code : Z) :
  add_counts overall src !! code
  = match src !! code with
    | Some count => Some (add_int (at_code overall code) count)
    | None => overall !! code
    end.
Proof.
  unfold add_counts. revert code.
  apply (map_fold_weak_ind (λ acc m, ∀ code,
           acc !! code = match m !! code with
                         | Some count => Some (add_int (at_code overall code) count)
                         | None => overall !! code
                         end)).
  - intros code. rewrite lookup_empty. reflexivity.
  - intros i x m acc Hi IH code. rewrite !lookup_insert.
    destruct (decide (i = code)) as [->|Hne]; [|apply IH].
    unfold at_code. rewrite IH, Hi. reflexivity.
Qed.

Lemma at_code_add_counts (overall src : gmap Z Z) (code : Z) :
  in_int (at_code overall code) →
  at_code (add_counts overall src) code
  = add_int (at_code overall code) (at_code src code).
Proof.
  intros Hin. unfold at_code at 1 3. rewrite add_counts_lookup.
  destruct (src !! code) as [count|]; simpl; [reflexivity|].
  unfold add_int. rewrite Z.add_0_r, wrap_small by exact Hin. reflexivity.
Qed.

Lemma sum_add_counts (overall src : gmap Z Z) :
  wrap (sum_counts (add_counts overall src))
  = wrap (sum_counts overall + sum_counts src).
Proof.
  unfold add_counts.
  apply (map_fold_weak_ind (λ acc m,
           wrap (sum_counts acc) = wrap (sum_counts overall + sum_counts m))).
  - rewrite sum_counts_empty, Z.add_0_r. reflexivity.
  - intros i x m acc Hi IH.
    rewrite sum_counts_insert, (sum_counts_fresh m i x Hi). unfold add_int.
    replace (sum_counts acc - at_code acc i + wrap (at_code acc i + x))
      with (sum_counts acc + (- at_code acc i + wrap (at_code acc i + x)))
      by lia.
    replace (sum_counts overall + (x + sum_counts m))
      with (sum_counts overall + sum_counts m + x) by lia.
    apply wrap_add_congr; [exact IH|].
    rewrite wrap_add_r. f_equal. lia.
Qed.

Lemma aggregate_summary_ok (overall r : Report) :
  summary_ok overall → ok_mirrors r → summary_ok (aggregate overall r).
Proof.
  intros (Hm & Hin & Hall) Hr. unfold summary_ok, ok_mirrors, aggregate. cbn.
  split; [|split].
  - rewrite at_code_add_counts by apply Hall.
    unfold ok_mirrors in Hm, Hr. rewrite <- Hm, <- Hr. reflexivity.
  - apply wrap_in_int.
  - intros code. rewrite at_code_add_counts by apply Hall. apply wrap_in_int.
Qed.

Lemma aggregate_total_is_sum (overall r : Report) :
  total_is_sum overall → total_is_sum r → total_is_sum (aggregate overall r).
Proof.
  unfold total_is_sum, aggregate, add_int. cbn. intros -> ->.
  rewrite sum_add_counts, wrap_add_l, wrap_add_r. reflexivity.
Qed.

Lemma foldl_aggregate_fields (f : Report → Z) (acc : Report) (l : list Report) :
  (∀ a r, f (aggregate a r) = add_int (f a) (f r)) →
  wrap (f (foldl aggregate acc l)) = wrap (f acc + sum_with f l).
Proof.
  intros Hf. revert acc. induction l as [|r l IH]; intros acc; simpl.
  - rewrite Z.add_0_r. reflexivity.
  - rewrite IH, Hf. unfold add_int. rewrite wrap_add_l. f_equal. lia.
Qed.

Lemma foldl_aggregate_summary_ok (acc : Report) (l : list Report) :
  summary_ok acc → Forall ok_mirrors l → summary_ok (foldl aggregate acc l).
Proof.
  intros Hacc Hl. revert acc Hacc.
  induction Hl as [|r l Hr _ IH]; intros acc Hacc; simpl; [exact Hacc|].
  apply IH, aggregate_summary_ok; assumption.
Qed.

Lemma summary_ok_empty : summary_ok Report.empty.
Proof.
  unfold summary_ok, ok_mirrors, in_int. cbn. split; [reflexivity|].
  split; [lia|]. intros code. unfold at_code. rewrite lookup_empty. simpl. lia.
Qed.

Lemma foldl_aggregate_counts (code : Z) (acc : Report) (l : list Report) :
  summary_ok acc →  Forall ok_mirrors l →
  at_code (StatusCounts (foldl aggregate acc l)) code
  = wrap (at_code (StatusCounts acc) code
          + sum_with (λ r, at_code (StatusCounts r) code) l).
Proof.
  intros Hacc Hl. revert acc Hacc.
  induction Hl as [|r l Hr _ IH]; intros acc Hacc; simpl.
  - rewrite Z.add_0_r, wrap_small; [reflexivity | apply Hacc].
  - rewrite IH by (apply aggregate_summary_ok; assumption).
    unfold aggregate. cbn [StatusCounts].
    rewrite at_code_add_counts by apply Hacc. unfold add_int.
    rewrite wrap_add_l. f_equal. lia.
Qed.

(** X10: the summary [ramp] prints is the field-by-field sum of its
    phases' reports, in Go's [int] arithmetic: [TotalRequests],
    [Succeeded200], [Errors], and every entry of the histogram, whatever
    order the phase maps are ranged over. *)
Theorem ramp_overall_sums_phases (phases : list Report) (elapsed code : Z) :
  Forall ok_mirrors phases →
  TotalRequests (ramp_overall phases elapsed)
    = wrap (sum_with TotalRequests phases) ∧
  Succeeded200 (ramp_overall phases elapsed)
    = wrap (sum_with Succeeded200 phases) ∧
  Errors (ramp_overall phases elapsed) = wrap (sum_with Errors phases) ∧
  at_code (StatusCounts (ramp_overall phases elapsed)) code
    = wrap (sum_with (λ r, at_code (StatusCounts r) code) phases) ∧
  Duration (ramp_overall phases elapsed) = elapsed.
Proof.
  intros Hl. unfold ramp_overall. cbn.
  assert (Hfield : ∀ f, (∀ a r, f (aggregate a r) = add_int (f a) (f r)) →
            f Report.empty = 0 → in_int (f (foldl aggregate Report.empty phases)) →
            f (foldl aggregate Report.empty phases) = wrap (sum_with f phases)).
  { intros f Hf H0 Hin. rewrite <- (wrap_small _ Hin).
    rewrite (foldl_aggregate_fields f _ _ Hf), H0. reflexivity. }
  assert (Hin : ∀ f, (∀ a r, f (aggregate a r) = add_int (f a) (f r)) →
            f Report.empty = 0 → in_int (f (foldl aggregate Report.empty phases))).
  { intros f Hf H0. clear Hfield Hl.
    induction phases as [|r l IH] using rev_ind; simpl.
    - rewrite H0. unfold in_int. lia.
    - rewrite foldl_app. simpl. rewrite Hf. apply wrap_in_int. }
  repeat split.
  - apply (Hfield TotalRequests); [reflexivity.. | apply Hin; reflexivity].
  - apply (Hfield Succeeded200); [reflexivity.. | apply Hin; reflexivity].
  - apply (Hfield Errors); [reflexivity.. | apply Hin; reflexivity].
  - rewrite foldl_aggregate_counts by (exact summary_ok_empty || exact Hl).
    f_equal.
Qed.

Lemma ramp_overall_sums_phases_witness :
  at_code (StatusCounts
             (ramp_overall [Report.Make Second 3 2 {[200 := 2; 404 := 1]} 1;
                            Report.Make Second 4 4 {[200 := 4]} 0;
                            Report.Make Second 1 0 {[503 := 1]} 2]
                (3 * Second))) 200
  = wrap (sum_with (λ r, at_code (StatusCounts r) 200)
            [Report.Make Second 3 2 {[200 := 2; 404 := 1]} 1;
             Report.Make Second 4 4 {[200 := 4]} 0;
             Report.Make Second 1 0 {[503 := 1]} 2]).
Proof.
  refine (proj1 (proj2 (proj2 (proj2
            (ramp_overall_sums_phases
               [Report.Make Second 3 2 {[200 := 2; 404 := 1]} 1;
                Report.Make Second 4 4 {[200 := 4]} 0;
                Report.Make Second 1 0 {[503 := 1]} 2] (3 * Second) 200 _))))).
  repeat constructor.
Defined.

(** X11: if every phase report has [Succeeded200 == StatusCounts[200]] (as
    every report of the runner has), so has the summary; and if every
    phase has [TotalRequests == Σ(StatusCounts)] (as in the duration
    modes), so has the summary. *)
Theorem ramp_overall_keeps_identities (phases : list Report) (elapsed : Z) :
  Forall ok_mirrors phases →
  ok_mirrors (ramp_overall phases elapsed) ∧
  (Forall total_is_sum phases → total_is_sum (ramp_overall phases elapsed)).
Proof.
  intros Hl. split.
  - apply set_Duration_ok_mirrors.
    apply (foldl_aggregate_summary_ok _ _ summary_ok_empty Hl).
  - intros Hs. apply set_Duration_total_is_sum.
    assert (H0 : total_is_sum Report.empty).
    { unfold total_is_sum. cbn. rewrite sum_counts_empty. reflexivity. }
    clear Hl. revert H0. generalize Report.empty.
    induction Hs as [|r l Hr _ IH]; intros acc Hacc; simpl; [exact Hacc|].
    apply IH, aggregate_total_is_sum; assumption.
Qed.

Lemma ramp_overall_keeps_identities_witness :
  ok_mirrors (ramp_overall [Report.Make Second 3 2 {[200 := 2; 404 := 1]} 1;
                            Report.Make Second 4 4 {[200 := 4]} 0]
                (2 * Second)).
Proof.
  refine (proj1 (ramp_overall_keeps_identities
                   [Report.Make Second 3 2 {[200 := 2; 404 := 1]} 1;
                    Report.Make Second 4 4 {[200 := 4]} 0] (2 * Second) _)).
  repeat constructor.
Defined.

(** ** The runner a phase calls *)

Lemma positive_rate_not_nonpositive (x : float) :
  (0 <? x)%float = true → (x <=? 0)%float = false.
Proof.
  rewrite ltb_spec, leb_spec. change (Prim2SF 0) with (S754_zero false).
  destruct (Prim2SF x) as [s|s| |s m e]; simpl; try discriminate;
    destruct s; simpl; try discriminate; reflexivity.
Qed.

(** X12: a phase of [ramp] calls [RunWithOptions] only with a positive
    total, and [RunForDurationWithRate] only with a rate that the runner
    accepts: its goroutines are started, the empty report of a rate
    [<= 0] is never what a phase returns at once.  A phase whose rate is
    not positive runs [RunForDuration] instead. *)
Theorem ramp_phase_calls
    (startConcurrency stepConcurrency requestsPerStep perStepDuration : Z)
    (rps stepRps : float) (i : Z) :
  match phase_call startConcurrency stepConcurrency requestsPerStep
          perStepDuration rps stepRps i with
  | CallWithOptions total _ => 0 < total ∧ total = requestsPerStep
  | CallForDurationWithRate d c r =>
      requestsPerStep <= 0 ∧
      ∀ ctx_done url opts,
        RunForDurationWithRate.start ctx_done url d c opts r
        = RunForDurationWithRate.Running
            (RunForDurationWithRate.Mk
               (MkPool Report.empty ctx_done (spawn c)) false false false
               RunForDurationWithRate.Outer 0)
  | CallForDuration d _ =>
      requestsPerStep <= 0 ∧ d = perStepDuration ∧
      (0 <? rps + float64 i * stepRps)%float = false
  end.
Proof.
  unfold phase_call. destruct (Z.ltb_spec 0 requestsPerStep) as [Hn|Hn].
  - split; [exact Hn | reflexivity].
  - destruct (0 <? rps + float64 i * stepRps)%float eqn:Hr.
    + split; [exact Hn|]. intros ctx_done url opts.
      unfold RunForDurationWithRate.start.
      rewrite (positive_rate_not_nonpositive _ Hr). reflexivity.
    + repeat split. exact Hn.
Qed.

(** ** The JSON histogram *)

Global Instance Sprintf_d_inj : Inj (=) (=) Sprintf_d.
Proof. unfold Sprintf_d. apply _. Qed.

Lemma status_counts_json_kmap (m : gmap Z Z) :
  status_counts_json m = kmap Sprintf_d m.
Proof.
  unfold status_counts_json.
  apply (map_fold_weak_ind (λ sc m, sc = kmap Sprintf_d m)).
  - rewrite kmap_empty. reflexivity.
  - intros k v m' sc Hk ->. rewrite kmap_insert; [reflexivity | apply _].
Qed.

(** X13: writing the histogram's keys in decimal for the JSON output
    loses and merges nothing: the entry under the decimal form of a code
    is that code's count, every entry of the output comes from a code,
    and the output has as many entries as the histogram. *)
Theorem status_counts_json_faithful (m : gmap Z Z) :
  (∀ code, status_counts_json m !! Sprintf_d code = m !! code) ∧
  (∀ key count, status_counts_json m !! key = Some count ↔
                ∃ code, key = Sprintf_d code ∧ m !! code = Some count) ∧
  size (status_counts_json m) = size m.
Proof.
  rewrite status_counts_json_kmap. split; [|split].
  - intros code. apply (lookup_kmap Sprintf_d).
  - intros key count. apply (lookup_kmap_Some Sprintf_d).
  - unfold kmap. rewrite map_size_list_to_map.
    + rewrite length_fmap. apply length_map_to_list.
    + rewrite <- list_fmap_compose.
      rewrite (list_fmap_ext _ (Sprintf_d ∘ fst))
        by (intros i [k v] _; reflexivity).
      rewrite list_fmap_compose. apply NoDup_fmap_2; [apply _|].
      apply NoDup_fst_map_to_list.
Qed.

(** ** Header lines *)

Lemma colon_string : String colon EmptyString = ":".
Proof. reflexivity. Qed.

Lemma SplitN_colon_Some (h k v : string) :
  SplitN_colon h = Some (k, v) → h = k +:+ String colon v ∧ has_colon k = false.
Proof.
  revert k v. induction h as [|a h IH]; intros k v; simpl; [discriminate|].
  destruct (Ascii.eqb a colon) eqn:Ha.
  - intros [= <- <-]. apply Ascii.eqb_eq in Ha. subst a. auto.
  - destruct (SplitN_colon h) as [[k' v']|]; [|discriminate].
    intros [= <- <-]. destruct (IH k' v' eq_refl) as [-> Hk].
    simpl. rewrite Ha, Hk. auto.
Qed.

Lemma SplitN_colon_first (k v : string) :
  has_colon k = false → SplitN_colon (k +:+ String colon v) = Some (k, v).
Proof.
  induction k as [|a k IH]; simpl.
  - intros _. reflexivity.
  - intros H. apply orb_false_iff in H as [Ha Hk].
    rewrite Ha, (IH Hk). reflexivity.
Qed.

Lemma SplitN_colon_None (h : string) :
  SplitN_colon h = None ↔ has_colon h = false.
Proof.
  induction h as [|a h IH]; simpl; [tauto|].
  destruct (Ascii.eqb a colon); simpl; [split; discriminate|].
  destruct (SplitN_colon h) as [[k v]|]; split; intros H;
    try discriminate; try reflexivity.
  - apply IH in H. discriminate.
  - apply IH. reflexivity.
Qed.

Section LibraryFacts.

Variable TrimSpace : string → string.
Variable ToUpper : string → string.
Variable CanonicalMIMEHeaderKey : string → string.
Variable ParseRequestURI_ok : string → bool.

(** X14: a header line is cut at its first colon only, so a value may
    itself contain colons; key and value are trimmed; a line without a
    colon, or whose key is blank, is an error that names the line. *)
Theorem header_cut_at_first_colon (h : string) :
  (has_colon h = false →
   parse_header TrimSpace h = Err (InvalidHeaderFormat h)) ∧
  (∀ k v, h = k +:+ ":" +:+ v → has_colon k = false →
          parse_header TrimSpace h
          = if decide (TrimSpace k = "") then Err (InvalidHeaderKey h)
            else Ok (TrimSpace k, TrimSpace v)) ∧
  (∀ key val, parse_header TrimSpace h = Ok (key, val) →
              key ≠ "" ∧
              ∃ k v, h = k +:+ ":" +:+ v ∧ has_colon k = false ∧
                     key = TrimSpace k ∧ val = TrimSpace v).
Proof.
  unfold parse_header. split; [|split].
  - intros H. apply SplitN_colon_None in H. rewrite H. reflexivity.
  - intros k v -> Hk. change (k +:+ ":" +:+ v) with (k +:+ String colon v).
    rewrite (SplitN_colon_first k v Hk). reflexivity.
  - intros key val. destruct (SplitN_colon h) as [[k v]|] eqn:Hs; [|discriminate].
    destruct (decide (TrimSpace k = "")) as [|Hne]; [discriminate|].
    intros [= <- <-]. split; [exact Hne|].
    apply SplitN_colon_Some in Hs as [-> Hk]. exists k, v.
    change (k +:+ ":" +:+ v) with (k +:+ String colon v). auto.
Qed.

Lemma parse_headers_from_spec (hdr : Header) (headers : list string)
    (out : Header) :
  parse_headers_from TrimSpace CanonicalMIMEHeaderKey hdr headers = Ok out →
  ∃ pairs,
    Forall2 (λ h p, parse_header TrimSpace h = Ok p) headers pairs ∧
    ∀ ck, default [] (out !! ck)
          = default [] (hdr !! ck) ++ header_values CanonicalMIMEHeaderKey ck pairs.
Proof.
  revert hdr. induction headers as [|h rest IH]; intros hdr; simpl.
  - intros [= <-]. exists []. split; [constructor|].
    intros ck. unfold header_values. simpl. rewrite app_nil_r. reflexivity.
  - destruct (parse_header TrimSpace h) as [[key val]|e] eqn:Hh; [|discriminate].
    intros Hrest. apply IH in Hrest as (pairs & Hall & Hvals).
    exists ((key, val) :: pairs). split; [constructor; assumption|].
    intros ck. rewrite Hvals. unfold Header_Add, header_values.
    rewrite filter_cons. simpl.
    destruct (decide (CanonicalMIMEHeaderKey key = ck)) as [->|Hne].
    + rewrite lookup_insert_eq. simpl. rewrite <- app_assoc. reflexivity.
    + rewrite lookup_insert_ne by exact Hne. reflexivity.
Qed.

(** X15: when the header flags parse, every one of them is in the request
    headers: under each canonical key the values of the lines with that
    key, in the order given, repeated keys kept; otherwise the error is
    that of the first malformed line. *)
Theorem parsed_headers_keep_every_line (headers : list string) :
  match parse_headers TrimSpace CanonicalMIMEHeaderKey headers with
  | Ok hdr =>
      ∃ pairs,
        Forall2 (λ h p, parse_header TrimSpace h = Ok p) headers pairs ∧
        ∀ ck, default [] (hdr !! ck)
              = header_values CanonicalMIMEHeaderKey ck pairs
  | Err e =>
      ∃ before h after,
        headers = before ++ h :: after ∧ parse_header TrimSpace h = Err e ∧
        Forall (λ x, ∃ p, parse_header TrimSpace x = Ok p) before
  end.
Proof.
  unfold parse_headers.
  destruct (parse_headers_from _ _ ∅ headers) as [hdr|e] eqn:H.
  - apply parse_headers_from_spec in H as (pairs & Hall & Hvals).
    exists pairs. split; [exact Hall|]. intros ck. rewrite Hvals, lookup_empty.
    reflexivity.
  - revert H. generalize (∅ : Header).
    induction headers as [|h rest IH]; intros hdr; simpl; [discriminate|].
    destruct (parse_header TrimSpace h) as [[key val]|e'] eqn:Hh.
    + intros Hrest. apply IH in Hrest as (before & h' & after & -> & Hbad & Hgood).
      exists (h :: before), h', after. repeat split; [exact Hbad|].
      constructor; eauto.
    + intros [= ->]. exists [], h, rest. repeat split; [exact Hh | constructor].
Qed.

End LibraryFacts.

(** A [Referer] whose value has colons, and two values for one key. *)
Example header_examples :
  parse_header trim_ascii "Referer: http://a.example:8080/x"
    = Ok ("Referer", "http://a.example:8080/x") ∧
  parse_header trim_ascii "  : v" = Err (InvalidHeaderKey "  : v") ∧
  parse_header trim_ascii "no colon here"
    = Err (InvalidHeaderFormat "no colon here") ∧
  parse_headers trim_ascii (λ k, k) ["Accept: a"; "X-Id: 1"; "Accept: b"]
    = Ok {[ "Accept" := ["a"; "b"]; "X-Id" := ["1"] ]}.
Proof. repeat split; vm_compute; reflexivity. Qed.

(** ** From the flags to the runner *)

Section CommandFacts.

Variable TrimSpace : string → string.
Variable ToUpper : string → string.
Variable CanonicalMIMEHeaderKey : string → string.
Variable ParseRequestURI_ok : string → bool.

Lemma normalize_method_supported (method m : string) :
  normalize_method TrimSpace ToUpper method = Some m → m ∈ supported_methods.
Proof.
  unfold normalize_method.
  destruct (bool_decide _) eqn:H; [|discriminate].
  intros [= <-]. apply bool_decide_eq_true in H. exact H.
Qed.

(** X16: when [run] reaches the runner, the URL is non-empty and parses,
    [total] and [concurrency] are positive and the method is one of the
    seven supported; the runner then starts exactly [concurrency] workers,
    every report it returns shows [TotalRequests = total], and if the
    timeout never fires exactly [total] attempts were made and the
    accounting identity holds. *)
Theorem run_calls_runner_with_valid_arguments
    (targetURL : string) (total concurrency : Z) (method : string)
    (headers : list string) (body : string) (call : RunCall) :
  total < 2 ^ 63 →
  run_plan TrimSpace ToUpper CanonicalMIMEHeaderKey ParseRequestURI_ok
    targetURL total concurrency method headers body = Ok call →
  rc_url call = targetURL ∧ targetURL ≠ "" ∧
  ParseRequestURI_ok targetURL = true ∧
  rc_total call = total ∧ 0 < total ∧
  rc_concurrency call = concurrency ∧ 0 < concurrency ∧
  length (spawn concurrency) = Z.to_nat concurrency ∧
  rc_method call ∈ supported_methods ∧
  ∀ opts es elapsed r err,
    RunWithOptions.run false (rc_url call) (rc_total call)
      (rc_concurrency call) opts es elapsed = Some (r, err) →
    TotalRequests r = total ∧
    (never_cancelled false es →
     Z.of_nat (attempts es) = total ∧ accounted r).
Proof.
  intros Hint. unfold run_plan.
  destruct (decide (targetURL = "")) as [|Hurl]; [discriminate|].
  destruct (ParseRequestURI_ok targetURL) eqn:Hparse; [|discriminate]. simpl.
  destruct (Z.leb_spec total 0) as [|Htotal]; [discriminate|].
  destruct (Z.leb_spec concurrency 0) as [|Hconc]; [discriminate|].
  destruct (normalize_method TrimSpace ToUpper method) as [m|] eqn:Hm;
    [|discriminate].
  destruct (parse_headers _ _ headers) as [hdr|e]; [|discriminate].
  intros [= <-]. cbn [rc_url rc_total rc_concurrency rc_method].
  do 8 (split; [auto; try lia|]).
  { rewrite spawn_length. f_equal. lia. }
  split; [eapply normalize_method_supported; exact Hm|].
  intros opts es elapsed r err Hrun.
  split; [eapply counted_reports_configured_total; exact Hrun|].
  intros Hnever.
  assert (Hrange : 0 <= total < 2 ^ 63) by lia.
  apply counted_run_done in Hrun as (s & Hexec & Hd & ->).
  apply (counted_live_complete _ _ _ _ _ _ _ elapsed Hnever Hrange Hexec Hd).
Qed.

(** X17: when the validations of [ramp] pass, steps and the starting
    concurrency are positive and every phase calls the runner with a
    positive amount of work: a positive total in requests mode (then
    neither a duration nor a rate is set), a positive duration otherwise.
    With [--requests-per-step] positive, as by its default of 100, setting
    [--per-step-duration] or [--rps] is refused. *)
Theorem ramp_validated_phases
    (targetURL : string) (steps startConcurrency requestsPerStep
     perStepDuration : Z) (rps : float) :
  (ramp_validate ParseRequestURI_ok targetURL steps startConcurrency
     requestsPerStep perStepDuration rps = None →
   0 < steps ∧ 0 < startConcurrency ∧
   ∀ stepConcurrency stepRps i,
     match phase_call startConcurrency stepConcurrency requestsPerStep
             perStepDuration rps stepRps i with
     | CallWithOptions n _ =>
         0 < n ∧ perStepDuration <= 0 ∧ (0 <? rps)%float = false
     | CallForDurationWithRate d _ _ => 0 < d
     | CallForDuration d _ => 0 < d
     end) ∧
  (0 < requestsPerStep →
   0 < perStepDuration ∨ (0 <? rps)%float = true →
   ramp_validate ParseRequestURI_ok targetURL steps startConcurrency
     requestsPerStep perStepDuration rps ≠ None) ∧
  0 < default_requestsPerStep.
Proof.
  unfold ramp_validate, phase_call. split; [|split; [|reflexivity]].
  - destruct (decide (targetURL = "")); [discriminate|].
    destruct (ParseRequestURI_ok targetURL); [|discriminate]. simpl.
    destruct (Z.leb_spec steps 0); [discriminate|].
    destruct (Z.leb_spec startConcurrency 0); [discriminate|].
    destruct (Z.ltb_spec 0 requestsPerStep).
    + destruct (Z.ltb_spec 0 perStepDuration); [discriminate|]. simpl.
      destruct (0 <? rps)%float; [discriminate|]. intros _.
      repeat split; auto.
    + destruct (Z.ltb_spec 0 perStepDuration); [|discriminate]. intros _.
      repeat split; auto. intros stepConcurrency stepRps i.
      destruct (0 <? rps + float64 i * stepRps)%float; assumption.
  - intros Hn Hset.
    destruct (decide (targetURL = "")); [discriminate|].
    destruct (ParseRequestURI_ok targetURL); [|discriminate]. simpl.
    destruct (Z.leb_spec steps 0); [discriminate|].
    destruct (Z.leb_spec startConcurrency 0); [discriminate|].
    destruct (Z.ltb_spec 0 requestsPerStep); [|lia].
    destruct Hset as [Hd | Hr].
    + destruct (Z.ltb_spec 0 perStepDuration); [discriminate | lia].
    + rewrite Hr, orb_true_r. discriminate.
Qed.

End CommandFacts.

(** [run --url http://localhost:8080/ping --requests 2 --concurrency 1
    --method post --header 'X-Id: 1']: the runner is called, and a run
    without timeout makes the two attempts. *)
Lemma run_calls_runner_with_valid_arguments_witness :
  TotalRequests (Report.Make Second 2 2 {[200 := 2]} 0) = 2 ∧
  (never_cancelled false
     [Feed 0; CtxErr 0; Reply 0 (Response 200); Commit 0;
      Feed 0; CtxErr 0; Reply 0 (Response 200); Commit 0; FeederStop; Recv 0] →
   Z.of_nat (attempts
     [Feed 0; CtxErr 0; Reply 0 (Response 200); Commit 0;
      Feed 0; CtxErr 0; Reply 0 (Response 200); Commit 0; FeederStop; Recv 0])
   = 2 ∧
   accounted (Report.Make Second 2 2 {[200 := 2]} 0)).
Proof.
  refine (proj2 (proj2 (proj2 (proj2 (proj2 (proj2 (proj2 (proj2 (proj2
    (run_calls_runner_with_valid_arguments trim_ascii upper_ascii
       (λ k, k) (λ u, true) sample_url 2 1 "post" ["X-Id: 1"] ""
       (Build_RunCall sample_url 2 1 "POST" {[ "X-Id" := ["1"] ]} "")
       _ _))))))))) sample_opts _ Second _ None _).
  - lia.
  - vm_compute. reflexivity.
  - vm_compute. reflexivity.
Defined.

(** ** The arguments of [curl] *)

Section CurlFacts.

Variable TrimSpace : string → string.
Variable ToUpper : string → string.
Variable CanonicalMIMEHeaderKey : string → string.

Local Abbreviation loop := (curl_loop TrimSpace ToUpper CanonicalMIMEHeaderKey).

Lemma curl_loop_app_bounded (n : nat) (before after : list string)
    (st st' : CurlState) :
  (length before ≤ n)%nat →
  loop st before = Ok st' → loop st (before ++ after) = loop st' after.
Proof.
  revert before st. induction n as [|n IH]; intros before st Hlen.
  - destruct before; [|simpl in Hlen; lia]. intros [= <-]. reflexivity.
  - destruct before as [|a [|v rest]]; simpl.
    + intros [= <-]. reflexivity.
    + destruct (bool_decide (a ∈ value_flags)); [discriminate|].
      intros [= <-]. reflexivity.
    + destruct (bool_decide (a ∈ value_flags)).
      * destruct (curl_value _ _ _ st a v) as [st1|e]; [|discriminate].
        apply IH. simpl in Hlen. lia.
      * intros H. apply (IH (v :: rest)); [simpl in *; lia | exact H].
Qed.

(** X18: [parseCurlArgs] reads its arguments from left to right: once a
    prefix is read without error, the rest is read from the state the
    prefix left, whatever it is; and a flag that takes a value is an error
    when it comes last. *)
Theorem curl_arguments_read_left_to_right
    (before after : list string) (st st' : CurlState) :
  loop st before = Ok st' →
  loop st (before ++ after) = loop st' after ∧
  (∀ a, a ∈ value_flags → loop st (before ++ [a]) = Err (needs_value a)).
Proof.
  intros H. split.
  - eapply curl_loop_app_bounded; [reflexivity | exact H].
  - intros a Ha.
    rewrite (curl_loop_app_bounded _ before [a] st st' (le_n _) H).
    simpl. rewrite bool_decide_eq_true_2 by exact Ha. reflexivity.
Qed.

(** X19: a data flag adds its value to the body parts and turns the
    method into POST when it is GET at that point, also when GET was asked
    for by an earlier [-X]; a [-X] that comes later sets the method
    again. *)
Theorem curl_data_switches_get_to_post
    (before : list string) (st st' : CurlState) (a v m : string) :
  loop st before = Ok st' → a ∈ data_flags →
  loop st (before ++ [a; v])
    = Ok (MkCurl (if decide (cs_method st' = MethodGet) then MethodPost
                  else cs_method st')
                 (cs_target st') (cs_headers st') (cs_bodies st' ++ [v])
                 (cs_include st')) ∧
  loop st (before ++ ["-X"; m; a; v])
    = Ok (MkCurl (if decide (ToUpper m = MethodGet) then MethodPost
                  else ToUpper m)
                 (cs_target st') (cs_headers st') (cs_bodies st' ++ [v])
                 (cs_include st')) ∧
  loop st (before ++ [a; v; "-X"; m])
    = Ok (MkCurl (ToUpper m) (cs_target st') (cs_headers st')
                 (cs_bodies st' ++ [v]) (cs_include st')).
Proof.
  intros H Ha.
  assert (Hflags : bool_decide (a ∈ value_flags) = true ∧
                   bool_decide (a ∈ request_flags) = false ∧
                   bool_decide (a ∈ header_flags) = false ∧
                   bool_decide (a ∈ data_flags) = true).
  { unfold data_flags in Ha.
    repeat (apply elem_of_cons in Ha as [-> | Ha]);
      try (apply elem_of_nil in Ha; contradiction);
      repeat split; vm_compute; reflexivity. }
  destruct Hflags as (Hv & Hr & Hh & Hd).
  repeat split;
    rewrite (curl_loop_app_bounded _ before _ st st' (le_n _) H);
    simpl; unfold curl_value; rewrite ?Hv, ?Hr, ?Hh, ?Hd; simpl;
    rewrite ?Hv, ?Hr, ?Hh, ?Hd; reflexivity.
Qed.

End CurlFacts.

Lemma curl_arguments_read_left_to_right_witness :
  curl_loop trim_ascii upper_ascii (λ k, k) curl_init
    (["-i"; "http://localhost:8080/ping"] ++ ["-H"])
  = Err HeaderNeedsValue.
Proof.
  refine (proj2 (curl_arguments_read_left_to_right trim_ascii upper_ascii
                   (λ k, k) ["-i"; "http://localhost:8080/ping"] []
                   curl_init
                   (MkCurl "GET" "http://localhost:8080/ping" ∅ [] true) _)
            "-H" _).
  - vm_compute. reflexivity.
  - vm_compute. repeat constructor.
Defined.

(** [-X get -d a=1 -d b=2 URL]: the method is POST and the body
    [a=1&b=2]. *)
Lemma curl_data_switches_get_to_post_witness :
  curl_loop trim_ascii upper_ascii (λ k, k) curl_init
    (["http://localhost:8080/ping"] ++ ["-X"; "get"; "-d"; "a=1"])
  = Ok (MkCurl "POST" "http://localhost:8080/ping" ∅ ["a=1"] false).
Proof.
  refine (proj1 (proj2 (curl_data_switches_get_to_post trim_ascii upper_ascii
                   (λ k, k) ["http://localhost:8080/ping"] curl_init
                   (MkCurl "GET" "http://localhost:8080/ping" ∅ [] false)
                   "-d" "a=1" "get" _ _))).
  - vm_compute. reflexivity.
  - vm_compute. repeat constructor.
Defined.

Example curl_examples :
  parseCurlArgs trim_ascii upper_ascii (λ k, k)
    ["-X"; "get"; "-d"; "a=1"; "--data-raw"; "b=2"; "https://h.example/x";
     "http://ignored.example"; "--verbose"; "-H"; "Host: h.example:8443"]
  = Ok (Build_CurlRequest "POST" "https://h.example/x"
          {[ "Host" := ["h.example:8443"] ]} "a=1&b=2" false) ∧
  parseCurlArgs trim_ascii upper_ascii (λ k, k)
    ["https://h.example/x"; "--url"; "https://other.example"; "-I"]
  = Ok (Build_CurlRequest "HEAD" "https://other.example" ∅ "" false).
Proof. split; vm_compute; reflexivity. Qed.

(** ** Build metadata *)

Lemma substring_0_length (n : nat) (s : string) :
  String.length (String.substring 0 n s) = Nat.min n (String.length s).
Proof.
  revert s. induction n as [|n IH]; intros [|a s]; simpl; try reflexivity.
  rewrite IH. reflexivity.
Qed.

Lemma substring_0_prefix (n : nat) (s : string) :
  String.prefix (String.substring 0 n s) s = true.
Proof.
  revert s. induction n as [|n IH]; intros [|a s]; simpl; try reflexivity.
  destruct (Ascii.ascii_dec a a) as [_|Hne]; [apply IH | congruence].
Qed.

Lemma prefix_refl (s : string) : String.prefix s s = true.
Proof.
  induction s as [|a s IH]; simpl; [reflexivity|].
  destruct (Ascii.ascii_dec a a) as [_|Hne]; [exact IH | congruence].
Qed.

Lemma short_spec (rev : string) :
  (String.length (version.short rev) ≤ 12)%nat ∧
  String.prefix (version.short rev) rev = true ∧
  ((String.length rev ≤ 12)%nat → version.short rev = rev).
Proof.
  unfold version.short. destruct (Nat.ltb_spec 12 (String.length rev)).
  - rewrite substring_0_length. repeat split; [lia | apply substring_0_prefix | lia].
  - repeat split; [lia | apply prefix_refl].
Qed.

(** X20: [init] never changes a variable that was set at build time to
    something other than its placeholder; a commit it derives is the
    revision of the build settings cut to at most 12 bytes; without build
    information nothing changes. *)
Theorem version_init_keeps_build_values
    (info : option version.BuildInfo) (v : version.Vars) :
  (version.Version v ≠ "dev" →
   version.Version (version.init info v) = version.Version v) ∧
  (version.Commit v ≠ "none" →
   version.Commit (version.init info v) = version.Commit v) ∧
  (version.Date v ≠ "unknown" →
   version.Date (version.init info v) = version.Date v) ∧
  (version.Commit (version.init info v) = version.Commit v ∨
   ∃ i, info = Some i ∧
        version.Commit (version.init info v)
          = version.short (version.scan (version.Settings i)).1 ∧
        (String.length (version.Commit (version.init info v)) ≤ 12)%nat ∧
        String.prefix (version.Commit (version.init info v))
          (version.scan (version.Settings i)).1 = true) ∧
  version.init None v = v.
Proof.
  destruct info as [i|]; simpl; [|repeat split; auto].
  destruct (version.scan (version.Settings i)) as [rev time] eqn:Hscan.
  repeat split.
  - intros Hv. rewrite (bool_decide_eq_false_2 _ Hv). simpl.
    destruct (_ || _); reflexivity.
  - intros Hc. rewrite (bool_decide_eq_false_2 _ Hc). simpl.
    destruct (bool_decide (version.Date v = "unknown")); reflexivity.
  - intros Hd. rewrite (bool_decide_eq_false_2 _ Hd). rewrite orb_false_r.
    destruct (bool_decide (version.Commit v = "none")); simpl; reflexivity.
  - destruct (bool_decide (version.Commit v = "none")) eqn:Hc; simpl.
    + destruct (bool_decide (rev = "")); simpl; [left; reflexivity|].
      right. exists i. split; [reflexivity|]. rewrite Hscan.
      pose proof (short_spec rev) as (Hlen & Hpre & _). auto.
    + left. destruct (bool_decide (version.Date v = "unknown")); reflexivity.
Qed.

(** A module installed with [go install ...@v1.4.2] from a checkout at a
    40-digit revision. *)
Example version_init_examples :
  version.init
    (Some (version.MkInfo "v1.4.2"
             [("GOOS", "linux");
              ("vcs.revision", "0123456789abcdef0123456789abcdef01234567");
              ("vcs.time", "2025-03-01T10:00:00Z")]))
    (version.MkVars "dev" "release-7" "unknown")
  = version.MkVars "v1.4.2" "release-7" "2025-03-01T10:00:00Z" ∧
  version.init
    (Some (version.MkInfo "(devel)"
             [("vcs.revision", "0123456789abcdef0123456789abcdef01234567")]))
    version.defaults
  = version.MkVars "dev" "0123456789ab" "unknown".
Proof. split; vm_compute; reflexivity. Qed.

(** Each variable is replaced by a value that does not depend on it, or
    kept. *)
Lemma version_init_fields (i : version.BuildInfo) (v : version.Vars) :
  version.init (Some i) v
  = version.MkVars
      (if bool_decide (version.Version v = "dev") &&
          negb (bool_decide (version.Main_Version i = "")) &&
          negb (bool_decide (version.Main_Version i = "(devel)"))
       then version.Main_Version i else version.Version v)
      (if bool_decide (version.Commit v = "none") &&
          negb (bool_decide ((version.scan (version.Settings i)).1 = ""))
       then version.short (version.scan (version.Settings i)).1
       else version.Commit v)
      (if bool_decide (version.Date v = "unknown") &&
          negb (bool_decide ((version.scan (version.Settings i)).2 = ""))
       then (version.scan (version.Settings i)).2
       else version.Date v).
Proof.
  unfold version.init.
  destruct (version.scan (version.Settings i)) as [rev time]. simpl.
  destruct (bool_decide (version.Commit v = "none")),
           (bool_decide (version.Date v = "unknown")); reflexivity.
Qed.

(** X21: running [init] a second time with the same build information
    changes nothing more. *)
Theorem version_init_idempotent
    (info : option version.BuildInfo) (v : version.Vars) :
  version.init info (version.init info v) = version.init info v.
Proof.
  destruct info as [i|]; [|reflexivity].
  rewrite !version_init_fields.
  cbn [version.Version version.Commit version.Date].
  f_equal;
    repeat (case_bool_decide; simpl in *); try reflexivity; congruence.
Qed.

(** * Returning after a cancellation *)

Lemma total_w_insert (m : Worker → nat) (ws : list Worker) (w : nat)
    (x y : Worker) :
  ws !! w = Some x →
  (total_w m (<[w := y]> ws) + m x = total_w m ws + m y)%nat.
Proof.
  revert w. induction ws as [|z ws IH]; intros [|w] H; simpl in *; try discriminate.
  - injection H as ->. lia.
  - specialize (IH w H). lia.
Qed.

Lemma total_steps_zero (ws : list Worker) :
  total_w steps_to_return ws = 0%nat →
  forallb (λ x, bool_decide (x = Done)) ws = true.
Proof.
  induction ws as [|x ws IH]; simpl; [reflexivity|].
  destruct x; simpl; try lia. intros H. apply IH. exact H.
Qed.

Lemma total_steps_pos (ws : list Worker) :
  (0 < total_w steps_to_return ws)%nat →
  ∃ w x, ws !! w = Some x ∧ x ≠ Done.
Proof.
  induction ws as [|x ws IH]; simpl; [lia|].
  destruct (decide (x = Done)) as [->|Hx].
  - simpl. intros H. destruct (IH H) as (w & y & Hw & Hy).
    exists (S w), y. auto.
  - intros _. exists 0%nat, x. auto.
Qed.

Section Drain.

Context {St : Type} (step : St → Event → option St) (pool : St → Pool).

(** [Q] holds of the states from which every worker that has not returned
    can take a step towards returning. *)
Variable Q : St → Prop.

Hypothesis progress :
  ∀ s w x, Q s → workers (pool s) !! w = Some x → x ≠ Done →
    ∃ e s' y, step s e = Some s' ∧ Q s' ∧
              workers (pool s') = <[w := y]> (workers (pool s)) ∧
              (steps_to_return y < steps_to_return x)%nat ∧
              is_grant e = false ∧
              (b2n (is_reply e) + weight is_issuing y = weight is_issuing x)%nat.

Lemma drain_workers (n : nat) (s : St) :
  Q s → (total_w steps_to_return (workers (pool s)) ≤ n)%nat →
  ∃ es s', exec step s es = Some s' ∧ Q s' ∧ all_done (pool s') = true ∧
           count_ev is_grant es = 0%nat ∧
           attempts es = count_w is_issuing (workers (pool s)).
Proof.
  revert s. induction n as [|n IH]; intros s HQ Hn.
  - exists [], s. repeat split; auto.
    + apply total_steps_zero. lia.
    + unfold attempts. simpl. symmetry.
      apply count_w_all_done; [reflexivity | apply total_steps_zero; lia].
  - destruct (Nat.eq_dec (total_w steps_to_return (workers (pool s))) 0%nat)
      as [H0|Hpos].
    { apply IH; [exact HQ | lia]. }
    destruct (total_steps_pos (workers (pool s))) as (w & x & Hw & Hx); [lia|].
    destruct (progress s w x HQ Hw Hx)
      as (e & s1 & y & Hstep & HQ1 & Hws & Hlt & Hgrant & Hatt).
    pose proof (total_w_insert steps_to_return _ _ _ y Hw) as Hm.
    pose proof (count_w_insert is_issuing _ _ _ y Hw) as Hi.
    rewrite <- Hws in Hm, Hi.
    destruct (IH s1 HQ1) as (es & s' & Hrun & HQ' & Hd & Hg & Ha); [lia|].
    exists (e :: es), s'. cbn [exec]. rewrite Hstep.
    repeat split; auto.
    + simpl. rewrite Hgrant, Hg. reflexivity.
    + unfold attempts in *. simpl. rewrite Ha.
      unfold b2n in Hatt. destruct (is_reply e); lia.
Qed.

End Drain.

Lemma counted_progress (s : RunWithOptions.State) (w : nat) (x : Worker) :
  cancelled (RunWithOptions.pool s) = true ∧ RunWithOptions.closed s = true →
  workers (RunWithOptions.pool s) !! w = Some x → x ≠ Done →
  ∃ e s' y,
    RunWithOptions.step s e = Some s' ∧
    (cancelled (RunWithOptions.pool s') = true ∧
     RunWithOptions.closed s' = true) ∧
    workers (RunWithOptions.pool s')
      = <[w := y]> (workers (RunWithOptions.pool s)) ∧
    (steps_to_return y < steps_to_return x)%nat ∧
    is_grant e = false ∧
    (b2n (is_reply e) + weight is_issuing y = weight is_issuing x)%nat.
Proof.
  intros [Hc Hcl] Hw Hx.
  destruct x as [| | |o|]; [| | | |congruence].
  - exists (Recv w). eexists. exists Done.
    split; [unfold RunWithOptions.step, RunWithOptions.on_pool, pool_move;
            rewrite Hcl, Hw; simpl; reflexivity|].
    simpl. repeat split; auto.
  - exists (CtxErr w). eexists. exists Done.
    split; [unfold RunWithOptions.step, RunWithOptions.on_pool, pool_check,
              pool_move; rewrite Hw, Hc; simpl; reflexivity|].
    simpl. repeat split; auto.
  - exists (Reply w DoFailed). eexists. exists (Recording DoFailed).
    split; [unfold RunWithOptions.step, RunWithOptions.on_pool, pool_reply,
              pool_move; rewrite Hw; simpl; reflexivity|].
    simpl. repeat split; auto.
  - exists (Commit w). eexists. exists LoopHead.
    split; [unfold RunWithOptions.step, RunWithOptions.on_pool, pool_commit;
            rewrite Hw; simpl; reflexivity|].
    simpl. repeat split; auto.
Qed.

(** X22: once the context is cancelled, [RunWithOptions] can return from
    wherever it stands: the feeder closes [jobs] without feeding another
    job, workers that wait or hold a job leave without an attempt, and the
    attempts in flight are the only ones that still end and are
    recorded. *)
Theorem counted_cancel_lets_return (s : RunWithOptions.State) :
  cancelled (RunWithOptions.pool s) = true →
  can_return RunWithOptions.step RunWithOptions.pool
    (λ s, all_done (RunWithOptions.pool s)) s.
Proof.
  intros Hc. unfold can_return.
  assert (Hdrain : ∀ s1, cancelled (RunWithOptions.pool s1) = true →
            RunWithOptions.closed s1 = true →
            ∃ es s', exec RunWithOptions.step s1 es = Some s' ∧
              all_done (RunWithOptions.pool s') = true ∧
              count_ev is_grant es = 0%nat ∧
              attempts es = count_w is_issuing (workers (RunWithOptions.pool s1))).
  { intros s1 Hc1 Hcl1.
    destruct (drain_workers RunWithOptions.step RunWithOptions.pool _
                counted_progress _ s1 (conj Hc1 Hcl1) (le_n _))
      as (es & s' & Hrun & _ & Hd & Hg & Ha).
    eauto 8. }
  destruct (RunWithOptions.closed s) eqn:Hcl; [apply Hdrain; assumption|].
  destruct (Hdrain (RunWithOptions.Mk (RunWithOptions.pool s)
                      (RunWithOptions.total s) (RunWithOptions.next s) true)
              Hc eq_refl) as (es & s' & Hrun & Hd & Hg & Ha).
  exists (FeederStop :: es), s'. cbn [exec].
  unfold RunWithOptions.step at 1. rewrite Hcl, Hc. simpl.
  repeat split; assumption.
Qed.

(** Cancelled after one job was fed and while its request is in flight,
    with two of three jobs still to feed. *)
Lemma counted_cancel_lets_return_witness :
  can_return RunWithOptions.step RunWithOptions.pool
    (λ s, all_done (RunWithOptions.pool s))
    (RunWithOptions.Mk (MkPool (Report.sized 3) true [Issuing; LoopHead])
       3 1 false).
Proof.
  apply counted_cancel_lets_return. reflexivity.
Defined.

Lemma timed_jobless (ctx_done : bool) (url : string) (d c : Z) (opts : Options)
    (es : list Event) (s : RunForDuration.State) :
  exec RunForDuration.step (RunForDuration.start ctx_done url d c opts) es
    = Some s →
  Forall jobless (workers (RunForDuration.pool s)).
Proof.
  apply (exec_invariant RunForDuration.step
           (λ s, Forall jobless (workers (RunForDuration.pool s)))).
  - intros s1 e s2 Hall Hstep.
    destruct e; TimedFacts.step_inv Hstep; try assumption;
      apply Forall_insert; try assumption; unfold jobless; discriminate.
  - simpl. unfold spawn. apply Forall_replicate. unfold jobless. discriminate.
Qed.

Lemma timed_progress (s : RunForDuration.State) (w : nat) (x : Worker) :
  cancelled (RunForDuration.pool s) = true ∧
  Forall jobless (workers (RunForDuration.pool s)) →
  workers (RunForDuration.pool s) !! w = Some x → x ≠ Done →
  ∃ e s' y,
    RunForDuration.step s e = Some s' ∧
    (cancelled (RunForDuration.pool s') = true ∧
     Forall jobless (workers (RunForDuration.pool s'))) ∧
    workers (RunForDuration.pool s')
      = <[w := y]> (workers (RunForDuration.pool s)) ∧
    (steps_to_return y < steps_to_return x)%nat ∧
    is_grant e = false ∧
    (b2n (is_reply e) + weight is_issuing y = weight is_issuing x)%nat.
Proof.
  intros [Hc Hall] Hw Hx.
  assert (Hins : ∀ y, jobless y →
            Forall jobless (<[w := y]> (workers (RunForDuration.pool s))))
    by (intros y Hy; apply Forall_insert; assumption).
  destruct x as [| | |o|]; [| | | |congruence].
  - exists (PollCtx w). eexists. exists Done.
    split; [unfold RunForDuration.step, RunForDuration.on_pool, pool_move;
            rewrite Hc, Hw; simpl; reflexivity|].
    simpl. repeat split; auto. apply Hins. discriminate.
  - exfalso. eapply (Forall_lookup_1 _ _ _ _ Hall Hw). reflexivity.
  - exists (Reply w DoFailed). eexists. exists (Recording DoFailed).
    split; [unfold RunForDuration.step, RunForDuration.on_pool, pool_reply,
              pool_move; rewrite Hw; simpl; reflexivity|].
    simpl. repeat split; auto. apply Hins. discriminate.
  - exists (Commit w). eexists. exists LoopHead.
    split; [unfold RunForDuration.step, RunForDuration.on_pool, pool_commit;
            rewrite Hw; simpl; reflexivity|].
    simpl. repeat split; auto. apply Hins. discriminate.
Qed.

(** X23: once the context is cancelled, [RunForDuration] can return from
    any state of a run, also before the deadline and with any number of
    workers: each worker leaves at its next stop check, after the attempt
    it has in flight, if any. *)
Theorem timed_cancel_lets_return
    (ctx_done : bool) (url : string) (d c : Z) (opts : Options)
    (es : list Event) (s : RunForDuration.State) :
  exec RunForDuration.step (RunForDuration.start ctx_done url d c opts) es
    = Some s →
  cancelled (RunForDuration.pool s) = true →
  can_return RunForDuration.step RunForDuration.pool
    (λ s, all_done (RunForDuration.pool s)) s.
Proof.
  intros Hrun Hc. apply timed_jobless in Hrun.
  destruct (drain_workers RunForDuration.step RunForDuration.pool _
              timed_progress _ s (conj Hc Hrun) (le_n _))
    as (es' & s' & Hrun' & _ & Hd & Hg & Ha).
  exists es', s'. auto.
Qed.

(** Two workers past the deadline, one gone through [<-end]; the context
    is then cancelled. *)
Lemma timed_cancel_lets_return_witness :
  can_return RunForDuration.step RunForDuration.pool
    (λ s, all_done (RunForDuration.pool s))
    (RunForDuration.Mk (MkPool Report.empty true [Done; Issuing]) true false).
Proof.
  apply (timed_cancel_lets_return false sample_url Second 2 sample_opts
           [PollDefault 1; Fire; PollEnd 0; Cancel]).
  - vm_compute. reflexivity.
  - reflexivity.
Defined.

Lemma paced_progress (s : RunForDurationWithRate.State) (w : nat) (x : Worker) :
  cancelled (RunForDurationWithRate.pool s) = true ∧
  RunForDurationWithRate.stopped s = true →
  workers (RunForDurationWithRate.pool s) !! w = Some x → x ≠ Done →
  ∃ e s' y,
    RunForDurationWithRate.step s e = Some s' ∧
    (cancelled (RunForDurationWithRate.pool s') = true ∧
     RunForDurationWithRate.stopped s' = true) ∧
    workers (RunForDurationWithRate.pool s')
      = <[w := y]> (workers (RunForDurationWithRate.pool s)) ∧
    (steps_to_return y < steps_to_return x)%nat ∧
    is_grant e = false ∧
    (b2n (is_reply e) + weight is_issuing y = weight is_issuing x)%nat.
Proof.
  intros [Hc Hs] Hw Hx.
  destruct x as [| | |o|]; [| | | |congruence].
  - destruct (RunForDurationWithRate.queued s) as [|n] eqn:Hq.
    + exists (Recv w). eexists. exists Done.
      split; [unfold RunForDurationWithRate.step,
                RunForDurationWithRate.on_pool, pool_move;
              rewrite Hq, Hs, Hw; simpl; reflexivity|].
      simpl. repeat split; auto.
    + exists (Recv w). eexists. exists GotJob.
      split; [unfold RunForDurationWithRate.step, pool_move;
              rewrite Hq, Hw; simpl; reflexivity|].
      simpl. repeat split; auto.
  - exists (CtxErr w). eexists. exists Done.
    split; [unfold RunForDurationWithRate.step,
              RunForDurationWithRate.on_pool, pool_check, pool_move;
            rewrite Hw, Hc; simpl; reflexivity|].
    simpl. repeat split; auto.
  - exists (Reply w DoFailed). eexists. exists (Recording DoFailed).
    split; [unfold RunForDurationWithRate.step,
              RunForDurationWithRate.on_pool, pool_reply, pool_move;
            rewrite Hw; simpl; reflexivity|].
    simpl. repeat split; auto.
  - exists (Commit w). eexists. exists LoopHead.
    split; [unfold RunForDurationWithRate.step,
              RunForDurationWithRate.on_pool, pool_commit;
            rewrite Hw; simpl; reflexivity|].
    simpl. repeat split; auto.
Qed.

(** X24: once the context is cancelled, [RunForDurationWithRate] can
    return from wherever it stands: the generator returns without sending
    another permit, also when blocked on a full [jobs], and the workers
    drop the buffered jobs without an attempt. *)
Theorem paced_cancel_lets_return (s : RunForDurationWithRate.State) :
  cancelled (RunForDurationWithRate.pool s) = true →
  can_return RunForDurationWithRate.step RunForDurationWithRate.pool
    (λ s, RunForDurationWithRate.stopped s
          && all_done (RunForDurationWithRate.pool s)) s.
Proof.
  intros Hc. unfold can_return.
  assert (Hdrain : ∀ s1, cancelled (RunForDurationWithRate.pool s1) = true →
            RunForDurationWithRate.stopped s1 = true →
            ∃ es s', exec RunForDurationWithRate.step s1 es = Some s' ∧
              RunForDurationWithRate.stopped s'
              && all_done (RunForDurationWithRate.pool s') = true ∧
              count_ev is_grant es = 0%nat ∧
              attempts es
              = count_w is_issuing (workers (RunForDurationWithRate.pool s1))).
  { intros s1 Hc1 Hs1.
    destruct (drain_workers RunForDurationWithRate.step
                RunForDurationWithRate.pool _ paced_progress _ s1
                (conj Hc1 Hs1) (le_n _))
      as (es & s' & Hrun & [_ Hs'] & Hd & Hg & Ha).
    exists es, s'. rewrite Hs', Hd. auto. }
  destruct (RunForDurationWithRate.stopped s) eqn:Hs; [apply Hdrain; assumption|].
  destruct (PacedFacts.generator_can_stop s Hs) as [Hctx _].
  destruct (Hctx Hc) as (s1 & Hstep & Hs1 & _).
  assert (Hpool : RunForDurationWithRate.pool s1 = RunForDurationWithRate.pool s).
  { unfold RunForDurationWithRate.step in Hstep. rewrite Hs, Hc in Hstep.
    injection Hstep as <-. reflexivity. }
  destruct (Hdrain s1) as (es & s' & Hrun & Hd & Hg & Ha);
    [rewrite Hpool; exact Hc | exact Hs1 |].
  exists (GenCtx :: es), s'. cbn [exec]. rewrite Hstep, <- Hpool.
  repeat split; assumption.
Qed.

(** Cancelled while the generator is blocked on a full buffer and the
    worker is inside a request. *)
Lemma paced_cancel_lets_return_witness :
  can_return RunForDurationWithRate.step RunForDurationWithRate.pool
    (λ s, RunForDurationWithRate.stopped s
          && all_done (RunForDurationWithRate.pool s))
    (RunForDurationWithRate.Mk (MkPool Report.empty true [Issuing])
       false false true RunForDurationWithRate.Inner 1024).
Proof.
  apply paced_cancel_lets_return. reflexivity.
Defined.

(** * Outcomes, attempt by attempt *)

(** ** Units of work and attempts *)

(** In [RunForDuration] a pass of the stop check leads straight into the
    attempt: passes are attempts made or in flight. *)
Lemma timed_passes_attempted (ctx_done : bool) (url : string) (d c : Z)
    (opts : Options) (es : list Event) (s : RunForDuration.State) :
  exec RunForDuration.step (RunForDuration.start ctx_done url d c opts) es
    = Some s →
  (attempts es + count_w is_busy (workers (RunForDuration.pool s)))%nat
  = count_ev is_pass es.
Proof.
  apply (exec_trace_invariant RunForDuration.step
           (λ es s, (attempts es
                     + count_w is_busy (workers (RunForDuration.pool s)))%nat
                    = count_ev is_pass es)).
  - unfold RunForDuration.start. cbn [RunForDuration.pool workers].
    unfold spawn. rewrite count_w_replicate. unfold weight. simpl. lia.
  - clear es s. intros es s e s' Hb Hstep.
    unfold attempts in *. rewrite !count_ev_snoc.
    destruct e; TimedFacts.step_inv Hstep; count_moves; lia.
Qed.

(** While the context is live, a count-bounded run that has returned has
    attempted every job it fed. *)
Lemma counted_live_attempts (ctx_done : bool) (url : string) (n c : Z)
    (opts : Options) (es : list Event) (s : RunWithOptions.State) :
  never_cancelled ctx_done es →
  exec RunWithOptions.step (RunWithOptions.start ctx_done url n c opts) es
    = Some s →
  all_done (RunWithOptions.pool s) = true →
  attempts es = count_ev is_feed es.
Proof.
  intros Hnever Hexec Hd.
  pose proof (counted_live _ _ _ _ _ _ _ Hexec) as (Hc & Hl).
  destruct (Hl (live_of_never_cancelled _ _ _ Hnever Hc)) as (Hfeed & _).
  unfold all_done in Hd.
  rewrite (count_w_all_done is_busy _ eq_refl Hd) in Hfeed. lia.
Qed.

(** The same for the permits of a paced run: none is left in [jobs]. *)
Lemma paced_live_attempts (ctx_done : bool) (c : Z) (es : list Event)
    (s : RunForDurationWithRate.State) :
  never_cancelled ctx_done es →
  exec RunForDurationWithRate.step
    (RunForDurationWithRate.Mk (MkPool Report.empty ctx_done (spawn c))
       false false false RunForDurationWithRate.Outer 0) es = Some s →
  all_done (RunForDurationWithRate.pool s) = true →
  attempts es = count_ev is_permit es.
Proof.
  intros Hnever Hexec Hd.
  pose proof (paced_live _ _ _ _ Hexec) as (Hc & Hl).
  pose proof (paced_workers_length _ _ _ _ Hexec) as Hlen.
  destruct (Hl (live_of_never_cancelled _ _ _ Hnever Hc)) as (Hperm & Hdone).
  unfold all_done in Hd.
  rewrite (count_w_all_done is_busy _ eq_refl Hd) in Hperm.
  rewrite (count_done_all _ Hd), Hlen in Hdone.
  assert (Hpos : (0 < Z.to_nat (Z.max 1 c))%nat) by lia.
  destruct (Hdone Hpos) as [_ Hq]. lia.
Qed.

Lemma timed_done_outcomes (ctx_done : bool) (url : string) (d c : Z)
    (opts : Options) (es : list Event) (s : RunForDuration.State) (elapsed : Z) :
  exec RunForDuration.step (RunForDuration.start ctx_done url d c opts) es
    = Some s →
  all_done (RunForDuration.pool s) = true →
  reports_outcomes true es
    (Report.set_Duration elapsed (rep (RunForDuration.pool s))).
Proof.
  intros Hrun Hd. apply reports_outcomes_of_tallied; [exact Hd | |].
  - apply TimedFacts.timed_report_inv in Hrun as (Hm & _). exact Hm.
  - intros code. eapply timed_tallied. exact Hrun.
Qed.

Lemma outcomes_counted_of_reports (timed : bool) (es : list Event) (r : Report) :
  reports_outcomes timed es r → outcomes_counted es r.
Proof. intros (He & Hc & _). split; assumption. Qed.

(** ** Failures and responses *)

(** C5, as stated, fails in its count of attempts: a job that the feeder
    hands to a worker just before the context is cancelled is dropped at
    the worker's [ctx.Err()] test, so the call returns with one unit of
    work handed out and no attempt made for it. *)
Lemma cancelled_job_gets_no_attempt :
  RunWithOptions.run false sample_url 1 1 sample_opts
    [Feed 0; Cancel; CtxErr 0; FeederStop] Second
    = Some (Report.Make Second 1 0 ∅ 0, None) ∧
  count_ev is_feed [Feed 0; Cancel; CtxErr 0; FeederStop] = 1%nat ∧
  attempts [Feed 0; Cancel; CtxErr 0; FeederStop] = 0%nat ∧
  ¬ every_job_attempted false sample_url 1 1 sample_opts.
Proof.
  assert (Hrun : RunWithOptions.run false sample_url 1 1 sample_opts
                   [Feed 0; Cancel; CtxErr 0; FeederStop] Second
                 = Some (Report.Make Second 1 0 ∅ 0, None))
    by (vm_compute; reflexivity).
  split; [exact Hrun|]. split; [reflexivity|]. split; [reflexivity|].
  intros H. specialize (H _ _ _ _ Hrun). discriminate H.
Qed.

(** C5, amended: in every mode the end of an attempt ([client.Do] or the
    construction of the request) leaves the report alone until the worker
    records it; recording a failure only increments [Errors], recording a
    response with any status code only touches the histogram; the worker
    is then back at its loop head, and no run has more attempts than units
    of work handed out (jobs, passes of the stop check, permits), so
    nothing is retried.  Every returned report has failures in [Errors]
    and responses in the histogram, one for one, with a nil error.  A
    returned run has exactly one attempt per unit of work when the context
    was not cancelled (in [RunForDuration], always); under cancellation a
    unit may get none. *)
Theorem attempts_recorded_once_and_never_returned :
  attempt_recorded_once RunWithOptions.step RunWithOptions.pool ∧
  attempt_recorded_once RunForDuration.step RunForDuration.pool ∧
  attempt_recorded_once RunForDurationWithRate.step RunForDurationWithRate.pool ∧
  (∀ ctx_done url n c opts es s,
     exec RunWithOptions.step (RunWithOptions.start ctx_done url n c opts) es
       = Some s →
     (attempts es ≤ count_ev is_feed es)%nat ∧
     Z.of_nat (count_ev is_feed es) <= Z.max 0 n) ∧
  (∀ ctx_done url d c opts es s,
     exec RunForDuration.step (RunForDuration.start ctx_done url d c opts) es
       = Some s →
     (attempts es ≤ count_ev is_pass es)%nat) ∧
  (∀ ctx_done url d c opts rps s0 es s,
     RunForDurationWithRate.start ctx_done url d c opts rps
       = RunForDurationWithRate.Running s0 →
     exec RunForDurationWithRate.step s0 es = Some s →
     (attempts es ≤ count_ev is_permit es)%nat) ∧
  (∀ ctx_done url n c opts es elapsed r err,
     RunWithOptions.run ctx_done url n c opts es elapsed = Some (r, err) →
     err = None ∧ outcomes_counted es r ∧
     (never_cancelled ctx_done es → attempts es = count_ev is_feed es)) ∧
  (∀ ctx_done url d c opts es elapsed r err,
     RunForDuration.run ctx_done url d c opts es elapsed = Some (r, err) →
     err = None ∧ outcomes_counted es r ∧
     attempts es = count_ev is_pass es) ∧
  (∀ ctx_done url d c opts rps es elapsed r err,
     RunForDurationWithRate.run
       (RunForDurationWithRate.start ctx_done url d c opts rps) es elapsed
       = Some (r, err) →
     err = None ∧ outcomes_counted es r ∧
     (never_cancelled ctx_done es → attempts es = count_ev is_permit es)).
Proof.
  split; [exact CountedFacts.counted_step_recorded|].
  split; [exact TimedFacts.timed_step_recorded|].
  split; [exact PacedFacts.paced_step_recorded|].
  split.
  { intros * Hrun. apply CountedFacts.counted_fed_bounds in Hrun.
    destruct Hrun as (_ & Hb & Hn & Hmax). split; lia. }
  split.
  { intros * Hrun. apply TimedFacts.run_pass_bounds in Hrun.
    unfold passed_bounds in Hrun. lia. }
  split.
  { intros * Hstart Hrun. unfold RunForDurationWithRate.start in Hstart.
    destruct (rps <=? 0)%float; [discriminate|]. injection Hstart as <-.
    apply PacedFacts.exec_permit_bounds in Hrun;
      [|apply PacedFacts.start_permit_bounds].
    destruct Hrun as (_ & Hb). lia. }
  split.
  { intros * H.
    pose proof (counted_run_inv _ _ _ _ _ _ _ _ _ H) as (_ & _ & _ & Herr).
    apply counted_run_done in H as (s & Hexec & Hd & ->).
    split; [exact Herr|]. split.
    - eapply outcomes_counted_of_reports, counted_done_outcomes;
        [exact Hexec | exact Hd].
    - intros Hnever. eapply counted_live_attempts; eassumption. }
  split.
  { intros * H.
    pose proof (timed_run_inv _ _ _ _ _ _ _ _ _ H) as (_ & _ & _ & Herr).
    apply timed_run_done in H as (s & Hexec & Hd & ->).
    split; [exact Herr|]. split.
    - eapply outcomes_counted_of_reports, timed_done_outcomes;
        [exact Hexec | exact Hd].
    - pose proof (timed_passes_attempted _ _ _ _ _ _ _ Hexec) as Hp.
      unfold all_done in Hd.
      rewrite (count_w_all_done is_busy _ eq_refl Hd) in Hp. lia. }
  intros * H.
  pose proof (PacedFacts.paced_report_inv _ _ _ _ _ _ _ _ _ _ H)
    as (_ & _ & Herr).
  split; [exact Herr|].
  apply paced_run_done in H as [[-> ->] | (s & Hexec & _ & Hd & ->)].
  - split; [|reflexivity].
    apply (outcomes_counted_of_reports true), reports_outcomes_empty.
  - split.
    + eapply outcomes_counted_of_reports, paced_done_outcomes;
        [exact Hexec | exact Hd].
    + intros Hnever. eapply paced_live_attempts; eassumption.
Qed.

(** A run of two jobs, one refused connection and one 503, with a live
    context: one error, one histogram entry and nothing under 200, two
    attempts for two jobs, nil error. *)
Lemma attempts_recorded_once_and_never_returned_witness :
  RunWithOptions.run false sample_url 2 1 sample_opts
    [Feed 0; CtxErr 0; Reply 0 DoFailed; Commit 0;
     Feed 0; CtxErr 0; Reply 0 (Response 503); Commit 0; FeederStop; Recv 0]
    Second
    = Some (Report.Make Second 2 0 {[503 := 1]} 1, None) ∧
  never_cancelled false
    [Feed 0; CtxErr 0; Reply 0 DoFailed; Commit 0;
     Feed 0; CtxErr 0; Reply 0 (Response 503); Commit 0; FeederStop; Recv 0] ∧
  (None : option error) = None ∧
  outcomes_counted
    [Feed 0; CtxErr 0; Reply 0 DoFailed; Commit 0;
     Feed 0; CtxErr 0; Reply 0 (Response 503); Commit 0; FeederStop; Recv 0]
    (Report.Make Second 2 0 {[503 := 1]} 1) ∧
  attempts [Feed 0; CtxErr 0; Reply 0 DoFailed; Commit 0;
            Feed 0; CtxErr 0; Reply 0 (Response 503); Commit 0; FeederStop;
            Recv 0]
  = count_ev is_feed
      [Feed 0; CtxErr 0; Reply 0 DoFailed; Commit 0;
       Feed 0; CtxErr 0; Reply 0 (Response 503); Commit 0; FeederStop;
       Recv 0].
Proof.
  assert (Hrun : RunWithOptions.run false sample_url 2 1 sample_opts
            [Feed 0; CtxErr 0; Reply 0 DoFailed; Commit 0;
             Feed 0; CtxErr 0; Reply 0 (Response 503); Commit 0; FeederStop;
             Recv 0] Second
          = Some (Report.Make Second 2 0 {[503 := 1]} 1, None))
    by (vm_compute; reflexivity).
  assert (Hnever : never_cancelled false
            [Feed 0; CtxErr 0; Reply 0 DoFailed; Commit 0;
             Feed 0; CtxErr 0; Reply 0 (Response 503); Commit 0; FeederStop;
             Recv 0])
    by (split; reflexivity).
  pose proof attempts_recorded_once_and_never_returned
    as (_ & _ & _ & _ & _ & _ & Hcounted & _).
  destruct (Hcounted _ _ _ _ _ _ _ _ _ Hrun) as (Herr & Hout & Hatt).
  split; [exact Hrun|]. split; [exact Hnever|]. split; [exact Herr|].
  split; [exact Hout | exact (Hatt Hnever)].
Defined.

(** ** The count of 200 responses *)

Lemma tally_counted_ok (o : Outcome) (r : Report) :
  Succeeded200 (tally_counted o r)
  = (if is_ok o then incr (Succeeded200 r) else Succeeded200 r) ∧
  at_code (StatusCounts (tally_counted o r)) StatusOK
  = (if is_ok o then incr (at_code (StatusCounts r) StatusOK)
     else at_code (StatusCounts r) StatusOK).
Proof.
  destruct o as [| |code]; simpl; try (split; reflexivity).
  rewrite at_code_insert.
  destruct (Z.eqb_spec code StatusOK) as [->|Hne].
  - rewrite decide_True by reflexivity. split; reflexivity.
  - rewrite decide_False by exact Hne. split; reflexivity.
Qed.

Lemma tally_timed_ok (o : Outcome) (r : Report) :
  Succeeded200 (tally_timed o r)
  = (if is_ok o then incr (Succeeded200 r) else Succeeded200 r) ∧
  at_code (StatusCounts (tally_timed o r)) StatusOK
  = (if is_ok o then incr (at_code (StatusCounts r) StatusOK)
     else at_code (StatusCounts r) StatusOK).
Proof.
  destruct o as [| |code]; simpl; try (split; reflexivity).
  rewrite at_code_insert.
  destruct (Z.eqb_spec code StatusOK) as [->|Hne].
  - rewrite decide_True by reflexivity. split; reflexivity.
  - rewrite decide_False by exact Hne. split; reflexivity.
Qed.

(** A step of a pool moves the two counts of 200s together. *)
Lemma pool_step_ok_together (tally : Outcome → Report → Report) (e : Event)
    (p p' : Pool) :
  (∀ o r,
     Succeeded200 (tally o r)
     = (if is_ok o then incr (Succeeded200 r) else Succeeded200 r) ∧
     at_code (StatusCounts (tally o r)) StatusOK
     = (if is_ok o then incr (at_code (StatusCounts r) StatusOK)
        else at_code (StatusCounts r) StatusOK)) →
  pool_step tally e p p' →
  if records_ok p e
  then Succeeded200 (rep p') = incr (Succeeded200 (rep p)) ∧
       at_code (StatusCounts (rep p')) StatusOK
       = incr (at_code (StatusCounts (rep p)) StatusOK)
  else Succeeded200 (rep p') = Succeeded200 (rep p) ∧
       at_code (StatusCounts (rep p')) StatusOK
       = at_code (StatusCounts (rep p)) StatusOK.
Proof.
  intros Ht. destruct e; simpl;
    try (intros [-> _]; split; reflexivity).
  - intros [_ ->]. split; reflexivity.
  - intros (o & -> & ->). cbn [rep].
    destruct (Ht o (rep p)) as [H1 H2]. destruct (is_ok o); auto.
Qed.

Lemma ok_count_of_reports (timed : bool) (es : list Event) (r : Report) :
  ok_mirrors r → reports_outcomes timed es r → ok_count_reported es r.
Proof.
  intros Hm (_ & Hc & Hs & _). split; [exact Hm|]. split; [exact Hs|].
  intros H0. specialize (Hc StatusOK). rewrite H0 in *. simpl in *.
  split; [exact Hs | exact Hc].
Qed.

(** C10: in every mode [Succeeded200] and the histogram's entry for 200
    are incremented together by the step that records a response with
    status 200, and no other step changes either; so in every report
    returned by any of the three entry operations [Succeeded200] equals
    the entry for 200, both count the 200 responses of the run, and both
    are 0 (no entry) when no 200 response was observed. *)
Theorem succeeded200_is_histogram_entry :
  ok_counted_together RunWithOptions.step RunWithOptions.pool ∧
  ok_counted_together RunForDuration.step RunForDuration.pool ∧
  ok_counted_together RunForDurationWithRate.step RunForDurationWithRate.pool ∧
  (∀ ctx_done url n c opts es elapsed r err,
     RunWithOptions.run ctx_done url n c opts es elapsed = Some (r, err) →
     ok_count_reported es r) ∧
  (∀ ctx_done url d c opts es elapsed r err,
     RunForDuration.run ctx_done url d c opts es elapsed = Some (r, err) →
     ok_count_reported es r) ∧
  (∀ ctx_done url d c opts rps es elapsed r err,
     RunForDurationWithRate.run
       (RunForDurationWithRate.start ctx_done url d c opts rps) es elapsed
       = Some (r, err) →
     ok_count_reported es r).
Proof.
  split.
  { intros s e s' H. apply (pool_step_ok_together tally_counted);
      [exact tally_counted_ok | apply counted_pool_step; exact H]. }
  split.
  { intros s e s' H. apply (pool_step_ok_together tally_timed);
      [exact tally_timed_ok | apply timed_pool_step; exact H]. }
  split.
  { intros s e s' H. apply (pool_step_ok_together tally_timed);
      [exact tally_timed_ok | apply paced_pool_step; exact H]. }
  split.
  { intros * H. apply counted_run_done in H as (s & Hexec & Hd & ->).
    pose proof (counted_done_outcomes _ _ _ _ _ _ _ elapsed Hexec Hd) as Hout.
    apply (ok_count_of_reports false); [|exact Hout].
    apply CountedFacts.counted_total_fixed_inv in Hexec as (_ & _ & Hm).
    exact Hm. }
  split.
  { intros * H. apply timed_run_done in H as (s & Hexec & Hd & ->).
    pose proof (timed_done_outcomes _ _ _ _ _ _ _ elapsed Hexec Hd) as Hout.
    apply (ok_count_of_reports true); [|exact Hout].
    apply TimedFacts.timed_report_inv in Hexec as (Hm & _). exact Hm. }
  intros * H.
  pose proof (PacedFacts.paced_report_inv _ _ _ _ _ _ _ _ _ _ H) as (Hm & _).
  apply (ok_count_of_reports true); [exact Hm|].
  apply paced_run_done in H as [[-> ->] | (s & Hexec & _ & Hd & ->)].
  - apply reports_outcomes_empty.
  - eapply paced_done_outcomes; [exact Hexec | exact Hd].
Qed.

(** Two 200s and a 500 at a paced rate: [Succeeded200] and the entry for
    200 are both 2, the number of 200 responses. *)
Lemma succeeded200_is_histogram_entry_witness :
  RunForDurationWithRate.run
    (RunForDurationWithRate.start false sample_url (5 * Second) 2 sample_opts
       10%float)
    [Tick; GenTick; GenSend; Recv 0; CtxErr 0; Reply 0 (Response 200);
     Tick; GenTick; GenSend; Recv 1; CtxErr 1; Reply 1 (Response 500);
     Commit 1; Commit 0;
     Tick; GenTick; GenSend; Recv 1; CtxErr 1; Reply 1 (Response 200); Commit 1;
     Fire; GenEnd; Recv 0; Recv 1]
    (5 * Second)
  = Some (Report.Make (5 * Second) 3 2 {[200 := 2; 500 := 1]} 0, None) ∧
  ok_count_reported
    [Tick; GenTick; GenSend; Recv 0; CtxErr 0; Reply 0 (Response 200);
     Tick; GenTick; GenSend; Recv 1; CtxErr 1; Reply 1 (Response 500);
     Commit 1; Commit 0;
     Tick; GenTick; GenSend; Recv 1; CtxErr 1; Reply 1 (Response 200); Commit 1;
     Fire; GenEnd; Recv 0; Recv 1]
    (Report.Make (5 * Second) 3 2 {[200 := 2; 500 := 1]} 0).
Proof.
  assert (Hrun : RunForDurationWithRate.run
    (RunForDurationWithRate.start false sample_url (5 * Second) 2 sample_opts
       10%float)
    [Tick; GenTick; GenSend; Recv 0; CtxErr 0; Reply 0 (Response 200);
     Tick; GenTick; GenSend; Recv 1; CtxErr 1; Reply 1 (Response 500);
     Commit 1; Commit 0;
     Tick; GenTick; GenSend; Recv 1; CtxErr 1; Reply 1 (Response 200); Commit 1;
     Fire; GenEnd; Recv 0; Recv 1]
    (5 * Second)
  = Some (Report.Make (5 * Second) 3 2 {[200 := 2; 500 := 1]} 0, None))
    by (vm_compute; reflexivity).
  split; [exact Hrun|].
  pose proof succeeded200_is_histogram_entry as (_ & _ & _ & _ & _ & Hp).
  apply (Hp _ _ _ _ _ _ _ _ _ _ Hrun).
Defined.
